(** * DrugScanner: a shallow embedding of the scanner wizard and the lookup proxy

    The repository holds a small Express server ([Server]), the serverless
    lookup handler it mounts ([Api], file api/identify.js), the review-gated
    capture wizard of the progressive web application ([Scanner]) and an
    earlier camera-based capture script ([Camera]).

    JavaScript values are embedded as the inductive type [JSValue].  A string
    is held as the bytes of its UTF-8 form, in which an unpaired surrogate, which
    a JavaScript string may contain, is written as the three bytes of its code
    point (bytes ED A0..BF xx); [utf16_length], [first_unit] and
    [lone_surrogate] read the UTF-16 code units off these bytes.  A number value
    carries the exact rational value of the finite binary64 it denotes.  What
    the ECMAScript runtime supplies and the repository does not define
    ([JSON.parse], the printing and the reading of numbers) is taken from the
    type class [Host]; the coercions that can throw return an [option], [None]
    being the exception. *)

From Stdlib Require Import ZArith QArith Lia List Ascii String Bool DecimalString.
From stdpp Require Import gmap strings.
Import ListNotations.
Local Open Scope string_scope.
Local Open Scope Z_scope.

(** ** JavaScript values *)

Module JS.

#[local] Set Warnings "-register-all".

Inductive JSValue : Type :=
| JUndefined
| JNull
| JBool (b : bool)
| JNum (q : Q)
| JStr (s : string)
| JArr (items : list JSValue)
| JObj (props : list (string * JSValue)).

(** ToBoolean.  NaN is not a [JSValue]: neither JSON text nor the
    computations below produce it as a value. *)
Definition truthy (v : JSValue) : bool :=
  match v with
  | JUndefined | JNull => false
  | JBool b => b
  | JNum q => negb (Qeq_bool q 0)
  | JStr s => negb (String.eqb s "")
  | JArr _ | JObj _ => true
  end.

(** [a || b] *)
Definition or_else (a b : JSValue) : JSValue := if truthy a then a else b.

Fixpoint assoc (k : string) (ps : list (string * JSValue)) : JSValue :=
  match ps with
  | [] => JUndefined
  | (k', v) :: rest => if String.eqb k k' then v else assoc k rest
  end.

(** Whether the object literally has the property (own properties are all
    that a value read from JSON has besides what it inherits). *)
Definition has_own (k : string) (ps : list (string * JSValue)) : bool :=
  existsb (fun p => String.eqb k (fst p)) ps.

(** A continuation byte (80..BF), the number of continuation bytes that
    follow a lead byte, and the UTF-16 code units of the code point a lead byte
    begins: two from F0 on, where the code point lies above U+FFFF. *)
Definition is_continuation (c : ascii) : bool :=
  let n := nat_of_ascii c in (128 <=? n)%nat && (n <? 192)%nat.

Definition followers (c : ascii) : nat :=
  let n := nat_of_ascii c in
  if (n <? 192)%nat then 0%nat
  else if (n <? 224)%nat then 1%nat
  else if (n <? 240)%nat then 2%nat
  else 3%nat.

Definition units_of_lead (c : ascii) : nat :=
  if (nat_of_ascii c <? 240)%nat then 1%nat else 2%nat.

(** The code points of a string, each counted with its [weight]; [expected]
    is the number of continuation bytes the current code point still lacks.  A
    byte that is not expected where it stands begins a code point of its
    own. *)
Fixpoint count_code_points (weight : ascii -> nat) (expected : nat) (s : string) : nat :=
  match s with
  | EmptyString => 0%nat
  | String c rest =>
      match expected with
      | S k =>
          if is_continuation c then count_code_points weight k rest
          else (weight c + count_code_points weight (followers c) rest)%nat
      | O => (weight c + count_code_points weight (followers c) rest)%nat
      end
  end.

(** [s.length]: the number of UTF-16 code units. *)
Definition utf16_length (s : string) : nat := count_code_points units_of_lead 0 s.

(** The number of code points, which is the number of steps of the string
    iterator. *)
Definition code_points (s : string) : nat := count_code_points (fun _ => 1%nat) 0 s.

(** The bytes ED, A0 + offset / 64, 80 + offset mod 64 of the surrogate with
    code [0xD800 + offset] ([offset] below 0x800). *)
Definition surrogate_bytes (offset : nat) : string :=
  String (ascii_of_nat 237)
    (String (ascii_of_nat (160 + offset / 64))
       (String (ascii_of_nat (128 + offset mod 64)) EmptyString)).

(** [s[0]] as a string of one code unit: the first code point when it lies
    below U+10000, else its high surrogate. *)
Definition first_unit (s : string) : string :=
  match s with
  | EmptyString => EmptyString
  | String a rest =>
      let n := nat_of_ascii a in
      if (n <? 192)%nat then String a EmptyString
      else if (n <? 224)%nat then String.substring 0 2 s
      else if (n <? 240)%nat then String.substring 0 3 s
      else
        match rest with
        | String b (String c _) =>
            let top := ((n mod 8) * 256 + (nat_of_ascii b mod 64) * 4
                        + (nat_of_ascii c mod 64) / 16)%nat in
            surrogate_bytes (top - 64)
        | _ => String a EmptyString
        end
  end.

Definition str_length (s : string) : JSValue := JNum (inject_Z (Z.of_nat (utf16_length s))).
Definition arr_length (xs : list JSValue) : JSValue := JNum (inject_Z (Z.of_nat (List.length xs))).

(** [v.k] for the property names this program reads ([length] is the only one
    of them that a string or an array defines).  [None] is the TypeError
    raised when [v] is undefined or null. *)
Definition prop (v : JSValue) (k : string) : option JSValue :=
  match v with
  | JUndefined | JNull => None
  | JObj ps => Some (assoc k ps)
  | JArr xs => Some (if String.eqb k "length" then arr_length xs else JUndefined)
  | JStr s => Some (if String.eqb k "length" then str_length s else JUndefined)
  | JBool _ | JNum _ => Some JUndefined
  end.

(** [v.k] where [v] is known not to be undefined or null. *)
Definition field (v : JSValue) (k : string) : JSValue :=
  match prop v k with Some x => x | None => JUndefined end.

(** [v[0]] on a truthy value. *)
Definition index0 (v : JSValue) : JSValue :=
  match v with
  | JArr (x :: _) => x
  | JStr (String c rest) => JStr (first_unit (String c rest))
  | JObj ps => assoc "0" ps
  | _ => JUndefined
  end.


End JS.
Export JS.

(** ** Completions *)

(** A computation that can throw yields an [option]; [x <- e ;; k] continues
    with the value of [e] and throws when [e] does. *)
Notation "x <- e ;; k" := (match e with Some x => k | None => None end)
  (at level 100, e at next level, k at level 200, right associativity, only parsing).

(** ** String helpers of the runtime that are plain byte manipulations *)

Definition dquote : string := String (ascii_of_nat 34) EmptyString.

Definition is_digit (c : ascii) : bool :=
  let n := nat_of_ascii c in (48 <=? n)%nat && (n <=? 57)%nat.

(** [s.replace(/[^0-9]/g, '')] *)
Fixpoint digits_only (s : string) : string :=
  match s with
  | EmptyString => EmptyString
  | String c rest => if is_digit c then String c (digits_only rest) else digits_only rest
  end.

Definition is_unreserved (c : ascii) : bool :=
  let n := nat_of_ascii c in
  ((65 <=? n) && (n <=? 90) || (97 <=? n) && (n <=? 122) || (48 <=? n) && (n <=? 57)
   || (n =? 45) || (n =? 95) || (n =? 46) || (n =? 33) || (n =? 126)
   || (n =? 42) || (n =? 39) || (n =? 40) || (n =? 41))%nat.

Definition hex_digit (n : nat) : ascii :=
  ascii_of_nat (if (n <? 10)%nat then 48 + n else 55 + n)%nat.

Definition percent_byte (c : ascii) : string :=
  let n := nat_of_ascii c in
  String "%" (String (hex_digit (n / 16)%nat) (String (hex_digit (n mod 16)%nat) EmptyString)).

(** Every byte that is not an unreserved ASCII character is percent-encoded. *)
Fixpoint percent_encode (s : string) : string :=
  match s with
  | EmptyString => EmptyString
  | String c rest =>
      (if is_unreserved c then String c EmptyString else percent_byte c)
        +:+ percent_encode rest
  end.

(** Whether the string holds a surrogate that is not part of a pair: the byte
    ED followed by a byte from A0 on.  (A surrogate pair is one code point
    above U+FFFF and has a lead byte from F0 on.) *)
Fixpoint lone_surrogate (s : string) : bool :=
  match s with
  | EmptyString => false
  | String a rest =>
      match rest with
      | String b _ =>
          (nat_of_ascii a =? 237)%nat && (160 <=? nat_of_ascii b)%nat || lone_surrogate rest
      | EmptyString => false
      end
  end.

(** The abstract operation Encode of [encodeURIComponent], on a string: a
    URIError ([None]) when the string holds a lone surrogate. *)
Definition Encode (s : string) : option string :=
  if lone_surrogate s then None else Some (percent_encode s).

(** The concatenation of [parts] with [sep] between them. *)
Fixpoint join (sep : string) (parts : list string) : string :=
  match parts with
  | [] => ""
  | [p] => p
  | p :: rest => p +:+ sep +:+ join sep rest
  end.

(** ** The host runtime *)

(** A Number: ToNumber can give NaN and, from a text such as Infinity, an
    infinity. *)
Inductive Number : Type :=
| NaN
| Finite (q : Q)
| Infinite (negative : bool).

(** Built-ins of the JavaScript runtime that the repository calls and does not
    define.  [JSON_parse] returns [None] where [JSON.parse] throws a
    SyntaxError; [Number_toString] is Number::toString in radix 10 and
    [StringToNumber] the abstract operation of that name. *)
Class Host : Type := {
  JSON_parse : string -> option JSValue;
  Number_toString : Q -> string;
  StringToNumber : string -> Number;
  JSON_parse_empty_object : JSON_parse "{}" = Some (JObj []);
  JSON_parse_null : JSON_parse "null" = Some JNull
}.

Section Coercions.
Context `{Host}.

(** ToString, as used by template literals, [encodeURIComponent] and
    [Array.prototype.join].  An array is converted by joining its elements with
    a comma, undefined and null elements counting as empty.  An object read
    from JSON inherits [Object.prototype.toString] unless it has a property
    [toString] of its own; that property is not callable, the inherited
    [valueOf] returns the object itself, and so the conversion throws a
    TypeError. *)
Fixpoint ToString (v : JSValue) : option string :=
  match v with
  | JStr s => Some s
  | JUndefined => Some "undefined"
  | JNull => Some "null"
  | JBool true => Some "true"
  | JBool false => Some "false"
  | JNum q => Some (Number_toString q)
  | JArr items =>
      option_map (join ",")
        ((fix elements (xs : list JSValue) : option (list string) :=
            match xs with
            | [] => Some []
            | x :: rest =>
                s <- match x with
                     | JUndefined | JNull => Some ""
                     | _ => ToString x
                     end ;;
                ss <- elements rest ;;
                Some (s :: ss)
            end) items)
  | JObj props => if has_own "toString" props then None else Some "[object Object]"
  end.

(** An element under [Array.prototype.join]. *)
Definition join_item (v : JSValue) : option string :=
  match v with
  | JUndefined | JNull => Some ""
  | _ => ToString v
  end.

Fixpoint join_items (items : list JSValue) : option (list string) :=
  match items with
  | [] => Some []
  | x :: rest =>
      s <- join_item x ;;
      ss <- join_items rest ;;
      Some (s :: ss)
  end.

(** [items.join(sep)] *)
Definition Array_join (sep : string) (items : list JSValue) : option string :=
  option_map (join sep) (join_items items).

(** [encodeURIComponent(v)] *)
Definition encodeURIComponent (v : JSValue) : option string :=
  s <- ToString v ;;
  Encode s.

(** ToNumber; it throws where the conversion of an object to a primitive
    does.  An object without a [toString] of its own converts to the text
    [[object Object]], which is not a number. *)
Definition ToNumber (v : JSValue) : option Number :=
  match v with
  | JUndefined => Some NaN
  | JNull => Some (Finite 0)
  | JBool b => Some (Finite (if b then 1 else 0))
  | JNum q => Some (Finite q)
  | JStr s => Some (StringToNumber s)
  | JArr _ => option_map StringToNumber (ToString v)
  | JObj props => if has_own "toString" props then None else Some NaN
  end.

(** [v < q] and [v > q] for a numeric literal [q]: false when [v] is NaN. *)
Definition lt_num (v : JSValue) (q : Q) : option bool :=
  option_map (fun n => match n with
                       | NaN => false
                       | Finite x => negb (Qle_bool q x)
                       | Infinite negative => negative
                       end) (ToNumber v).

Definition gt_num (v : JSValue) (q : Q) : option bool :=
  option_map (fun n => match n with
                       | NaN => false
                       | Finite x => negb (Qle_bool x q)
                       | Infinite negative => negb negative
                       end) (ToNumber v).

End Coercions.

(** ** api/identify.js: the lookup handler *)

Module Api.

(** What [doFetch] settles to: a rejection, or a response with its status and
    the outcome of [resp.json()] ([None] when that promise rejects). *)
Inductive FetchOutcome : Type :=
| FetchRejected
| FetchResolved (status : Z) (json : option JSValue).

Record Request : Type := { method : string; body : string }.

(** [payload] is the value handed to [JSON.stringify]. *)
Record Response : Type := { statusCode : Z; contentType : string; payload : JSValue }.

(** The handler either ends the response or its promise rejects. *)
Inductive Outcome : Type :=
| Sent (r : Response)
| Raised.

Record Lookup : Type := {
  drug : JSValue;
  sources : list JSValue;
  fetched : list string;
  logged : list string
}.

Record Run : Type := { outcome : Outcome; calls : list string; console : list string }.

Definition json_response (code : Z) (v : JSValue) : Response :=
  {| statusCode := code; contentType := "application/json"; payload := v |}.

(** [body || '{}'], the text handed to [JSON.parse]. *)
Definition parsed_text (req : Request) : string :=
  if String.eqb (body req) "" then "{}" else body req.

Definition ndc_endpoint : string := "https://api.fda.gov/drug/ndc.json?search=product_ndc:".
Definition label_endpoint : string := "https://api.fda.gov/drug/label.json?search=".
Definition limit_one : string := "&limit=1".

(** The two URL templates of the handler, around the text interpolated into
    them (for the product code, its encoded form). *)
Definition product_code_query (encoded : string) : string :=
  ndc_endpoint +:+ encoded +:+ limit_one.

Definition label_query (search : string) : string :=
  label_endpoint +:+ search +:+ limit_one.

Definition exact_clause (name value : string) : string :=
  "openfda." +:+ name +:+ ".exact:" +:+ dquote +:+ value +:+ dquote.

Definition scanned_code_ok (digitsOnly : string) : bool :=
  truthy (JStr digitsOnly)
  && ((utf16_length digitsOnly =? 10)%nat || (utf16_length digitsOnly =? 11)%nat
      || (utf16_length digitsOnly =? 12)%nat).

Section WithHost.
Context `{Host}.

(** [of.k ? of.k[0] : undefined] *)
Definition first_of (openfda : JSValue) (k : string) : JSValue :=
  if truthy (field openfda k) then index0 (field openfda k) else JUndefined.

Definition mapOpenFdaResult (result : JSValue) : JSValue :=
  if negb (truthy result) then JUndefined
  else
    let openfda := or_else (field result "openfda") (JObj []) in
    JObj
      [ ("brand_name", first_of openfda "brand_name");
        ("generic_name", first_of openfda "generic_name");
        ("ndc", first_of openfda "product_ndc");
        ("route", first_of openfda "route");
        ("dosage_form", first_of openfda "dosage_form");
        ("active_ingredients",
          or_else (field result "active_ingredient") (field result "active_ingredients"));
        ("indications",
          or_else (or_else (field result "indications_and_usage") (field result "indications"))
            JUndefined);
        ("dosage", or_else (field result "dosage_and_administration") JUndefined);
        ("warnings",
          or_else (or_else (field result "warnings_and_cautions") (field result "warnings"))
            JUndefined);
        ("adverse_reactions", or_else (field result "adverse_reactions") JUndefined);
        ("information_for_patients",
          or_else (field result "information_for_patients") JUndefined) ].

(** [if (identity.k) parts.push(`openfda.k.exact:"${identity.k}"`)]: what is
    pushed, or the TypeError of the interpolation. *)
Definition pushed_clause (identity : JSValue) (k : string) : option (list string) :=
  if truthy (field identity k) then
    text <- ToString (field identity k) ;;
    Some [exact_clause k text]
  else Some [].

(** The [parts] array of the label search. *)
Definition label_parts (identity : JSValue) : option (list string) :=
  brand <- pushed_clause identity "brand_name" ;;
  generic <- pushed_clause identity "generic_name" ;;
  form <- pushed_clause identity "dosage_form" ;;
  Some (brand ++ generic ++ form)%list.

(** The if / else-if chain that assigns [queryUrl].  [None] is an exception
    thrown while a URL is built, which nothing in the handler catches;
    [Some None] is the variable left undefined. *)
Definition queryUrl (identity : JSValue) (barcode : string) : option (option string) :=
  let digitsOnly := digits_only barcode in
  if truthy (or_else (field identity "ndc") (field identity "product_ndc")) then
    let ndc := or_else (field identity "ndc") (field identity "product_ndc") in
    encoded <- encodeURIComponent ndc ;;
    Some (Some (product_code_query encoded))
  else if scanned_code_ok digitsOnly then
    encoded <- encodeURIComponent (JStr digitsOnly) ;;
    Some (Some (product_code_query encoded))
  else if truthy (or_else (field identity "brand_name") (field identity "generic_name")) then
    parts <- label_parts identity ;;
    let search := join "+AND+" parts in
    Some (Some (label_query search))
  else Some None.

Definition nothing_found (urls log : list string) : Lookup :=
  {| drug := JUndefined; sources := []; fetched := urls; logged := log |}.

Definition fetch_error : string := "openFDA fetch error".

(** The [if (queryUrl) { try { ... } catch { ... } }] block.  Whatever is
    thrown inside the [try] is caught and logged: a rejected fetch, a body that
    cannot be read, a null body, a [length] that cannot be compared. *)
Definition lookup (doFetch : string -> FetchOutcome) (q : option string) : Lookup :=
  match q with
  | None => nothing_found [] []
  | Some url =>
      if negb (truthy (JStr url)) then nothing_found [] []
      else
        match doFetch url with
        | FetchRejected => nothing_found [url] [fetch_error]
        | FetchResolved status json =>
            if negb (status =? 200) then nothing_found [url] []
            else
              match json with
              | None => nothing_found [url] [fetch_error]
              | Some j =>
                  match prop j "results" with
                  | None => nothing_found [url] [fetch_error]
                  | Some r =>
                      let results := or_else r (JArr []) in
                      if truthy results then
                        match gt_num (field results "length") 0 with
                        | None => nothing_found [url] [fetch_error]
                        | Some true =>
                            {| drug := mapOpenFdaResult (index0 results);
                               sources := [JObj [("name", JStr "openFDA"); ("url", JStr url)]];
                               fetched := [url];
                               logged := [] |}
                        | Some false => nothing_found [url] []
                        end
                      else nothing_found [url] []
                  end
              end
        end
  end.

Definition not_found_body : JSValue := JObj [("status", JStr "Not_Found")].

Definition ok_body (d : JSValue) (srcs : list JSValue) : JSValue :=
  JObj [("status", JStr "OK"); ("drug", d); ("sources", JArr srcs)].

(** The tail of the handler, from the lookup to the response. *)
Definition respond (l : Lookup) : Run :=
  {| outcome :=
       Sent (if negb (truthy (drug l)) then json_response 200 not_found_body
             else json_response 200 (ok_body (drug l) (sources l)));
     calls := fetched l;
     console := logged l |}.

Definition quiet (o : Outcome) : Run := {| outcome := o; calls := []; console := [] |}.

(** The handler from the query construction on, for the [identity] and
    [barcode] it has extracted from the body.  An exception of the query
    construction leaves the handler before anything is fetched or sent. *)
Definition identify (doFetch : string -> FetchOutcome) (identity : JSValue) (barcode : string)
  : Run :=
  match queryUrl identity barcode with
  | None => quiet Raised
  | Some q => respond (lookup doFetch q)
  end.

Definition handler (doFetch : string -> FetchOutcome) (req : Request) : Run :=
  if negb (String.eqb (method req) "POST") then
    quiet (Sent (json_response 405 (JObj [("error", JStr "Method not allowed")])))
  else
    match JSON_parse (parsed_text req) with
    | None => quiet (Sent (json_response 400 (JObj [("error", JStr "Invalid JSON")])))
    | Some data =>
        match prop data "identity", prop data "barcode" with
        | Some i, Some b =>
            let identity := or_else i (JObj []) in
            match or_else b (JStr "") with
            | JStr barcode => identify doFetch identity barcode
            | _ => quiet Raised
            end
        | _, _ => quiet Raised
        end
    end.

End WithHost.

End Api.

(** ** The Express server mounting the handler *)

Module Server.
Import Api.

(** [res.status(500).json({ error: 'Internal Server Error' })] *)
Definition internal_error : Response :=
  {| statusCode := 500; contentType := "application/json; charset=utf-8";
     payload := JObj [("error", JStr "Internal Server Error")] |}.

(** [app.all('/api/identify', ...)]: a rejection of the handler is caught and,
    no header having been sent, answered with status 500. *)
Definition identify_route `{Host} (doFetch : string -> FetchOutcome) (req : Request) : Response :=
  match outcome (handler doFetch req) with
  | Sent r => r
  | Raised => internal_error
  end.

End Server.

(** ** Canvas encoding, shared by both capture scripts *)

Module Canvas.

(** A decoded still image (or video frame): its pixel dimensions and an
    identifier standing for its content. *)
Record Image : Type := { img_width : Z; img_height : Z; img_content : nat }.

(** An encoded picture: the encoding that was requested, the size of the
    canvas and what was drawn onto it, kept symbolic. *)
Record Encoding : Type := {
  mime : string;
  quality : Q;
  width : Z;
  height : Z;
  content : nat
}.

(** What [canvas.toDataURL] returns: the data URL of an encoded picture, or
    the text [data:,] that stands for a bitmap without pixels. *)
Inductive DataURL : Type :=
| Encoded (picture : Encoding)
| NoPixels.

(** [canvas.toDataURL(type, quality)] for a canvas of the given size onto which
    [drawn] was drawn: a canvas one of whose dimensions is zero has no pixels. *)
Definition toDataURL (type : string) (q : Q) (w h : Z) (drawn : Image) : DataURL :=
  if (w =? 0) || (h =? 0) then NoPixels
  else Encoded {| mime := type; quality := q; width := w; height := h;
                  content := img_content drawn |}.

(** [Math.round(n / d)] for integers [0 <= n < 2^52] and [d > 0]: the
    binary64 quotient lies on the same side of every half-integer as the exact
    one, so the result is the floor of [n/d + 1/2]. *)
Definition Math_round_div (n d : Z) : Z := (2 * n + d) / (2 * d).

End Canvas.
Export Canvas.

(** ** The review-gated scanner wizard (front-end script) *)

Module Scanner.

Definition SESSION_ID : string := "drug_scanner_session".
Definition KEY_ID : string := "geminiKey".
Definition MAX : Z := 1024.

(** *** compressImage *)

(** The canvas size chosen by [compressImage] for a [w] x [h] image. *)
Definition scaled_size (w h : Z) : Z * Z :=
  if (w >? h) && (w >? MAX) then (MAX, Math_round_div (h * MAX) w)
  else if h >? MAX then (Math_round_div (w * MAX) h, MAX)
  else (w, h).

(** A picked file: [decoded] is [None] when the browser cannot decode it, in
    which case neither [onload] fires and the promise never settles. *)
Record File : Type := { decoded : option Image }.

Definition compressImage (file : File) : option DataURL :=
  match decoded file with
  | None => None
  | Some img =>
      let (w, h) := scaled_size (img_width img) (img_height img) in
      Some (toDataURL "image/jpeg" (Qmake 8 10) w h img)
  end.

(** *** Page state *)

Inductive Instruction : Type :=
| NoInstruction
| StepInstruction (i : nat)
| Finished.

Inductive ButtonLabel : Type := LabelScan | LabelContinue | LabelScanAnother.

Inductive LoadingText : Type := ProcessingImage | AnalysingData.

(** What [displayResult] and [buildFallbackLinks] put on the page. *)
Inductive Dosage : Type :=
| DosageList (items : list string)
| DosageText (text : string).

Record Fields : Type := {
  f_name : string;
  f_active_ingredient : string;
  f_manufacturer : string;
  f_usage : string;
  f_dosage : Dosage;
  f_contraindications : string;
  f_warnings : option (list string);
  f_links : option string
}.

Inductive View : Type :=
| NotIdentified (links : option string)
| Structured (fields : Fields).

(** Why the catch block of [processImages] shows its error message. *)
Inductive Failure : Type :=
| MissingKey
| DatabaseError
| ExtractionError (message : string)
| RenderError.

Inductive ResultsPane : Type :=
| Blank
| Rendered (v : View)
| ErrorMessage (why : Failure).

Record UI : Type := {
  instructions : Instruction;
  scanLabel : ButtonLabel;
  scanShown : bool;
  scanReloads : bool;
  reviewHidden : bool;
  reviewImage : option DataURL;
  loadingHidden : bool;
  loadingText : LoadingText;
  resultsHidden : bool;
  results : ResultsPane
}.

Record SessionData : Type := {
  saved_imageCounter : nat;
  saved_capturedImages : list DataURL
}.

(** The IndexedDB database 'DrugScannerDB' with its two object stores. *)
Record IndexedDB : Type := {
  settings : gmap string string;
  session : gmap string SessionData
}.

Record App : Type := {
  imageCounter : nat;
  capturedImages : list DataURL;
  currentDraft : option DataURL;
  isProcessingFile : bool;
  ui : UI;
  db : IndexedDB
}.

(** Whether [openDB()] resolves. *)
Inductive DbOpen : Type := Opened | OpenFailed.

Definition with_ui (f : UI -> UI) (st : App) : App :=
  {| imageCounter := imageCounter st; capturedImages := capturedImages st;
     currentDraft := currentDraft st; isProcessingFile := isProcessingFile st;
     ui := f (ui st); db := db st |}.

Definition with_db (d : IndexedDB) (st : App) : App :=
  {| imageCounter := imageCounter st; capturedImages := capturedImages st;
     currentDraft := currentDraft st; isProcessingFile := isProcessingFile st;
     ui := ui st; db := d |}.

Definition with_draft (d : option DataURL) (st : App) : App :=
  {| imageCounter := imageCounter st; capturedImages := capturedImages st;
     currentDraft := d; isProcessingFile := isProcessingFile st;
     ui := ui st; db := db st |}.

Definition with_processing (b : bool) (st : App) : App :=
  {| imageCounter := imageCounter st; capturedImages := capturedImages st;
     currentDraft := currentDraft st; isProcessingFile := b;
     ui := ui st; db := db st |}.

Definition with_progress (n : nat) (imgs : list DataURL) (st : App) : App :=
  {| imageCounter := n; capturedImages := imgs;
     currentDraft := currentDraft st; isProcessingFile := isProcessingFile st;
     ui := ui st; db := db st |}.

(** *** showCurrentStep, showReview *)

Definition hide_panels (u : UI) : UI :=
  {| instructions := instructions u; scanLabel := scanLabel u; scanShown := scanShown u;
     scanReloads := scanReloads u;
     reviewHidden := true; reviewImage := reviewImage u;
     loadingHidden := true; loadingText := loadingText u;
     resultsHidden := true; results := results u |}.

Definition show_step (i : nat) (u : UI) : UI :=
  {| instructions := StepInstruction i;
     scanLabel := if (i =? 0)%nat then LabelScan else LabelContinue;
     scanShown := true; scanReloads := scanReloads u;
     reviewHidden := reviewHidden u; reviewImage := reviewImage u;
     loadingHidden := loadingHidden u; loadingText := loadingText u;
     resultsHidden := resultsHidden u; results := results u |}.

Definition showCurrentStep (st : App) : App :=
  let st1 := with_ui hide_panels st in
  if (2 <=? imageCounter st1)%nat then st1
  else with_ui (show_step (imageCounter st1)) st1.

Definition showReview (dataUri : DataURL) (st : App) : App :=
  with_ui (fun u =>
    {| instructions := NoInstruction; scanLabel := scanLabel u; scanShown := false;
       scanReloads := scanReloads u;
       reviewHidden := false; reviewImage := Some dataUri;
       loadingHidden := loadingHidden u; loadingText := loadingText u;
       resultsHidden := resultsHidden u; results := results u |}) st.

Definition set_loading (hidden : bool) (t : LoadingText) (u : UI) : UI :=
  {| instructions := instructions u; scanLabel := scanLabel u; scanShown := scanShown u;
     scanReloads := scanReloads u;
     reviewHidden := reviewHidden u; reviewImage := reviewImage u;
     loadingHidden := hidden; loadingText := t;
     resultsHidden := resultsHidden u; results := results u |}.

Definition set_results (hidden : bool) (r : ResultsPane) (u : UI) : UI :=
  {| instructions := instructions u; scanLabel := scanLabel u; scanShown := scanShown u;
     scanReloads := scanReloads u;
     reviewHidden := reviewHidden u; reviewImage := reviewImage u;
     loadingHidden := loadingHidden u; loadingText := loadingText u;
     resultsHidden := hidden; results := r |}.

(** *** IndexedDB helpers *)

Definition getKey (d : IndexedDB) : option string := settings d !! KEY_ID.

Definition saveKey (key : string) (d : IndexedDB) : IndexedDB :=
  {| settings := <[KEY_ID := key]> (settings d); session := session d |}.

Definition deleteKey (d : IndexedDB) : IndexedDB :=
  {| settings := delete KEY_ID (settings d); session := session d |}.

(** [saveSession]: a failure to open the database is caught and logged. *)
Definition saveSession (o : DbOpen) (st : App) : App :=
  match o with
  | OpenFailed => st
  | Opened =>
      let data := {| saved_imageCounter := imageCounter st;
                     saved_capturedImages := capturedImages st |} in
      with_db {| settings := settings (db st);
                 session := <[SESSION_ID := data]> (session (db st)) |} st
  end.

Definition clearSession (o : DbOpen) (d : IndexedDB) : IndexedDB :=
  match o with
  | OpenFailed => d
  | Opened => {| settings := settings d; session := delete SESSION_ID (session d) |}
  end.

(** [loadSession]: defined by the script and never called. *)
Definition loadSession (o : DbOpen) (st : App) : App * bool :=
  match o with
  | OpenFailed => (st, false)
  | Opened =>
      match session (db st) !! SESSION_ID with
      | Some data =>
          (with_progress (saved_imageCounter data) (saved_capturedImages data) st, true)
      | None => (st, false)
      end
  end.

(** *** displayResult, buildFallbackLinks *)

Section Presentation.
Context `{Host}.

(** The literal [0.4].  It denotes the binary64 nearest to 4/10, which lies
    just above 4/10 with no binary64 in between: a binary64 is below the one
    exactly when it is below the other. *)
Definition CONFIDENCE_THRESHOLD : Q := Qmake 4 10.

(** The encoded query of the three search links.  [Some None] is the empty
    string returned when there is no fallback, [None] the exception thrown by
    [encodeURIComponent]. *)
Definition buildFallbackLinks (fallback : JSValue) : option (option string) :=
  if negb (truthy fallback) then Some None
  else
    query <- encodeURIComponent (or_else (field fallback "query") (JStr "thuốc")) ;;
    Some (Some query).

(** [!data || !data.identity || data.identity.confidence < 0.4]; the
    comparison is reached, and can throw, only when the first two tests fail. *)
Definition not_identified (data : JSValue) : option bool :=
  if negb (truthy data) then Some true
  else if negb (truthy (field data "identity")) then Some true
  else lt_num (field (field data "identity") "confidence") CONFIDENCE_THRESHOLD.

(** The text of each element, interpolated into a list item. *)
Fixpoint list_items (items : list JSValue) : option (list string) :=
  match items with
  | [] => Some []
  | x :: rest =>
      s <- ToString x ;;
      ss <- list_items rest ;;
      Some (s :: ss)
  end.

(** The dosage part of the markup. *)
Definition dosage_markup (dosage : JSValue) : option Dosage :=
  match dosage with
  | JArr items => items' <- list_items items ;; Some (DosageList items')
  | other => text <- ToString other ;; Some (DosageText text)
  end.

(** The warnings block: absent unless [warnings && warnings.length > 0], and
    then built with [warnings.map], which only an array has. *)
Definition warnings_markup (warnings : JSValue) : option (option (list string)) :=
  if truthy warnings then
    many <- gt_num (field warnings "length") 0 ;;
    if (many : bool) then
      match warnings with
      | JArr ws => ws' <- list_items ws ;; Some (Some ws')
      | _ => None
      end
    else Some None
  else Some None.

(** [None] is an exception thrown while the markup is being built. *)
Definition displayResult (data : JSValue) : option View :=
  low <- not_identified data ;;
  if (low : bool) then
    links <- (if truthy (field data "search_fallback")
              then buildFallbackLinks (field data "search_fallback") else Some None) ;;
    Some (NotIdentified links)
  else
    let identity := field data "identity" in
    let details := field data "details" in
    let warnings := field data "warnings" in
    let search_fallback := field data "search_fallback" in
    name <- ToString (field identity "name") ;;
    active_ingredient <- ToString (field identity "active_ingredient") ;;
    manufacturer <- ToString (field identity "manufacturer") ;;
    usage <- prop details "usage" ;;
    usage' <- ToString usage ;;
    dosage <- dosage_markup (field details "dosage") ;;
    contraindications <- ToString (field details "contraindications") ;;
    warnings' <- warnings_markup warnings ;;
    links <- buildFallbackLinks search_fallback ;;
    Some (Structured
            {| f_name := name;
               f_active_ingredient := active_ingredient;
               f_manufacturer := manufacturer;
               f_usage := usage';
               f_dosage := dosage;
               f_contraindications := contraindications;
               f_warnings := warnings';
               f_links := links |}).

End Presentation.

(** *** processImages *)

(** The synchronous prefix of [processImages], up to its first [await]. *)
Definition processImages_begin (st : App) : App :=
  with_ui (fun u =>
    {| instructions := NoInstruction; scanLabel := scanLabel u; scanShown := false;
       scanReloads := scanReloads u;
       reviewHidden := true; reviewImage := reviewImage u;
       loadingHidden := false; loadingText := AnalysingData;
       resultsHidden := resultsHidden u; results := results u |}) st.

(** What the model call and [JSON.parse] of its cleaned text come to. *)
Inductive Extraction : Type :=
| ExtractionFailed (message : string)
| Extracted (data : JSValue).

Definition attempt `{Host} (o : DbOpen) (e : Extraction) (st : App) : ResultsPane :=
  match o with
  | OpenFailed => ErrorMessage DatabaseError
  | Opened =>
      match getKey (db st) with
      | None => ErrorMessage MissingKey
      | Some key =>
          if String.eqb key "" then ErrorMessage MissingKey
          else
            match e with
            | ExtractionFailed m => ErrorMessage (ExtractionError m)
            | Extracted data =>
                match displayResult data with
                | Some v => Rendered v
                | None => ErrorMessage RenderError
                end
            end
      end
  end.

(** The rest of [processImages]: the try/catch and the [finally] block. *)
Definition processImages_settle `{Host} (o : DbOpen) (e : Extraction) (st : App) : App :=
  let pane := attempt o e st in
  {| imageCounter := 2; capturedImages := capturedImages st;
     currentDraft := currentDraft st; isProcessingFile := isProcessingFile st;
     ui := {| instructions := Finished; scanLabel := LabelScanAnother; scanShown := true;
              scanReloads := true;
              reviewHidden := reviewHidden (ui st); reviewImage := reviewImage (ui st);
              loadingHidden := true; loadingText := loadingText (ui st);
              resultsHidden := false; results := pane |};
     db := db st |}.

(** *** Event handlers *)

Definition initial_ui : UI :=
  {| instructions := NoInstruction; scanLabel := LabelScan; scanShown := true;
     scanReloads := false; reviewHidden := true; reviewImage := None;
     loadingHidden := true; loadingText := ProcessingImage;
     resultsHidden := true; results := Blank |}.

(** The page as the script's initial bindings leave it. *)
Definition loaded (d : IndexedDB) : App :=
  {| imageCounter := 0; capturedImages := []; currentDraft := None;
     isProcessingFile := false; ui := initial_ui; db := d |}.

(** The DOMContentLoaded handler once [await getKey()] has settled: when the
    database opens the handler goes on to its last statement,
    [showCurrentStep()]; when it does not, [getKey] rejects and the handler
    ends there. *)
Definition DOMContentLoaded (o : DbOpen) (st : App) : App :=
  match o with
  | Opened => showCurrentStep st
  | OpenFailed => st
  end.

(** The page after a (re)load.  The database survives the reload and no saved
    session is read back. *)
Definition boot (o : DbOpen) (d : IndexedDB) : App := DOMContentLoaded o (loaded d).

(** [loadingOverlay.classList.add('hidden')] *)
Definition hide_loading (u : UI) : UI := set_loading true (loadingText u) u.

(** [fileInput] change, up to its [await] and from it on. *)
Definition change_begin (st : App) : App :=
  with_ui (set_loading false ProcessingImage) (with_processing true st).

Definition change_resume (dataUri : DataURL) (st : App) : App :=
  let st2 := with_draft (Some dataUri) st in
  let st3 := with_ui hide_loading st2 in
  with_processing false (showReview dataUri st3).

(** [fileInput] change, run to its end.  When the image cannot be decoded the
    handler stays suspended at its [await]. *)
Definition fileInput_change (file : option File) (st : App) : App :=
  if isProcessingFile st then st
  else
    match file with
    | None => st
    | Some f =>
        let st1 := change_begin st in
        match compressImage f with
        | None => st1
        | Some dataUri => change_resume dataUri st1
        end
    end.

Definition retakeButton_click (st : App) : App :=
  showCurrentStep (with_draft None st).

(** The statements of the confirm handler after its guard, in program order. *)
Definition push_draft (st : App) : App :=
  match currentDraft st with
  | Some d => with_progress (imageCounter st) (capturedImages st ++ [d])%list st
  | None => st
  end.

Definition increment_counter (st : App) : App :=
  with_progress (S (imageCounter st)) (capturedImages st) st.

Definition clear_draft (st : App) : App := with_draft None st.

Definition dispatch (st : App) : App :=
  if (2 <=? imageCounter st)%nat then processImages_begin st else showCurrentStep st.

(** The handler up to [await saveSession()], and from there on. *)
Definition confirm_begin (st : App) : App := increment_counter (push_draft st).

Definition confirm_resume (o : DbOpen) (st : App) : App :=
  dispatch (clear_draft (saveSession o st)).

Definition confirm_body (o : DbOpen) : list (App -> App) :=
  [push_draft; increment_counter; saveSession o; clear_draft; dispatch].

Definition run (body : list (App -> App)) (st : App) : App :=
  fold_left (fun s f => f s) body st.

(** The state before the first statement and after each statement. *)
Fixpoint trace (body : list (App -> App)) (st : App) : list App :=
  match body with
  | [] => [st]
  | f :: rest => st :: trace rest (f st)
  end.

Definition confirmButton_click (o : DbOpen) (st : App) : App :=
  match currentDraft st with
  | None => st
  | Some _ => run (confirm_body o) st
  end.

(** The reset branch of the scan button's click listener. *)
Definition reset_flow (o : DbOpen) (st : App) : App :=
  let st1 := with_db (clearSession o (db st)) st in
  let st2 := with_progress 0 [] st1 in
  showCurrentStep (with_ui (set_results (resultsHidden (ui st2)) Blank) st2).

(** The click listener of the scan button, run to its end. *)
Definition scanButton_click (o : DbOpen) (st : App) : App :=
  if (2 <=? imageCounter st)%nat then reset_flow o st else st.

(** The [onclick] property that [processImages] installs on the scan button;
    [o'] is the opening of the database by the reloaded page. *)
Definition scanButton_onclick (o o' : DbOpen) (st : App) : App :=
  boot o' (clearSession o (db st)).

(** *** The wizard of the specification, read off the page state *)

Inductive Wizard : Type :=
| Idle (stepIndex : nat)
| Reviewing (stepIndex : nat) (draft : DataURL)
| Finalizing
| Done
| Error.

Definition phase (st : App) : Wizard :=
  match currentDraft st with
  | Some d => Reviewing (imageCounter st) d
  | None =>
      if (imageCounter st <? 2)%nat then Idle (imageCounter st)
      else if negb (loadingHidden (ui st)) then Finalizing
      else match results (ui st) with
           | ErrorMessage _ => Error
           | _ => Done
           end
  end.

End Scanner.

(** ** The camera capture script (the earlier front end) *)

Module Camera.

(** A camera stream: the size of its video frames and whether its tracks are
    still running. *)
Record Stream : Type := { videoWidth : Z; videoHeight : Z; running : bool }.

Inductive Overlay : Type := FrontLabel | BarcodeOrExtra.

Record Page : Type := {
  step : nat;
  capturedImages : list DataURL;
  currentStream : option Stream;
  overlay : Overlay;
  startShown : bool;
  scanShown : bool;
  previewShown : bool;
  resultShown : bool;
  preview1 : option DataURL;
  preview2 : option DataURL
}.

Definition stop_tracks (s : Stream) : Stream :=
  {| videoWidth := videoWidth s; videoHeight := videoHeight s; running := false |}.

(** [startCamera]: [granted] is what [getUserMedia] resolves to, [None] when
    it rejects (the assignment to [currentStream] then never happens). *)
Definition startCamera (granted : option Stream) (current : option Stream) : option Stream :=
  match granted with
  | Some s => Some s
  | None => option_map stop_tracks current
  end.

(** The state both [startScanBtn] and [retakeBtn] establish. *)
Definition restart (granted : option Stream) (p : Page) : Page :=
  {| step := 0; capturedImages := [];
     currentStream := startCamera granted (currentStream p);
     overlay := FrontLabel;
     startShown := false; scanShown := true; previewShown := false; resultShown := false;
     preview1 := preview1 p; preview2 := preview2 p |}.

Definition startScanBtn_click (granted : option Stream) (p : Page) : Page := restart granted p.

Definition retakeBtn_click (granted : option Stream) (p : Page) : Page := restart granted p.

(** [captureBtn] click; [frame] stands for the content of the video frame
    drawn onto the canvas. *)
Definition captureBtn_click (frame : nat) (p : Page) : Page :=
  match currentStream p with
  | None => p
  | Some s =>
      let shot := {| img_width := videoWidth s; img_height := videoHeight s;
                     img_content := frame |} in
      let dataUrl := toDataURL "image/jpeg" (Qmake 8 10) (videoWidth s) (videoHeight s) shot in
      let images := (capturedImages p ++ [dataUrl])%list in
      let n := S (step p) in
      let ov := if (n =? 1)%nat then BarcodeOrExtra else overlay p in
      if (2 <=? n)%nat then
        {| step := n; capturedImages := images;
           currentStream := Some (stop_tracks s); overlay := ov;
           startShown := startShown p; scanShown := false; previewShown := true;
           resultShown := resultShown p;
           preview1 := nth_error images 0; preview2 := nth_error images 1 |}
      else
        {| step := n; capturedImages := images;
           currentStream := currentStream p; overlay := ov;
           startShown := startShown p; scanShown := scanShown p;
           previewShown := previewShown p; resultShown := resultShown p;
           preview1 := preview1 p; preview2 := preview2 p |}
  end.

Definition newScanBtn_click (p : Page) : Page :=
  {| step := 0; capturedImages := [];
     currentStream := currentStream p; overlay := overlay p;
     startShown := true; scanShown := scanShown p; previewShown := previewShown p;
     resultShown := false; preview1 := preview1 p; preview2 := preview2 p |}.

Definition initial : Page :=
  {| step := 0; capturedImages := []; currentStream := None; overlay := FrontLabel;
     startShown := true; scanShown := false; previewShown := false; resultShown := false;
     preview1 := None; preview2 := None |}.

End Camera.

(** ** api/identify.js: doFetch *)

Module Transport.
Import Api.

(** What [https.get] comes to: its 'error' event, or the 'end' of a
    response with the status code and the data received. *)
Inductive HttpsGet : Type :=
| HttpsError
| HttpsEnded (statusCode : Z) (data : string).

(** The [json()] method of the object the fallback resolves to: a text that
    does not parse reads as the empty object. *)
Definition https_json `{Host} (data : string) : JSValue :=
  match JSON_parse data with
  | Some v => v
  | None => JObj []
  end.

(** [doFetch]: the global [fetch] when the runtime defines one ([Some]),
    otherwise the promise built around [https.get]. *)
Definition doFetch `{Host} (fetch : option (string -> FetchOutcome))
    (https_get : string -> HttpsGet) (url : string) : FetchOutcome :=
  match fetch with
  | Some native => native url
  | None =>
      match https_get url with
      | HttpsError => FetchRejected
      | HttpsEnded statusCode data => FetchResolved statusCode (Some (https_json data))
      end
  end.

End Transport.

(** ** The service worker *)

Module ServiceWorker.

Definition CACHE_NAME : string := "drug-pwa-cache-v2".

Definition ASSETS : list string :=
  ["/"; "/index.html"; "/style.css"; "/script.js"; "/manifest.json"; "/icon.png"].

(** A response: its status, its [type] ('basic', 'cors', 'opaque', ...) and an
    identifier standing for its body. *)
Record Reply : Type := { status : Z; type : string; payload_id : nat }.

(** A cache maps request URLs to responses; the cache storage lists the named
    caches in the order of their creation. *)
Abbreviation Cache := (gmap string Reply).
Definition CacheStorage : Type := list (string * Cache).

(** [caches.match(url)]: the first cache, in creation order, that holds it. *)
Fixpoint caches_match (url : string) (cs : CacheStorage) : option Reply :=
  match cs with
  | [] => None
  | (_, c) :: rest =>
      match c !! url with
      | Some r => Some r
      | None => caches_match url rest
      end
  end.

(** [caches.open(name).then(cache => cache.put(url, r))]: the cache is created,
    last, when there is none of that name. *)
Fixpoint cache_put (name url : string) (r : Reply) (cs : CacheStorage) : CacheStorage :=
  match cs with
  | [] => [(name, {[url := r]})]
  | (n, c) :: rest =>
      if String.eqb n name then (n, <[url := r]> c) :: rest
      else (n, c) :: cache_put name url r rest
  end.

Definition caches_keys (cs : CacheStorage) : list string := map fst cs.

Definition caches_delete (name : string) (cs : CacheStorage) : CacheStorage :=
  List.filter (fun e => negb (String.eqb (fst e) name)) cs.

(** The 'activate' listener: every key other than [CACHE_NAME] is deleted. *)
Definition on_activate (cs : CacheStorage) : CacheStorage :=
  fold_left
    (fun acc key => if negb (String.eqb key CACHE_NAME) then caches_delete key acc else acc)
    (caches_keys cs) cs.

Record FetchEvent : Type := { req_method : string; req_url : string }.

(** What the 'fetch' listener does with an event: it returns without calling
    [respondWith], or answers with what its promise resolves to ([None] is
    undefined, which the browser turns into a network error). *)
Inductive Handling : Type :=
| NotHandled
| RespondWith (r : option Reply).

Record Served : Type := {
  handling : Handling;
  storage : CacheStorage;
  requested : list string
}.

Definition cacheable (res : Reply) : bool :=
  (status res =? 200) && String.eqb (type res) "basic".

(** The 'fetch' listener; [network url] is what [fetch(req)] settles to,
    [None] when it rejects. *)
Definition on_fetch (network : string -> option Reply) (ev : FetchEvent) (cs : CacheStorage)
  : Served :=
  if negb (String.eqb (req_method ev) "GET") then
    {| handling := NotHandled; storage := cs; requested := [] |}
  else
    match caches_match (req_url ev) cs with
    | Some cached =>
        {| handling := RespondWith (Some cached); storage := cs; requested := [] |}
    | None =>
        match network (req_url ev) with
        | Some res =>
            {| handling := RespondWith (Some res);
               storage := if cacheable res then cache_put CACHE_NAME (req_url ev) res cs
                          else cs;
               requested := [req_url ev] |}
        | None =>
            {| handling := RespondWith (caches_match "/" cs);
               storage := cs;
               requested := [req_url ev] |}
        end
    end.

End ServiceWorker.

(** *** The install listener *)

Module Install.
Import ServiceWorker.

(** [caches.open(name)]: the cache of that name is created, empty and last,
    when there is none. *)
Definition caches_open (name : string) (cs : CacheStorage) : CacheStorage :=
  if existsb (String.eqb name) (caches_keys cs) then cs else (cs ++ [(name, ∅)])%list.

(** What [addAll] accepts: an ok status other than 206. *)
Definition ok (r : Reply) : bool :=
  (200 <=? status r) && (status r <=? 299) && negb (status r =? 206).

(** The fetches of [cache.addAll(urls)]: [None] as soon as one of them rejects
    or answers with a status that is not accepted, which makes [addAll] reject
    without storing anything. *)
Fixpoint fetch_all (network : string -> option Reply) (urls : list string)
  : option (list (string * Reply)) :=
  match urls with
  | [] => Some []
  | url :: rest =>
      match network url, fetch_all network rest with
      | Some r, Some fetched => if ok r then Some ((url, r) :: fetched) else None
      | _, _ => None
      end
  end.

Definition put_all (name : string) (entries : list (string * Reply)) (cs : CacheStorage)
  : CacheStorage :=
  fold_left (fun acc e => cache_put name (fst e) (snd e) acc) entries cs.

(** The 'install' listener: whether the promise given to [waitUntil] is
    fulfilled, and the cache storage it leaves. *)
Definition on_install (network : string -> option Reply) (cs : CacheStorage)
  : bool * CacheStorage :=
  let opened := caches_open CACHE_NAME cs in
  match fetch_all network ASSETS with
  | Some entries => (true, put_all CACHE_NAME entries opened)
  | None => (false, opened)
  end.

End Install.

(** ** The scanner wizard, one handler at a time *)

Module Wizard.
Import Scanner.

(** What the user and the pending analysis do to the page in a run in which
    every handler, with the continuations it awaits, has come to its end before
    the next event arrives.  Nothing in the script enforces this: the runs in
    which an event arrives while a handler is suspended are those of
    [Interleaving] below. *)
Inductive Event : Type :=
| ScanClick (o1 o2 o3 : DbOpen) (picked : option File)
| RetakeClick
| ConfirmClick (o : DbOpen)
| Settle (o : DbOpen) (e : Extraction).

(** A click on the scan button.  Once [processImages] has installed its
    [onclick], the click listener and that handler both run and the page
    reloads.  Otherwise the listener either resets the flow or, unless a file
    is being processed, opens the file picker, whose choice ([None] when the
    user cancels) reaches the change handler. *)
Definition scan_click (o1 o2 o3 : DbOpen) (picked : option File) (st : App) : App :=
  if scanReloads (ui st) then scanButton_onclick o2 o3 (scanButton_click o1 st)
  else if (2 <=? imageCounter st)%nat then scanButton_click o1 st
  else if isProcessingFile st then st
  else fileInput_change picked st.

Definition LoadingText_eqb (a b : LoadingText) : bool :=
  match a, b with
  | ProcessingImage, ProcessingImage | AnalysingData, AnalysingData => true
  | _, _ => false
  end.

(** An event can happen when its button is displayed; [processImages] settles
    only while it is running, which the analysing overlay shows. *)
Definition enabled (ev : Event) (st : App) : bool :=
  match ev with
  | ScanClick _ _ _ _ => scanShown (ui st)
  | RetakeClick | ConfirmClick _ => negb (reviewHidden (ui st))
  | Settle _ _ =>
      negb (loadingHidden (ui st)) && LoadingText_eqb (loadingText (ui st)) AnalysingData
  end.

Definition apply_event `{Host} (ev : Event) (st : App) : App :=
  match ev with
  | ScanClick o1 o2 o3 picked => scan_click o1 o2 o3 picked st
  | RetakeClick => retakeButton_click st
  | ConfirmClick o => confirmButton_click o st
  | Settle o e => processImages_settle o e st
  end.

(** The states of the sequential runs that start with a load on database
    [d0]. *)
Inductive Sequential `{Host} (d0 : IndexedDB) : App -> Prop :=
| seq_boot (o : DbOpen) : Sequential d0 (boot o d0)
| seq_step (ev : Event) (st : App) :
    Sequential d0 st -> enabled ev st = true -> Sequential d0 (apply_event ev st).

End Wizard.

(** ** The scanner wizard with its suspended handlers *)

Module Interleaving.
Import Scanner.

(** A handler suspended at an [await]. *)
Inductive Task : Type :=
| Loading                 (* DOMContentLoaded, at [await getKey()] *)
| Compressing (f : File)  (* the change handler, at [await compressImage(file)] *)
| Saving                  (* the confirm handler, at [await saveSession()] *)
| Analysing               (* [processImages], from [await getKey()] to the answer *)
| Resetting               (* the scan button's listener, at [await clearSession()] *)
| Reloading.              (* the installed [onclick], at [await clearSession()] *)

(** The page, the handlers that are suspended and whether the file picker is
    open. *)
Record Page : Type := { app : App; pending : list Task; picker : bool }.

Inductive Event : Type :=
| ScanClick
| Choose (picked : option File)
| RetakeClick
| ConfirmClick
| Resume (n : nat) (o : DbOpen) (e : Extraction).

(** Whether the awaited promise of the task can settle: [compressImage] never
    settles for a file that cannot be decoded. *)
Definition can_resume (t : Task) : bool :=
  match t with
  | Compressing f => match compressImage f with Some _ => true | None => false end
  | _ => true
  end.

(** A button can be clicked when it is displayed, a file chosen when the
    picker is open, a task resumed when it is pending and its promise can
    settle. *)
Definition enabled (ev : Event) (p : Page) : bool :=
  match ev with
  | ScanClick => scanShown (ui (app p))
  | Choose _ => picker p
  | RetakeClick | ConfirmClick => negb (reviewHidden (ui (app p)))
  | Resume n _ _ =>
      match nth_error (pending p) n with
      | Some t => can_resume t
      | None => false
      end
  end.

Fixpoint remove_nth (n : nat) (ts : list Task) : list Task :=
  match n, ts with
  | _, [] => []
  | O, _ :: rest => rest
  | S n', t :: rest => t :: remove_nth n' rest
  end.

(** The scan button: its click listener runs first, then the [onclick] that
    [processImages] may have installed.  Neither changes the page before its
    first [await]; the listener opens the picker when there is nothing to
    reset and no file is being processed. *)
Definition scan_click (p : Page) : Page :=
  let st := app p in
  let resets := (2 <=? imageCounter st)%nat in
  {| app := st;
     pending := (pending p
                 ++ (if resets then [Resetting] else [])
                 ++ (if scanReloads (ui st) then [Reloading] else []))%list;
     picker := if resets then picker p
               else if isProcessingFile st then picker p
               else true |}.

(** The change event of the file input. *)
Definition choose (picked : option File) (p : Page) : Page :=
  let st := app p in
  if isProcessingFile st then {| app := st; pending := pending p; picker := false |}
  else
    match picked with
    | None => {| app := st; pending := pending p; picker := false |}
    | Some f =>
        {| app := change_begin st; pending := (pending p ++ [Compressing f])%list;
           picker := false |}
    end.

Definition confirm_click (p : Page) : Page :=
  match currentDraft (app p) with
  | None => p
  | Some _ =>
      {| app := confirm_begin (app p); pending := (pending p ++ [Saving])%list;
         picker := picker p |}
  end.

(** The continuation of a task, on the page as it is when the task resumes.
    A reload discards the page with its suspended handlers. *)
Definition resume `{Host} (t : Task) (o : DbOpen) (e : Extraction) (rest : list Task)
    (p : Page) : Page :=
  let st := app p in
  match t with
  | Loading => {| app := DOMContentLoaded o st; pending := rest; picker := picker p |}
  | Compressing f =>
      match compressImage f with
      | Some dataUri =>
          {| app := change_resume dataUri st; pending := rest; picker := picker p |}
      | None => p
      end
  | Saving =>
      let st' := confirm_resume o st in
      {| app := st';
         pending := (rest ++ (if (2 <=? imageCounter st')%nat then [Analysing] else []))%list;
         picker := picker p |}
  | Analysing => {| app := processImages_settle o e st; pending := rest; picker := picker p |}
  | Resetting => {| app := reset_flow o st; pending := rest; picker := picker p |}
  | Reloading =>
      {| app := loaded (clearSession o (db st)); pending := [Loading]; picker := false |}
  end.

Definition fire `{Host} (ev : Event) (p : Page) : Page :=
  match ev with
  | ScanClick => scan_click p
  | Choose picked => choose picked p
  | RetakeClick =>
      {| app := retakeButton_click (app p); pending := pending p; picker := picker p |}
  | ConfirmClick => confirm_click p
  | Resume n o e =>
      match nth_error (pending p) n with
      | Some t => resume t o e (remove_nth n (pending p)) p
      | None => p
      end
  end.

(** The page as the browser has just loaded it: the script has run and the
    DOMContentLoaded handler waits for the key. *)
Definition start (d : IndexedDB) : Page :=
  {| app := loaded d; pending := [Loading]; picker := false |}.

(** Every state the page can be in after a load on database [d0], whatever
    the order in which clicks, choices and continuations arrive. *)
Inductive Reachable `{Host} (d0 : IndexedDB) : Page -> Prop :=
| reach_start : Reachable d0 (start d0)
| reach_step (ev : Event) (p : Page) :
    Reachable d0 p -> enabled ev p = true -> Reachable d0 (fire ev p).

End Interleaving.

(** ** Cleaning the model's reply *)

Module Reply.

Definition newline : ascii := ascii_of_nat 10.

Definition opening_fence : list ascii := list_ascii_of_string "```json".
Definition closing_fence : list ascii := list_ascii_of_string "```".

Fixpoint drop_prefix (p s : list ascii) : option (list ascii) :=
  match p, s with
  | [], _ => Some s
  | a :: p', b :: s' => if Ascii.eqb a b then drop_prefix p' s' else None
  | _ :: _, [] => None
  end.

Definition drop_suffix (p s : list ascii) : option (list ascii) :=
  option_map (@List.rev ascii) (drop_prefix (List.rev p) (List.rev s)).

(** [text.replace(/^```json\n?/, '')] *)
Definition strip_opening_fence (text : list ascii) : list ascii :=
  match drop_prefix opening_fence text with
  | Some rest =>
      match drop_prefix [newline] rest with
      | Some rest' => rest'
      | None => rest
      end
  | None => text
  end.

(** [text.replace(/\n?```$/, '')] *)
Definition strip_closing_fence (text : list ascii) : list ascii :=
  match drop_suffix closing_fence text with
  | Some front =>
      match drop_suffix [newline] front with
      | Some front' => front'
      | None => front
      end
  | None => text
  end.

(** The text handed to [JSON.parse] by [processImages]; [trim] is
    [String.prototype.trim]. *)
Definition clean_reply (trim : string -> string) (text : string) : string :=
  trim (string_of_list_ascii
          (strip_closing_fence (strip_opening_fence (list_ascii_of_string text)))).

(** A reply wrapped in a json code fence. *)
Definition fenced (body : string) : string :=
  "```json" +:+ String newline (body +:+ String newline "```").

End Reply.

(** ** The camera script as a transition system *)

Module CameraFlow.
Import Camera.

(** The panels as [showResult] leaves them. *)
Definition showResult_panels (p : Page) : Page :=
  {| step := step p; capturedImages := capturedImages p;
     currentStream := currentStream p; overlay := overlay p;
     startShown := false; scanShown := false; previewShown := false; resultShown := true;
     preview1 := preview1 p; preview2 := preview2 p |}.

(** [submitBtn] click, as far as the page goes: without an API key only the key
    dialog opens; with one, the handler ends in [showResult] whatever the
    extraction and the lookup give. *)
Definition submitBtn_click (hasKey : bool) (p : Page) : Page :=
  if hasKey then showResult_panels p else p.

Inductive Event : Type :=
| StartScan (granted : option Stream)
| Capture (frame : nat)
| Retake (granted : option Stream)
| Submit (hasKey : bool)
| NewScan.

(** A button can be clicked when the panel that holds it is shown; each
    handler is taken to run to its end before the next click. *)
Definition enabled (ev : Event) (p : Page) : bool :=
  match ev with
  | StartScan _ => startShown p
  | Capture _ => scanShown p
  | Retake _ | Submit _ => previewShown p
  | NewScan => resultShown p
  end.

Definition apply_event (ev : Event) (p : Page) : Page :=
  match ev with
  | StartScan granted => startScanBtn_click granted p
  | Capture frame => captureBtn_click frame p
  | Retake granted => retakeBtn_click granted p
  | Submit hasKey => submitBtn_click hasKey p
  | NewScan => newScanBtn_click p
  end.

Inductive Reachable : Page -> Prop :=
| reach_initial : Reachable initial
| reach_step (ev : Event) (p : Page) :
    Reachable p -> enabled ev p = true -> Reachable (apply_event ev p).

End CameraFlow.

(** ** The camera script: showing the lookup result *)

Module CameraResult.

Inductive Label : Type :=
| ActiveSubstance | DosageForm | Ndc | Route | Strength
| ActiveIngredients | Indications | DosageAndUse | Warnings.

(** The pieces of markup [showResult] joins. *)
Inductive Piece : Type :=
| Heading (text : string)
| Line (label : Label) (value : string)
| SourcesHeading
| SourceLinks (links : list (string * string))
| NoSource.

Inductive Content : Type :=
| Details (pieces : list Piece)
| NotFoundMessage.


Section WithHost.
Context `{Host}.

(** [if (d.k) pieces.push(...)] *)
Definition line_if (l : Label) (v : JSValue) : option (list Piece) :=
  if truthy v then
    text <- ToString v ;;
    Some [Line l text]
  else Some [].

Definition ingredients_line (v : JSValue) : option (list Piece) :=
  if truthy v then
    text <- match v with
            | JArr items => Array_join ", " items
            | _ => ToString v
            end ;;
    Some [Line ActiveIngredients text]
  else Some [].

(** The pieces pushed for the drug, in order; [None] when an interpolation
    throws. *)
Definition drug_pieces (d : JSValue) : option (list Piece) :=
  heading <- ToString (or_else (or_else (field d "brand_name") (field d "generic_name"))
                         (JStr "Thuốc")) ;;
  substance <- line_if ActiveSubstance (field d "generic_name") ;;
  form <- line_if DosageForm (field d "dosage_form") ;;
  ndc <- line_if Ndc (field d "ndc") ;;
  route <- line_if Route (field d "route") ;;
  strength <- line_if Strength (field d "strength") ;;
  ingredients <- ingredients_line (field d "active_ingredients") ;;
  indications <- line_if Indications (field d "indications") ;;
  dosage <- line_if DosageAndUse (field d "dosage") ;;
  warnings <- line_if Warnings (field d "warnings") ;;
  Some (Heading heading
        :: substance ++ form ++ ndc ++ route ++ strength ++ ingredients
        ++ indications ++ dosage ++ warnings)%list.

(** One item of the sources list: its [url] and [name], interpolated. *)
Definition source_link (s : JSValue) : option (string * string) :=
  u <- prop s "url" ;;
  n <- prop s "name" ;;
  url <- ToString u ;;
  name <- ToString n ;;
  Some (url, name).

Fixpoint source_links (items : list JSValue) : option (list (string * string)) :=
  match items with
  | [] => Some []
  | s :: rest =>
      l <- source_link s ;;
      ls <- source_links rest ;;
      Some (l :: ls)
  end.

(** The part after the sources heading; [None] is an exception (a length that
    cannot be compared, a value that cannot be iterated, an item that is null
    or cannot be printed).  A string is iterated code point by code point, and
    neither [url] nor [name] is defined on a string. *)
Definition sources_pieces (sources : JSValue) : option (list Piece) :=
  if truthy sources then
    many <- gt_num (field sources "length") 0 ;;
    if (many : bool) then
      match sources with
      | JArr items => ls <- source_links items ;; Some [SourceLinks ls]
      | JStr s =>
          Some [SourceLinks (repeat ("undefined", "undefined") (code_points s))]
      | _ => None
      end
    else Some [NoSource]
  else Some [NoSource].

(** [result.status === 'OK'] *)
Definition is_OK (status : JSValue) : bool :=
  match status with
  | JStr s => String.eqb s "OK"
  | _ => false
  end.

(** The content [showResult] puts on the page; [None] when it raises. *)
Definition showResult (result : JSValue) : option Content :=
  status <- prop result "status" ;;
  if is_OK status && truthy (field result "drug") then
    pieces <- drug_pieces (field result "drug") ;;
    sp <- sources_pieces (field result "sources") ;;
    Some (Details (pieces ++ SourcesHeading :: sp)%list)
  else Some NotFoundMessage.

(** What the submit handler leaves on the page for a reply body: an exception
    in [showResult] is caught and the not-found result shown instead. *)
Definition shown (result : JSValue) : Content :=
  match showResult result with
  | Some c => c
  | None => NotFoundMessage
  end.

End WithHost.

End CameraResult.

(** ** A host instance for closed examples *)

(** [JSON.parse] restricted to the three texts used below; every other text
    is treated as malformed. *)
Definition literal_parse (s : string) : option JSValue :=
  if String.eqb s "{}" then Some (JObj [])
  else if String.eqb s "null" then Some JNull
  else if String.eqb s "[]" then Some (JArr [])
  else None.

(** The decimal digits of a natural number. *)
Definition decimal (n : N) : string := NilZero.string_of_uint (N.to_uint n).

(** Number printing and reading restricted to the integers, which is all the
    examples need: an integer is printed in decimal, and a text holds a number
    when it consists of digits only (the empty text reads as 0). *)
Definition literal_print (q : Q) : string :=
  if (Qden q =? 1)%positive then
    if (0 <=? Qnum q)%Z then decimal (Z.to_N (Qnum q))
    else "-" +:+ decimal (Z.to_N (- Qnum q))
  else "NaN".

Definition literal_read (s : string) : Number :=
  if String.eqb s "" then Finite 0
  else if String.eqb (digits_only s) s then
    match NilZero.uint_of_string s with
    | Some u => Finite (inject_Z (Z.of_N (N.of_uint u)))
    | None => NaN
    end
  else NaN.

#[export] Instance literal_host : Host :=
  {| JSON_parse := literal_parse;
     Number_toString := literal_print;
     StringToNumber := literal_read;
     JSON_parse_empty_object := eq_refl;
     JSON_parse_null := eq_refl |}.

(** ** Vocabulary of the statements *)

(** A parsed body the handler can take apart: not null, and with a [barcode]
    that is absent, falsy or a string. *)
Definition well_shaped (data : JSValue) : bool :=
  match prop data "barcode" with
  | None => false
  | Some b => match or_else b (JStr "") with JStr _ => true | _ => false end
  end.

(** Whether a computation throws. *)
Definition throws {A : Type} (x : option A) : bool :=
  match x with
  | Some _ => false
  | None => true
  end.

(** The identity and the barcode the handler takes from a well-shaped body. *)
Definition identity_of (data : JSValue) : JSValue := or_else (field data "identity") (JObj []).

Definition barcode_of (data : JSValue) : string :=
  match or_else (field data "barcode") (JStr "") with
  | JStr barcode => barcode
  | _ => ""
  end.

(** The decimal digits among the characters of a text, in order. *)
Definition decimal_digits (text : string) : string :=
  string_of_list_ascii
    (List.filter (fun c => existsb (Ascii.eqb c) (list_ascii_of_string "0123456789"))
       (list_ascii_of_string text)).

(** An object whose own [toString] member hides the inherited method: it
    cannot be converted to text. *)
Definition unprintable : JSValue := JObj [("toString", JNum 0)].

Definition post (text : string) : Api.Request := {| Api.method := "POST"; Api.body := text |}.

Definition unreachable_remote (url : string) : Api.FetchOutcome := Api.FetchRejected.

(** Retaking and capturing again, once per file of [files], from a state
    under review. *)
Fixpoint retake_and_recapture (files : list Scanner.File) (st : Scanner.App) : Scanner.App :=
  match files with
  | [] => st
  | f :: rest =>
      retake_and_recapture rest
        (Scanner.fileInput_change (Some f) (Scanner.retakeButton_click st))
  end.

Definition decodable (f : Scanner.File) : Prop := Scanner.decoded f <> None.

(** The long and the short edge of a picture. *)
Definition long_edge (w h : Z) : Z := Z.max w h.
Definition short_edge (w h : Z) : Z := Z.min w h.

(** States and inputs of the closed examples. *)
Definition empty_db : Scanner.IndexedDB :=
  {| Scanner.settings := ∅; Scanner.session := ∅ |}.

Definition keyed_db : Scanner.IndexedDB := Scanner.saveKey "secret" empty_db.

Definition photo (w h : Z) (n : nat) : Scanner.File :=
  {| Scanner.decoded := Some {| img_width := w; img_height := h; img_content := n |} |}.

Definition reviewing_first : Scanner.App :=
  Scanner.fileInput_change (Some (photo 1920 1080 1)) (Scanner.boot Scanner.Opened keyed_db).

Definition reviewing_second : Scanner.App :=
  Scanner.fileInput_change (Some (photo 1920 1080 2))
    (Scanner.confirmButton_click Scanner.Opened reviewing_first).

Definition finalizing : Scanner.App :=
  Scanner.confirmButton_click Scanner.Opened reviewing_second.

Definition full_hd : Camera.Stream :=
  {| Camera.videoWidth := 1920; Camera.videoHeight := 1080; Camera.running := true |}.

Definition previewing : Camera.Page :=
  Camera.captureBtn_click 2
    (Camera.captureBtn_click 1 (Camera.startScanBtn_click (Some full_hd) Camera.initial)).

Definition confident_record : JSValue :=
  JObj [ ("identity", JObj [("name", JStr "Panadol"); ("confidence", JNum (Qmake 9 10))]);
         ("details", JObj [("usage", JStr "pain relief"); ("dosage", JArr [JStr "adults: 1"])]);
         ("warnings", JArr [JStr "liver"]);
         ("search_fallback", JObj [("query", JStr "Panadol")]) ].


Definition first_shot : DataURL :=
  toDataURL "image/jpeg" (Qmake 8 10) 1024 576
    {| img_width := 1920; img_height := 1080; img_content := 1 |}.

Definition second_shot : DataURL :=
  toDataURL "image/jpeg" (Qmake 8 10) 1024 576
    {| img_width := 1920; img_height := 1080; img_content := 2 |}.

Definition failed_run : Scanner.App :=
  Scanner.processImages_settle Scanner.Opened (Scanner.ExtractionFailed "timeout") finalizing.

(** Every character of [s] satisfies [p]. *)
Fixpoint all_chars (p : ascii -> bool) (s : string) : bool :=
  match s with
  | EmptyString => true
  | String c rest => p c && all_chars p rest
  end.

(** The provenance entry of an OK reply. *)
Definition openfda_source (url : string) : JSValue :=
  JObj [("name", JStr "openFDA"); ("url", JStr url)].

(** The run that fetched [urls], logged [log] and answered 200 Not_Found. *)
Definition not_found_run (urls log : list string) : Api.Run :=
  {| Api.outcome := Api.Sent (Api.json_response 200 Api.not_found_body);
     Api.calls := urls; Api.console := log |}.

Definition openfda_base : string := "https://api.fda.gov/drug/".

(** Remote answers of the closed examples. *)
Definition acme_result : JSValue :=
  JObj [("openfda", JObj [("brand_name", JArr [JStr "Acme"])])].

Definition two_results (url : string) : Api.FetchOutcome :=
  Api.FetchResolved 200
    (Some (JObj [("results", JArr [acme_result; JObj [("openfda", JObj [])]])])).

Definition empty_answer (url : string) : Api.FetchOutcome :=
  Api.FetchResolved 200 (Some (JObj [])).

Definition html_page (url : string) : Transport.HttpsGet :=
  Transport.HttpsEnded 200 "<html>".

Definition ndc_identity : JSValue := JObj [("ndc", JStr "12345-678-90")].

(** [processImages] is running: the analysing overlay is up. *)
Definition analysing (st : Scanner.App) : bool :=
  negb (Scanner.loadingHidden (Scanner.ui st))
  && Wizard.LoadingText_eqb (Scanner.loadingText (Scanner.ui st)) Scanner.AnalysingData.

(** The progress kept in memory is coherent. *)
Definition coherent_progress (st : Scanner.App) : Prop :=
  List.length (Scanner.capturedImages st) = Scanner.imageCounter st
  /\ (Scanner.imageCounter st <= 2)%nat
  /\ (Scanner.currentDraft st <> None -> (Scanner.imageCounter st < 2)%nat)
  /\ (analysing st = true -> Scanner.imageCounter st = 2%nat).

(** A saved session record is coherent. *)
Definition coherent_record (r : Scanner.SessionData) : Prop :=
  Scanner.saved_imageCounter r = List.length (Scanner.saved_capturedImages r)
  /\ (1 <= Scanner.saved_imageCounter r <= 2)%nat.

(** What the wizard may have done to the database [d0] it started from. *)
Definition wizard_footprint (d0 d : Scanner.IndexedDB) : Prop :=
  Scanner.settings d = Scanner.settings d0
  /\ (forall k, k <> Scanner.SESSION_ID -> Scanner.session d !! k = Scanner.session d0 !! k)
  /\ (Scanner.session d0 !! Scanner.SESSION_ID = None ->
      forall r, Scanner.session d !! Scanner.SESSION_ID = Some r -> coherent_record r).

(** What every run leaves of the database [d0] the page was loaded on. *)
Definition database_kept (d0 d : Scanner.IndexedDB) : Prop :=
  Scanner.settings d = Scanner.settings d0
  /\ (forall k, k <> Scanner.SESSION_ID -> Scanner.session d !! k = Scanner.session d0 !! k).

(** A run of the page: its events in order, and whether each of them can
    happen where it stands. *)
Definition play `{Host} (events : list Interleaving.Event) (p : Interleaving.Page)
  : Interleaving.Page :=
  fold_left (fun q ev => Interleaving.fire ev q) events p.

Fixpoint playable `{Host} (events : list Interleaving.Event) (p : Interleaving.Page) : bool :=
  match events with
  | [] => true
  | ev :: rest => Interleaving.enabled ev p && playable rest (Interleaving.fire ev p)
  end.

(** More states of the closed examples. *)
Definition unreadable_file : Scanner.File := {| Scanner.decoded := None |}.

(** The page is loaded, a photo is picked and compressed, and the confirm
    button is clicked three times before any of the three handlers has come
    back from saving the session. *)
Definition hasty_confirms : list Interleaving.Event :=
  [ Interleaving.Resume 0 Scanner.Opened (Scanner.ExtractionFailed "");
    Interleaving.ScanClick;
    Interleaving.Choose (Some (photo 1920 1080 1));
    Interleaving.Resume 0 Scanner.Opened (Scanner.ExtractionFailed "");
    Interleaving.ConfirmClick;
    Interleaving.ConfirmClick;
    Interleaving.ConfirmClick ].

Definition finalizing_without_key : Scanner.App :=
  Scanner.confirmButton_click Scanner.Opened
    (Scanner.fileInput_change (Some (photo 640 480 2))
       (Scanner.confirmButton_click Scanner.Opened
          (Scanner.fileInput_change (Some (photo 640 480 1))
             (Scanner.boot Scanner.Opened empty_db)))).

Definition text_warnings_record : JSValue :=
  JObj [ ("identity", JObj [("name", JStr "Panadol"); ("confidence", JNum (Qmake 9 10))]);
         ("details", JObj [("usage", JStr "pain relief")]);
         ("warnings", JStr "liver") ].

Definition image (w h : Z) : Image := {| img_width := w; img_height := h; img_content := 0 |}.

Definition file_of (img : Image) : Scanner.File := {| Scanner.decoded := Some img |}.

(** Service worker examples. *)
Definition get (url : string) : ServiceWorker.FetchEvent :=
  {| ServiceWorker.req_method := "GET"; ServiceWorker.req_url := url |}.

Definition offline (url : string) : option ServiceWorker.Reply := None.

Definition page (n : nat) : ServiceWorker.Reply :=
  {| ServiceWorker.status := 200; ServiceWorker.type := "basic";
     ServiceWorker.payload_id := n |}.

Definition origin_server (url : string) : option ServiceWorker.Reply :=
  Some (page (String.length url)).

Definition old_caches : ServiceWorker.CacheStorage :=
  [("drug-pwa-cache-v1", {["/" := page 1]}); (ServiceWorker.CACHE_NAME, {["/" := page 2]})].

(** The camera script's progress and panels are coherent. *)
Definition camera_coherent (p : Camera.Page) : Prop :=
  List.length (Camera.capturedImages p) = Camera.step p
  /\ (Camera.step p <= 2)%nat
  /\ (Camera.scanShown p = true ->
      (Camera.step p < 2)%nat /\ Camera.previewShown p = false
      /\ Camera.resultShown p = false)
  /\ (Camera.previewShown p = true ->
      Camera.step p = 2%nat /\ Camera.resultShown p = false
      /\ Camera.preview1 p = nth_error (Camera.capturedImages p) 0
      /\ Camera.preview2 p = nth_error (Camera.capturedImages p) 1).

(** The data URL of a frame captured from stream [s]. *)
Definition shot (s : Camera.Stream) (frame : nat) : DataURL :=
  toDataURL "image/jpeg" (Qmake 8 10) (Camera.videoWidth s) (Camera.videoHeight s)
    {| img_width := Camera.videoWidth s; img_height := Camera.videoHeight s;
       img_content := frame |}.

(** Clicking the capture button once per frame of [frames]. *)
Definition captures (frames : list nat) (p : Camera.Page) : Camera.Page :=
  fold_left (fun q frame => Camera.captureBtn_click frame q) frames p.

(** * Properties *)

(** ** The lookup handler *)

Module ApiFacts.
Import Api Server.

Lemma product_code_query_not_label (code search : string) :
  product_code_query code <> label_query search.
Proof.
  unfold product_code_query, label_query, ndc_endpoint, label_endpoint.
  cbn [String.append]. intros E. discriminate E.
Qed.

(** *** Digits *)

Lemma is_digit_decimal (c : ascii) :
  is_digit c = existsb (Ascii.eqb c) (list_ascii_of_string "0123456789").
Proof. destruct c as [[] [] [] [] [] [] [] []]; reflexivity. Qed.

Lemma digits_only_decimal (s : string) : digits_only s = decimal_digits s.
Proof.
  unfold decimal_digits. induction s as [|c s IH]; [reflexivity|].
  cbn [digits_only list_ascii_of_string List.filter]. rewrite <- is_digit_decimal.
  destruct (is_digit c); cbn [string_of_list_ascii]; now rewrite IH.
Qed.

Lemma digit_is_unreserved (c : ascii) : is_digit c = true -> is_unreserved c = true.
Proof.
  unfold is_digit, is_unreserved. intros D. cbn zeta in *. rewrite D. cbn [orb].
  now rewrite orb_true_r.
Qed.

Lemma digits_only_all_digits (s : string) : all_chars is_digit (digits_only s) = true.
Proof.
  induction s as [|c s IH]; [reflexivity|]. cbn [digits_only].
  destruct (is_digit c) eqn:D; [|exact IH]. cbn [all_chars]. now rewrite D.
Qed.

Lemma all_chars_weaken (p q : ascii -> bool) (s : string) :
  (forall c, p c = true -> q c = true) -> all_chars p s = true -> all_chars q s = true.
Proof.
  intros W. induction s as [|c s IH]; [reflexivity|]. cbn [all_chars].
  intros [P A]%andb_prop. now rewrite (W c P), (IH A).
Qed.

Lemma unreserved_is_ascii (c : ascii) :
  is_unreserved c = true ->
  units_of_lead c = 1%nat /\ followers c = 0%nat /\ (nat_of_ascii c =? 237)%nat = false.
Proof.
  destruct c as [[] [] [] [] [] [] [] []]; intros U; try discriminate U; now repeat split.
Qed.

(** On unreserved characters the length in code units is the number of
    bytes, and encoding changes nothing. *)
Lemma plain_length (s : string) :
  all_chars is_unreserved s = true -> utf16_length s = String.length s.
Proof.
  unfold utf16_length.
  induction s as [|c s IH]; [reflexivity|]. cbn [all_chars count_code_points String.length].
  intros [U A]%andb_prop. destruct (unreserved_is_ascii c U) as (-> & -> & _).
  now rewrite (IH A).
Qed.

Lemma plain_no_surrogate (s : string) :
  all_chars is_unreserved s = true -> lone_surrogate s = false.
Proof.
  induction s as [|c s IH]; [reflexivity|]. cbn [all_chars].
  intros [U A]%andb_prop. cbn [lone_surrogate]. destruct s as [|b s]; [reflexivity|].
  destruct (unreserved_is_ascii c U) as (_ & _ & ->). cbn [andb orb]. exact (IH A).
Qed.

Lemma percent_encode_plain (s : string) :
  all_chars is_unreserved s = true -> percent_encode s = s.
Proof.
  induction s as [|c s IH]; [reflexivity|]. cbn [all_chars percent_encode].
  intros [U A]%andb_prop. rewrite U, (IH A). reflexivity.
Qed.

Lemma Encode_plain (s : string) : all_chars is_unreserved s = true -> Encode s = Some s.
Proof.
  intros A. unfold Encode. now rewrite plain_no_surrogate, percent_encode_plain.
Qed.

Lemma digits_plain (s : string) : all_chars is_unreserved (digits_only s) = true.
Proof.
  apply (all_chars_weaken is_digit); [exact digit_is_unreserved|].
  apply digits_only_all_digits.
Qed.

Lemma length_pos_truthy (s : string) :
  (0 < String.length s)%nat -> truthy (JStr s) = true.
Proof. destruct s; cbn; [lia | reflexivity]. Qed.

(** The test on the scanned code, in terms of the decimal digits of the
    barcode. *)
Lemma scanned_code_ok_count (barcode : string) :
  let count := String.length (decimal_digits barcode) in
  scanned_code_ok (digits_only barcode)
  = ((count =? 10) || (count =? 11) || (count =? 12))%nat.
Proof.
  cbn zeta. unfold scanned_code_ok. rewrite (plain_length _ (digits_plain barcode)).
  rewrite <- digits_only_decimal.
  destruct (truthy (JStr (digits_only barcode))) eqn:T; [reflexivity|].
  destruct (digits_only barcode); [reflexivity | discriminate T].
Qed.

Lemma join_concat (sep : string) (parts : list string) :
  join sep parts = String.concat sep parts.
Proof.
  induction parts as [|p parts IH]; [reflexivity|].
  destruct parts as [|p' parts]; [reflexivity|].
  change (join sep (p :: p' :: parts)) with (p +:+ sep +:+ join sep (p' :: parts)).
  now rewrite IH.
Qed.

Section WithHost.
Context `{Host}.

Lemma encode_digits (barcode : string) :
  encodeURIComponent (JStr (digits_only barcode)) = Some (digits_only barcode).
Proof. cbn [encodeURIComponent ToString]. apply Encode_plain, digits_plain. Qed.

Lemma lookup_none (doFetch : string -> FetchOutcome) :
  lookup doFetch None = nothing_found [] [].
Proof. reflexivity. Qed.

Lemma respond_nothing (urls log : list string) :
  respond (nothing_found urls log)
  = {| outcome := Sent (json_response 200 not_found_body); calls := urls; console := log |}.
Proof. reflexivity. Qed.

Lemma lookup_calls_at_most_once (doFetch : string -> FetchOutcome) (url : string) :
  fetched (lookup doFetch (Some url)) = [url] \/ url = "".
Proof.
  unfold lookup. destruct url as [|c url]; [now right | left]. cbn [truthy String.eqb negb].
  destruct (doFetch _) as [|status [j|]]; try reflexivity;
    destruct (status =? 200); cbn [negb]; try reflexivity.
  destruct (prop j "results") as [r|]; [|reflexivity].
  destruct (truthy (or_else r (JArr []))); [|reflexivity].
  destruct (gt_num _ 0) as [[|]|]; reflexivity.
Qed.

Lemma product_code_query_nonempty (code : string) : product_code_query code <> "".
Proof. unfold product_code_query, ndc_endpoint. cbn [String.append]. discriminate. Qed.

Lemma label_query_nonempty (search : string) : label_query search <> "".
Proof. unfold label_query, label_endpoint. cbn [String.append]. discriminate. Qed.

(** The three ways in which [queryUrl] yields a URL. *)
Lemma queryUrl_some (identity : JSValue) (barcode url : string) :
  queryUrl identity barcode = Some (Some url) ->
  (exists encoded, url = product_code_query encoded)
  \/ (exists search, url = label_query search).
Proof.
  unfold queryUrl.
  destruct (truthy (or_else (field identity "ndc") (field identity "product_ndc"))).
  { destruct (encodeURIComponent _) as [e|]; [|discriminate]. intros [= <-]. left. eauto. }
  destruct (scanned_code_ok _).
  { destruct (encodeURIComponent _) as [e|]; [|discriminate]. intros [= <-]. left. eauto. }
  destruct (truthy (or_else (field identity "brand_name") _)); [|discriminate].
  destruct (label_parts identity) as [parts|]; [|discriminate]. intros [= <-]. right. eauto.
Qed.

Lemma queryUrl_nonempty (identity : JSValue) (barcode url : string) :
  queryUrl identity barcode = Some (Some url) -> url <> "".
Proof.
  intros Q. destruct (queryUrl_some _ _ _ Q) as [(e & ->) | (s & ->)];
    auto using product_code_query_nonempty, label_query_nonempty.
Qed.

(** A run that has built the URL [url] requests it, once. *)
Lemma identify_calls (doFetch : string -> FetchOutcome) (identity : JSValue)
    (barcode url : string) :
  queryUrl identity barcode = Some (Some url) ->
  calls (identify doFetch identity barcode) = [url].
Proof.
  intros Q. unfold identify. rewrite Q. unfold respond. cbn [calls].
  destruct (lookup_calls_at_most_once doFetch url) as [E | E]; [exact E|].
  now apply queryUrl_nonempty in Q.
Qed.

Lemma identify_raised (doFetch : string -> FetchOutcome) (identity : JSValue)
    (barcode : string) :
  queryUrl identity barcode = None -> identify doFetch identity barcode = quiet Raised.
Proof. intros Q. unfold identify. now rewrite Q. Qed.

(** The clauses pushed for the fields of [keys], when each present field
    prints as [text] says. *)
Lemma pushed_clause_text (identity : JSValue) (text : string -> string) (k : string) :
  (truthy (field identity k) = true -> ToString (field identity k) = Some (text k)) ->
  pushed_clause identity k
  = Some (map (fun k => "openfda." +:+ k +:+ ".exact:" +:+ dquote +:+ text k +:+ dquote)
            (List.filter (fun k => truthy (field identity k)) [k])).
Proof.
  intros P. unfold pushed_clause. cbn [List.filter].
  destruct (truthy (field identity k)); [|reflexivity]. now rewrite (P eq_refl).
Qed.

Lemma pushed_clause_throws (identity : JSValue) (k : string) :
  truthy (field identity k) = true -> ToString (field identity k) = None ->
  pushed_clause identity k = None.
Proof. intros T P. unfold pushed_clause. now rewrite T, P. Qed.

Lemma pushed_clause_total (identity : JSValue) (k : string) :
  pushed_clause identity k = None ->
  truthy (field identity k) = true /\ ToString (field identity k) = None.
Proof.
  unfold pushed_clause. destruct (truthy (field identity k)); [|discriminate].
  destruct (ToString _); [discriminate | now split].
Qed.

(** On every host the body null parses and makes the handler raise. *)
Lemma null_body_raises (doFetch : string -> FetchOutcome) :
  handler doFetch (post "null") = quiet Raised
  /\ identify_route doFetch (post "null") = internal_error.
Proof.
  unfold identify_route, handler, parsed_text, post. cbn [method body String.eqb negb].
  rewrite JSON_parse_null. now cbn.
Qed.

(** C3, as the code has it.  The first matching rule decides the one query
    that is issued.  A product code in the identity gives the product-code
    query on its encoded text, whatever names are present; otherwise 10, 11 or
    12 decimal digits in the barcode give the product-code query on those
    digits; otherwise a brand or generic name gives the label query whose
    clauses, one for each of brand name, generic name and dosage form that is
    present, are joined with +AND+; otherwise nothing is requested and the reply
    is 200 Not_Found.  When the text the chosen rule needs cannot be produced
    (the code cannot be converted or encoded, a present name cannot be
    converted) the handler raises and nothing is requested. *)
Theorem lookup_precedence (doFetch : string -> FetchOutcome) (identity : JSValue)
    (barcode : string) :
  let code := or_else (field identity "ndc") (field identity "product_ndc") in
  let digits := decimal_digits barcode in
  let count := String.length digits in
  let scanned := ((count =? 10) || (count =? 11) || (count =? 12))%nat in
  let names := or_else (field identity "brand_name") (field identity "generic_name") in
  let present :=
    List.filter (fun k => truthy (field identity k))
      ["brand_name"; "generic_name"; "dosage_form"] in
  let run := identify doFetch identity barcode in
  (truthy code = true ->
   match encodeURIComponent code with
   | Some encoded =>
       calls run
       = ["https://api.fda.gov/drug/ndc.json?search=product_ndc:" +:+ encoded +:+ "&limit=1"]
   | None => run = quiet Raised
   end)
  /\ (truthy code = false -> scanned = true ->
      calls run
      = ["https://api.fda.gov/drug/ndc.json?search=product_ndc:" +:+ digits +:+ "&limit=1"])
  /\ (truthy code = false -> scanned = false -> truthy names = true ->
      (forall text : string -> string,
          (forall k, In k present -> ToString (field identity k) = Some (text k)) ->
          calls run
          = ["https://api.fda.gov/drug/label.json?search="
             +:+ String.concat "+AND+"
                   (map (fun k => "openfda." +:+ k +:+ ".exact:" +:+ dquote +:+ text k
                                  +:+ dquote) present)
             +:+ "&limit=1"])
      /\ ((exists k, In k present /\ ToString (field identity k) = None) ->
          run = quiet Raised))
  /\ (truthy code = false -> scanned = false -> truthy names = false ->
      run = {| outcome := Sent (json_response 200 not_found_body);
               calls := []; console := [] |}).
Proof.
  intros code digits count scanned names present run.
  pose proof (scanned_code_ok_count barcode) as S. cbn zeta in S.
  fold digits count scanned in S.
  split; [|split; [|split]].
  - intros C. destruct (encodeURIComponent code) as [encoded|] eqn:E.
    + apply identify_calls. unfold queryUrl. fold code. now rewrite C, E.
    + apply identify_raised. unfold queryUrl. fold code. now rewrite C, E.
  - intros C Sc. apply identify_calls. unfold queryUrl. fold code.
    rewrite C, S, Sc, encode_digits, digits_only_decimal. reflexivity.
  - intros C Sc N.
    assert (Q : queryUrl identity barcode
                = match label_parts identity with
                  | Some parts => Some (Some (label_query (join "+AND+" parts)))
                  | None => None
                  end).
    { unfold queryUrl. fold code names. now rewrite C, S, Sc, N. }
    split.
    + intros text P.
      assert (L : label_parts identity
                  = Some (map (fun k => "openfda." +:+ k +:+ ".exact:" +:+ dquote +:+ text k
                                        +:+ dquote) present)).
      { unfold label_parts.
        rewrite (pushed_clause_text identity text "brand_name"),
                (pushed_clause_text identity text "generic_name"),
                (pushed_clause_text identity text "dosage_form").
        - subst present. cbn [List.filter].
          destruct (truthy (field identity "brand_name")),
                   (truthy (field identity "generic_name")),
                   (truthy (field identity "dosage_form")); reflexivity.
        - intros T. apply P. subst present. apply filter_In. split; [|exact T].
          cbn. tauto.
        - intros T. apply P. subst present. apply filter_In. split; [|exact T].
          cbn. tauto.
        - intros T. apply P. subst present. apply filter_In. split; [|exact T].
          cbn. tauto. }
      apply identify_calls. rewrite Q, L, join_concat. reflexivity.
    + intros (k & K & P). apply identify_raised. rewrite Q.
      subst present. apply filter_In in K as [K T].
      unfold label_parts.
      destruct (pushed_clause identity "brand_name") as [a|] eqn:A; [|reflexivity].
      destruct (pushed_clause identity "generic_name") as [b|] eqn:B; [|reflexivity].
      destruct (pushed_clause identity "dosage_form") as [c|] eqn:D; [|reflexivity].
      exfalso. cbn in K. destruct K as [<- | [<- | [<- | []]]].
      * rewrite (pushed_clause_throws _ _ T P) in A. discriminate A.
      * rewrite (pushed_clause_throws _ _ T P) in B. discriminate B.
      * rewrite (pushed_clause_throws _ _ T P) in D. discriminate D.
  - intros C Sc N. subst run. unfold identify, queryUrl. fold code names.
    now rewrite C, S, Sc, N.
Qed.

(** C7. With no product code in the identity, the barcode leads to the
    product-code query, which is the query on its decimal digits, exactly when
    the decimal digits left after removing every other character number 10, 11
    or 12; with any other count, 13 and 14 included, no request goes to the
    product-code endpoint. *)
Theorem barcode_query_iff (doFetch : string -> FetchOutcome) (identity : JSValue)
    (barcode : string) :
  truthy (or_else (field identity "ndc") (field identity "product_ndc")) = false ->
  let digits := decimal_digits barcode in
  let count := String.length digits in
  let run := identify doFetch identity barcode in
  ((exists url, In url (calls run)
                /\ String.prefix "https://api.fda.gov/drug/ndc.json" url = true)
   <-> (count = 10 \/ count = 11 \/ count = 12)%nat)
  /\ ((count = 10 \/ count = 11 \/ count = 12)%nat ->
      queryUrl identity barcode
      = Some (Some ("https://api.fda.gov/drug/ndc.json?search=product_ndc:" +:+ digits
                    +:+ "&limit=1"))
      /\ calls run
         = ["https://api.fda.gov/drug/ndc.json?search=product_ndc:" +:+ digits
            +:+ "&limit=1"]).
Proof.
  intros C digits count run.
  pose proof (scanned_code_ok_count barcode) as S. cbn zeta in S. fold digits count in S.
  assert (Ok : (count = 10 \/ count = 11 \/ count = 12)%nat ->
               queryUrl identity barcode
               = Some (Some ("https://api.fda.gov/drug/ndc.json?search=product_ndc:"
                             +:+ digits +:+ "&limit=1"))).
  { intros L. unfold queryUrl. rewrite C, S, encode_digits, digits_only_decimal.
    fold digits. destruct L as [-> | [-> | ->]]; reflexivity. }
  split.
  - split.
    + intros (url & I & P).
      destruct ((count =? 10) || (count =? 11) || (count =? 12))%nat eqn:Sc.
      { repeat (apply orb_prop in Sc as [Sc | Sc]); apply Nat.eqb_eq in Sc; lia. }
      exfalso. subst run. revert I. unfold identify, queryUrl. rewrite C, S.
      destruct (truthy (or_else (field identity "brand_name") _)); [|intros []].
      destruct (label_parts identity) as [parts|]; [|intros []].
      unfold respond. cbn [calls].
      destruct (lookup_calls_at_most_once doFetch (label_query (join "+AND+" parts)))
        as [-> | E]; [|now apply label_query_nonempty in E].
      intros [<- | []]. unfold label_query, label_endpoint in P.
      cbn [String.append] in P. discriminate P.
    + intros L. exists ("https://api.fda.gov/drug/ndc.json?search=product_ndc:" +:+ digits
                        +:+ "&limit=1").
      split; [|reflexivity]. subst run. rewrite (identify_calls _ _ _ _ (Ok L)). now left.
  - intros L. split; [exact (Ok L)|]. apply identify_calls, Ok, L.
Qed.

(** C6. For the query that was chosen, a rejected fetch, a response whose
    status is not 200 and a 200 response with an empty results array all end in
    the 200 Not_Found reply: the handler's promise does not reject, and a
    rejected fetch is logged. *)
Theorem lookup_failures_not_found (doFetch : string -> FetchOutcome) (identity : JSValue)
    (barcode url : string) :
  queryUrl identity barcode = Some (Some url) ->
  (doFetch url = FetchRejected
   \/ (exists status json, doFetch url = FetchResolved status json /\ status <> 200)
   \/ (exists j, doFetch url = FetchResolved 200 (Some j)
                 /\ prop j "results" = Some (JArr []))) ->
  let run := identify doFetch identity barcode in
  outcome run = Sent (json_response 200 not_found_body)
  /\ calls run = [url]
  /\ (doFetch url = FetchRejected -> console run = [fetch_error]).
Proof.
  intros Q F run. subst run. unfold identify. rewrite Q.
  assert (N : negb (truthy (JStr url)) = false).
  { apply queryUrl_nonempty in Q. destruct url; [congruence | reflexivity]. }
  unfold lookup. rewrite N.
  destruct F as [F | [(status & json & F & S) | (j & F & R)]]; rewrite F.
  - now repeat split.
  - apply Z.eqb_neq in S. rewrite S. cbn [negb].
    repeat split. intros [=].
  - cbn [Z.eqb Pos.eqb negb]. rewrite R. cbn. repeat split. intros [=].
Qed.

(** Closes a goal about a reply whose status is not 200. *)
Ltac other_status := cbn; split; [reflexivity | discriminate].

(** The query construction throws exactly when the text its rule needs
    cannot be produced. *)
Lemma queryUrl_throws (identity : JSValue) (barcode : string) :
  let code := or_else (field identity "ndc") (field identity "product_ndc") in
  let count := String.length (decimal_digits barcode) in
  let names := or_else (field identity "brand_name") (field identity "generic_name") in
  throws (queryUrl identity barcode)
  = if truthy code then throws (encodeURIComponent code)
    else if ((count =? 10) || (count =? 11) || (count =? 12))%nat then false
    else if truthy names then
      existsb (fun k => truthy (field identity k) && throws (ToString (field identity k)))
        ["brand_name"; "generic_name"; "dosage_form"]
    else false.
Proof.
  cbn zeta. pose proof (scanned_code_ok_count barcode) as S. cbn zeta in S.
  unfold queryUrl. rewrite S.
  destruct (truthy (or_else (field identity "ndc") _)).
  { now destruct (encodeURIComponent _). }
  destruct (_ || _ || _)%nat.
  { now rewrite encode_digits. }
  destruct (truthy (or_else (field identity "brand_name") _)); [|reflexivity].
  unfold label_parts, pushed_clause. cbn [existsb].
  destruct (truthy (field identity "brand_name"));
    [destruct (ToString (field identity "brand_name")); [|reflexivity]|];
    (destruct (truthy (field identity "generic_name"));
     [destruct (ToString (field identity "generic_name")); [|reflexivity]|]);
    (destruct (truthy (field identity "dosage_form"));
     [destruct (ToString (field identity "dosage_form")); reflexivity|]);
    reflexivity.
Qed.

(** C5, as the code has it.  The status of the reply is 405 for a method
    other than POST and 400 for a POST whose body is not parseable.  A POST
    whose parsed body is not null and has a barcode that is absent, falsy or a
    string is answered 200, unless the text its query needs cannot be produced:
    a product code that cannot be converted or encoded or, on the label rule, a
    present name that cannot be converted.  Then, as for the remaining POSTs,
    the handler raises and the server's catch-all answers 500.  A 200 reply is
    either Not_Found or OK with the drug and its sources. *)
Theorem route_status (doFetch : string -> FetchOutcome) (req : Request) :
  let r := identify_route doFetch req in
  let fails (identity : JSValue) (barcode : string) :=
    let code := or_else (field identity "ndc") (field identity "product_ndc") in
    let count := String.length (decimal_digits barcode) in
    let names := or_else (field identity "brand_name") (field identity "generic_name") in
    if truthy code then throws (encodeURIComponent code)
    else if ((count =? 10) || (count =? 11) || (count =? 12))%nat then false
    else if truthy names then
      existsb (fun k => truthy (field identity k) && throws (ToString (field identity k)))
        ["brand_name"; "generic_name"; "dosage_form"]
    else false in
  statusCode r =
    (if negb (String.eqb (method req) "POST") then 405
     else match JSON_parse (parsed_text req) with
          | None => 400
          | Some data =>
              if well_shaped data && negb (fails (identity_of data) (barcode_of data))
              then 200 else 500
          end)
  /\ (statusCode r = 200 ->
      contentType r = "application/json"
      /\ (payload r = not_found_body
          \/ exists d srcs, truthy d = true /\ payload r = ok_body d srcs)).
Proof.
  intros r fails. subst r. unfold identify_route, handler, well_shaped.
  destruct (negb (String.eqb (method req) "POST")); [other_status|].
  destruct (JSON_parse _) as [data|]; [|other_status].
  destruct (prop data "identity") as [i|] eqn:I.
  2:{ destruct data; try discriminate I; other_status. }
  destruct (prop data "barcode") as [b|] eqn:B.
  2:{ destruct data; cbn in I, B; congruence. }
  assert (Fi : identity_of data = or_else i (JObj []))
    by (unfold identity_of, field; now rewrite I).
  assert (Fb : or_else (field data "barcode") (JStr "") = or_else b (JStr ""))
    by (unfold field; now rewrite B).
  unfold barcode_of. rewrite Fi, Fb.
  destruct (or_else b (JStr "")) as [| | | |barcode| |]; try other_status.
  cbn [andb].
  pose proof (queryUrl_throws (or_else i (JObj [])) barcode) as T. cbn zeta in T.
  subst fails. cbn beta zeta. rewrite <- T. clear T.
  unfold identify. destruct (queryUrl (or_else i (JObj [])) barcode) as [q|];
    [|other_status].
  cbn [throws negb]. unfold respond. cbn [outcome].
  destruct (negb (truthy (drug _))) eqn:D; cbn [statusCode contentType payload json_response].
  - split; [reflexivity|]. intros _. split; [reflexivity | now left].
  - split; [reflexivity|]. intros _. split; [reflexivity|].
    right. eexists _, _. split; [|reflexivity].
    now apply negb_false_iff in D.
Qed.

(** C10. A POST with an empty body is not answered 400: the text parsed is
    the empty object, the identity defaults to the empty object and the
    barcode to the empty string, no query is issued and the reply is 200
    Not_Found. *)
Theorem empty_body_not_found (doFetch : string -> FetchOutcome) :
  let req := post "" in
  parsed_text req = "{}"
  /\ handler doFetch req = identify doFetch (JObj []) ""
  /\ handler doFetch req
     = {| outcome := Sent (json_response 200 not_found_body); calls := []; console := [] |}
  /\ identify_route doFetch req = json_response 200 not_found_body
  /\ statusCode (identify_route doFetch req) <> 400.
Proof.
  cbn zeta. unfold identify_route, handler, parsed_text, post.
  cbn [method body String.eqb negb].
  rewrite JSON_parse_empty_object. cbn. repeat split. discriminate.
Qed.

End WithHost.

(** C3 at a product code given together with a brand name, at a code that
    needs escaping, and at a brand name with a dosage form: the one request is
    the product-code query in the first two cases and the two-clause label
    query in the third. *)
Lemma lookup_precedence_examples :
  calls (identify unreachable_remote
           (JObj [("ndc", JStr "0002-3227"); ("brand_name", JStr "Acme")]) "")
  = ["https://api.fda.gov/drug/ndc.json?search=product_ndc:0002-3227&limit=1"]
  /\ calls (identify unreachable_remote (JObj [("product_ndc", JStr "0002 3227")]) "123")
     = ["https://api.fda.gov/drug/ndc.json?search=product_ndc:0002%203227&limit=1"]
  /\ calls (identify unreachable_remote
              (JObj [("brand_name", JStr "Advil"); ("dosage_form", JStr "TABLET")]) "123")
     = ["https://api.fda.gov/drug/label.json?search=openfda.brand_name.exact:" +:+ dquote
        +:+ "Advil" +:+ dquote +:+ "+AND+openfda.dosage_form.exact:" +:+ dquote +:+ "TABLET"
        +:+ dquote +:+ "&limit=1"].
Proof.
  split; [|split].
  - destruct (lookup_precedence unreachable_remote
                (JObj [("ndc", JStr "0002-3227"); ("brand_name", JStr "Acme")]) "")
      as (First & _).
    exact (First eq_refl).
  - destruct (lookup_precedence unreachable_remote
                (JObj [("product_ndc", JStr "0002 3227")]) "123") as (First & _).
    exact (First eq_refl).
  - destruct (lookup_precedence unreachable_remote
                (JObj [("brand_name", JStr "Advil"); ("dosage_form", JStr "TABLET")]) "123")
      as (_ & _ & Third & _).
    destruct (Third eq_refl eq_refl eq_refl) as (Label & _).
    apply (Label (fun k => if String.eqb k "brand_name" then "Advil" else "TABLET")).
    intros k [<- | [<- | []]]; reflexivity.
Defined.

(** C3 refuted as stated: an identity whose product code is an object with a
    [toString] member contains a product code, yet no product-code query, and
    no query at all, is issued: the handler raises before it fetches anything,
    and the server answers 500 whatever the names and the barcode are. *)
Lemma unprintable_code_issues_no_query :
  let identity := JObj [("ndc", unprintable); ("brand_name", JStr "Acme")] in
  truthy (or_else (field identity "ndc") (field identity "product_ndc")) = true
  /\ (forall (H : Host) (doFetch : string -> FetchOutcome) (barcode : string),
         identify doFetch identity barcode = quiet Raised
         /\ calls (identify doFetch identity barcode) = []).
Proof. cbn zeta. split; [reflexivity|]. intros H doFetch barcode. now split. Qed.

(** A product code that holds a lone surrogate (here U+D800) cannot be
    encoded: the handler raises as well. *)
Example lone_surrogate_is_not_encoded :
  let code := JStr (surrogate_bytes 0) in
  Encode (surrogate_bytes 0) = None
  /\ forall (H : Host) (doFetch : string -> FetchOutcome) (barcode : string),
       identify doFetch (JObj [("product_ndc", code)]) barcode = quiet Raised.
Proof. cbn zeta. split; [reflexivity|]. intros H doFetch barcode. reflexivity. Qed.

(** C7 at a 12-digit code written with separators, which leads to the
    product-code query on its digits, and at a 13-digit code, which does
    not. *)
Lemma barcode_query_with_separators :
  (truthy (or_else (field (JObj []) "ndc") (field (JObj []) "product_ndc")) = false
   /\ decimal_digits "0 12345-67890 5" = "012345678905"
   /\ decimal_digits "4006381333931" = "4006381333931")
  /\ calls (identify unreachable_remote (JObj []) "0 12345-67890 5")
     = ["https://api.fda.gov/drug/ndc.json?search=product_ndc:012345678905&limit=1"]
  /\ ~ (exists url, In url (calls (identify unreachable_remote (JObj []) "4006381333931"))
                    /\ String.prefix "https://api.fda.gov/drug/ndc.json" url = true).
Proof.
  split; [now repeat split|]. split.
  - destruct (barcode_query_iff unreachable_remote (JObj []) "0 12345-67890 5" eq_refl)
      as (_ & Ok).
    destruct (Ok ltac:(right; right; reflexivity)) as (_ & Calls). exact Calls.
  - destruct (barcode_query_iff unreachable_remote (JObj []) "4006381333931" eq_refl)
      as (Iff & _).
    intros E. apply Iff in E. cbn in E. lia.
Defined.

(** C6 at a product-code query whose fetch is rejected. *)
Lemma lookup_failures_unreachable_remote :
  let identity := JObj [("ndc", JStr "12345-678-90")] in
  let url := product_code_query "12345-678-90" in
  queryUrl identity "" = Some (Some url)
  /\ outcome (identify unreachable_remote identity "") = Sent (json_response 200 not_found_body)
  /\ calls (identify unreachable_remote identity "") = [url]
  /\ console (identify unreachable_remote identity "") = [fetch_error].
Proof.
  cbn zeta.
  pose proof (lookup_failures_not_found unreachable_remote
                (JObj [("ndc", JStr "12345-678-90")]) ""
                (product_code_query "12345-678-90") eq_refl (or_introl eq_refl)) as P.
  cbn zeta in P. destruct P as (O & C & L).
  split; [reflexivity|]. split; [exact O|]. split; [exact C|]. exact (L eq_refl).
Defined.

(** The specification's first end-to-end scenario: a product code, one remote
    result whose harmonized brand name is Acme. *)
Example found_acme :
  let remote (url : string) :=
    FetchResolved 200
      (Some (JObj [("results",
                    JArr [JObj [("openfda", JObj [("brand_name", JArr [JStr "Acme"])])]])])) in
  let run := identify remote (JObj [("ndc", JStr "12345-678-90")]) "" in
  calls run = [product_code_query "12345-678-90"]
  /\ exists r, outcome run = Sent r
               /\ statusCode r = 200
               /\ field (payload r) "status" = JStr "OK"
               /\ field (field (payload r) "drug") "brand_name" = JStr "Acme".
Proof. cbn zeta. split; [reflexivity|]. eexists. now vm_compute. Qed.

(** C5 refuted as stated: the body null is parseable JSON, yet the POST
    carrying it is answered 500 and not 200. *)
Lemma null_body_not_200 :
  ~ (forall (H : Host) (doFetch : string -> FetchOutcome) (req : Request),
        method req = "POST" ->
        body req = "" \/ JSON_parse (body req) <> None ->
        statusCode (identify_route doFetch req) = 200).
Proof.
  intros claim.
  specialize (claim literal_host unreachable_remote (post "null") eq_refl).
  assert (P : body (post "null") = "" \/ JSON_parse (body (post "null")) <> None)
    by (right; discriminate).
  specialize (claim P).
  destruct (null_body_raises unreachable_remote) as [_ E].
  rewrite E in claim. discriminate claim.
Qed.

(** The same reply, 500, for a body whose product code cannot be converted
    to text, on every host that parses it. *)
Lemma unprintable_code_is_500 `{Host} (doFetch : string -> FetchOutcome) (text : string) :
  text <> "" ->
  JSON_parse text = Some (JObj [("identity", JObj [("ndc", unprintable)])]) ->
  identify_route doFetch (post text) = internal_error.
Proof.
  intros Ne P. unfold identify_route, handler, parsed_text. cbn [post method body].
  destruct (String.eqb_spec text ""); [contradiction|]. cbn [String.eqb negb].
  rewrite P. reflexivity.
Qed.

End ApiFacts.

(** ** The scanner wizard *)

Module ScannerFacts.
Import Scanner.

(** *** Frame lemmas: what the display helpers leave alone *)

Lemma showCurrentStep_frame (st : App) :
  imageCounter (showCurrentStep st) = imageCounter st
  /\ capturedImages (showCurrentStep st) = capturedImages st
  /\ currentDraft (showCurrentStep st) = currentDraft st
  /\ isProcessingFile (showCurrentStep st) = isProcessingFile st
  /\ db (showCurrentStep st) = db st.
Proof.
  unfold showCurrentStep. cbn [with_ui imageCounter].
  destruct (2 <=? imageCounter st)%nat; now cbn.
Qed.

Lemma showCurrentStep_loading (st : App) :
  loadingHidden (ui (showCurrentStep st)) = true.
Proof.
  unfold showCurrentStep. cbn [with_ui imageCounter].
  destruct (2 <=? imageCounter st)%nat; now cbn.
Qed.

Lemma phase_idle (st : App) :
  currentDraft st = None -> (imageCounter st < 2)%nat -> phase st = Idle (imageCounter st).
Proof.
  intros D L. unfold phase. rewrite D.
  destruct (Nat.ltb_spec (imageCounter st) 2); [reflexivity | lia].
Qed.

Lemma phase_settled (st : App) :
  phase st = Done \/ phase st = Error ->
  currentDraft st = None /\ (2 <= imageCounter st)%nat.
Proof.
  unfold phase. destruct (currentDraft st); [intros [E | E]; discriminate E|].
  destruct (Nat.ltb_spec (imageCounter st) 2); [intros [E | E]; discriminate E|].
  now split.
Qed.

Lemma retake_frame (st : App) :
  imageCounter (retakeButton_click st) = imageCounter st
  /\ capturedImages (retakeButton_click st) = capturedImages st
  /\ currentDraft (retakeButton_click st) = None
  /\ isProcessingFile (retakeButton_click st) = isProcessingFile st
  /\ db (retakeButton_click st) = db st.
Proof.
  unfold retakeButton_click.
  destruct (showCurrentStep_frame (with_draft None st)) as (A & B & C & D & E).
  now rewrite A, B, C, D, E.
Qed.

Lemma capture_frame (f : File) (st : App) :
  isProcessingFile st = false -> decodable f ->
  imageCounter (fileInput_change (Some f) st) = imageCounter st
  /\ capturedImages (fileInput_change (Some f) st) = capturedImages st
  /\ currentDraft (fileInput_change (Some f) st) = compressImage f
  /\ isProcessingFile (fileInput_change (Some f) st) = false
  /\ db (fileInput_change (Some f) st) = db st.
Proof.
  intros P D. unfold fileInput_change. rewrite P.
  unfold decodable in D. unfold compressImage.
  destruct (decoded f) as [img|]; [|congruence].
  destruct (scaled_size _ _) as [w h]. now cbn.
Qed.

Lemma compressImage_decodable (f : File) :
  decodable f -> exists d, compressImage f = Some d.
Proof.
  unfold decodable, compressImage. destruct (decoded f) as [img|]; [|congruence].
  intros _. destruct (scaled_size _ _) as [w h]. eauto.
Qed.

Lemma reset_flow_frame (o : DbOpen) (st : App) :
  imageCounter (reset_flow o st) = 0%nat
  /\ capturedImages (reset_flow o st) = []
  /\ currentDraft (reset_flow o st) = currentDraft st
  /\ isProcessingFile (reset_flow o st) = isProcessingFile st
  /\ db (reset_flow o st) = clearSession o (db st).
Proof.
  unfold reset_flow.
  match goal with |- context [showCurrentStep ?x] =>
    destruct (showCurrentStep_frame x) as (-> & -> & -> & -> & ->) end.
  now cbn.
Qed.

Lemma boot_frame (o : DbOpen) (d : IndexedDB) :
  imageCounter (boot o d) = 0%nat
  /\ capturedImages (boot o d) = []
  /\ currentDraft (boot o d) = None
  /\ isProcessingFile (boot o d) = false
  /\ db (boot o d) = d.
Proof. destruct o; now cbn. Qed.

(** Any number of retake-and-capture rounds leaves the confirmed images, the
    counter and the database as they were, and ends under review. *)
Lemma retake_and_recapture_frame (files : list File) :
  forall st d,
    currentDraft st = Some d -> isProcessingFile st = false ->
    Forall decodable files ->
    let again := retake_and_recapture files st in
    imageCounter again = imageCounter st
    /\ capturedImages again = capturedImages st
    /\ db again = db st
    /\ isProcessingFile again = false
    /\ exists d', currentDraft again = Some d'.
Proof.
  induction files as [|f files IH]; intros st d D P F; cbn [retake_and_recapture].
  - repeat split; eauto.
  - inversion F as [|? ? Df Fr]; subst.
    destruct (retake_frame st) as (A & B & _ & C & E).
    destruct (capture_frame f (retakeButton_click st)) as (A' & B' & C' & D' & E');
      [congruence | exact Df |].
    destruct (compressImage_decodable f Df) as [d' Hd'].
    destruct (IH (fileInput_change (Some f) (retakeButton_click st)) d') as (I1 & I2 & I3 & I4 & I5);
      [congruence | exact D' | exact Fr |].
    cbn zeta. split; [congruence|]. split; [congruence|]. split; [congruence|].
    split; [exact I4 | exact I5].
Qed.

(** *** The confirm handler, statement by statement *)

Lemma dispatch_frame (st : App) :
  imageCounter (dispatch st) = imageCounter st
  /\ capturedImages (dispatch st) = capturedImages st
  /\ currentDraft (dispatch st) = currentDraft st
  /\ db (dispatch st) = db st.
Proof.
  unfold dispatch. destruct (2 <=? imageCounter st)%nat.
  - now cbn.
  - destruct (showCurrentStep_frame st) as (A & B & C & _ & E). now rewrite A, B, C, E.
Qed.

Lemma dispatch_phase (st : App) :
  currentDraft st = None ->
  phase (dispatch st) = if (2 <=? imageCounter st)%nat then Finalizing else Idle (imageCounter st).
Proof.
  intros D. unfold dispatch. destruct (Nat.leb_spec 2 (imageCounter st)) as [L | L].
  - unfold phase. cbn -[Nat.ltb]. rewrite D.
    destruct (Nat.ltb_spec (imageCounter st) 2); [lia | reflexivity].
  - destruct (showCurrentStep_frame st) as (A & _ & C & _ & _).
    rewrite <- A. apply phase_idle; congruence.
Qed.

Lemma saveSession_frame (o : DbOpen) (st : App) :
  imageCounter (saveSession o st) = imageCounter st
  /\ capturedImages (saveSession o st) = capturedImages st
  /\ currentDraft (saveSession o st) = currentDraft st
  /\ settings (db (saveSession o st)) = settings (db st).
Proof. destruct o; now cbn. Qed.

Lemma clear_draft_frame (st : App) :
  imageCounter (clear_draft st) = imageCounter st
  /\ capturedImages (clear_draft st) = capturedImages st
  /\ currentDraft (clear_draft st) = None
  /\ db (clear_draft st) = db st.
Proof. now cbn. Qed.

Lemma trace_head (body : list (App -> App)) (st : App) :
  exists rest, trace body st = st :: rest.
Proof. destruct body; cbn [trace]; eauto. Qed.

Lemma last_nonempty {A : Type} (l : list A) :
  forall a d d', List.last (a :: l) d = List.last (a :: l) d'.
Proof.
  induction l as [|b l IH]; intros a d d'; [reflexivity|].
  change (List.last (b :: l) d = List.last (b :: l) d'). apply IH.
Qed.

(** The trace ends in the state the handler body leaves. *)
Lemma trace_ends_with_run (body : list (App -> App)) :
  forall st, List.last (trace body st) st = run body st.
Proof.
  induction body as [|f body IH]; intros st; [reflexivity|].
  change (run (f :: body) st) with (run body (f st)). rewrite <- IH.
  cbn [trace]. destruct (trace_head body (f st)) as [rest ->].
  change (List.last (f st :: rest) st = List.last (f st :: rest) (f st)).
  apply last_nonempty.
Qed.

Lemma confirm_run (o : DbOpen) (st : App) (d : DataURL) :
  currentDraft st = Some d ->
  confirmButton_click o st
  = dispatch (clear_draft (saveSession o (increment_counter (push_draft st)))).
Proof. intros D. unfold confirmButton_click. now rewrite D. Qed.

Lemma confirm_progress (o : DbOpen) (st : App) (d : DataURL) :
  currentDraft st = Some d ->
  capturedImages (confirmButton_click o st) = (capturedImages st ++ [d])%list
  /\ imageCounter (confirmButton_click o st) = S (imageCounter st)
  /\ currentDraft (confirmButton_click o st) = None.
Proof.
  intros D. rewrite (confirm_run o st d D).
  destruct (dispatch_frame (clear_draft (saveSession o (increment_counter (push_draft st)))))
    as (-> & -> & -> & _).
  destruct (clear_draft_frame (saveSession o (increment_counter (push_draft st))))
    as (-> & -> & -> & _).
  destruct (saveSession_frame o (increment_counter (push_draft st))) as (-> & -> & _).
  unfold push_draft. rewrite D. now cbn.
Qed.

(** C1, as the code has it.  Confirm appends the draft, advances the
    in-memory counter and only then writes the counter and the images to the
    session store: the database is untouched while the image is appended and
    the counter advanced, and the record written holds the advanced counter
    and the extended sequence.  The draft is cleared afterwards, and the wizard
    is at Idle(i+1) when i+1 < 2 and Finalizing otherwise. *)
Theorem confirm_saves_after_advance (o : DbOpen) (st : App) (d : DataURL) :
  currentDraft st = Some d ->
  let i := imageCounter st in
  let images := (capturedImages st ++ [d])%list in
  let record := {| saved_imageCounter := S i; saved_capturedImages := images |} in
  let st' := confirmButton_click o st in
  (capturedImages st' = images /\ imageCounter st' = S i /\ currentDraft st' = None)
  /\ settings (db st') = settings (db st)
  /\ (o = Opened -> session (db st') = <[SESSION_ID := record]> (session (db st)))
  /\ (exists s1 s2 s3 s4,
        trace (confirm_body o) st = [st; s1; s2; s3; s4; st']
        /\ (capturedImages s1 = images /\ imageCounter s1 = i /\ db s1 = db st)
        /\ (capturedImages s2 = images /\ imageCounter s2 = S i /\ db s2 = db st)
        /\ (db s3 = db st' /\ currentDraft s3 = Some d)
        /\ currentDraft s4 = None)
  /\ (List.length (capturedImages st) = i ->
      List.length (saved_capturedImages record) = saved_imageCounter record)
  /\ ((S i < 2)%nat -> phase st' = Idle (S i))
  /\ ((2 <= S i)%nat -> phase st' = Finalizing).
Proof.
  intros D i images record st'.
  assert (R : st' = dispatch (clear_draft (saveSession o (increment_counter (push_draft st)))))
    by (subst st'; now apply confirm_run with d).
  assert (P : push_draft st = with_progress i images st)
    by (unfold push_draft; now rewrite D).
  set (s1 := push_draft st) in *.
  set (s2 := increment_counter s1) in *.
  set (s3 := saveSession o s2) in *.
  set (s4 := clear_draft s3) in *.
  destruct (dispatch_frame s4) as (F1 & F2 & F3 & F4).
  destruct (clear_draft_frame s3) as (E1 & E2 & E3 & E4). fold s4 in E1, E2, E3, E4.
  destruct (saveSession_frame o s2) as (G1 & G2 & G3 & G4). fold s3 in G1, G2, G3, G4.
  assert (I2 : imageCounter s2 = S i) by (subst s2; cbn; now rewrite P).
  assert (C2 : capturedImages s2 = images) by (subst s2; cbn; now rewrite P).
  assert (D2 : db s2 = db st) by (subst s2; cbn; now rewrite P).
  assert (T : trace (confirm_body o) st = [st; s1; s2; s3; s4; st'])
    by (rewrite R; reflexivity).
  assert (I4 : imageCounter s4 = S i) by congruence.
  split; [|split; [|split; [|split; [|split; [|split]]]]].
  - rewrite R, F1, F2, F3. repeat split; congruence.
  - rewrite R, F4, E4. congruence.
  - intros ->. rewrite R, F4, E4. unfold s3, saveSession, with_db. cbn [db].
    now rewrite I2, C2, D2.
  - exists s1, s2, s3, s4. split; [exact T|].
    split; [rewrite P; now cbn|]. split; [now repeat split|].
    split; [|exact E3].
    split; [now rewrite R, F4, E4|]. rewrite G3. unfold s2. cbn. now rewrite P.
  - intros L. subst images. cbn. rewrite length_app. cbn. lia.
  - intros L. rewrite R, dispatch_phase by exact E3. rewrite I4.
    destruct (Nat.leb_spec 2 (S i)); [lia | reflexivity].
  - intros L. rewrite R, dispatch_phase by exact E3. rewrite I4.
    destruct (Nat.leb_spec 2 (S i)); [reflexivity | lia].
Qed.

(** C1 at the first photo of a session: the record written holds one image
    and the counter 1, and the wizard moves to the second step. *)
Lemma confirm_first_photo :
  currentDraft reviewing_first = Some first_shot
  /\ session (db (confirmButton_click Opened reviewing_first)) !! SESSION_ID
     = Some {| saved_imageCounter := 1; saved_capturedImages := [first_shot] |}
  /\ phase (confirmButton_click Opened reviewing_first) = Idle 1.
Proof.
  split; [reflexivity|].
  destruct (confirm_saves_after_advance Opened reviewing_first first_shot eq_refl)
    as (_ & _ & W & _ & _ & I & _).
  split.
  - rewrite (W eq_refl). apply lookup_insert_eq.
  - apply I. cbn. lia.
Defined.

(** C1 refuted as stated: while the first photo is being confirmed there is
    a point, after the append, at which the in-memory index has already been
    advanced and nothing has been written to the session store. *)
Lemma confirm_advances_before_saving :
  exists s,
    nth_error (trace (confirm_body Opened) reviewing_first) 2 = Some s
    /\ capturedImages s = [first_shot]
    /\ imageCounter s = S (imageCounter reviewing_first)
    /\ session (db s) !! SESSION_ID = None.
Proof. eexists. split; [reflexivity|]. now vm_compute. Qed.

(** C2, as the code has it.  In the review-gated wizard a retake discards
    only the draft and returns to Idle(i): confirmed images, counter and
    database are unchanged, however many retakes (each followed by a new
    capture) come before the confirm, which then adds exactly one image.  In
    the camera script the retake button instead empties the captured images
    and sets the step back to 0. *)
Theorem retake_discards_only_draft (o : DbOpen) (st : App) (d : DataURL)
    (files : list File) (granted : option Camera.Stream) (p : Camera.Page) :
  currentDraft st = Some d ->
  isProcessingFile st = false ->
  (imageCounter st < 2)%nat ->
  Forall decodable files ->
  let back := retakeButton_click st in
  let again := retake_and_recapture files st in
  (capturedImages back = capturedImages st /\ imageCounter back = imageCounter st
   /\ db back = db st /\ phase back = Idle (imageCounter st))
  /\ (capturedImages again = capturedImages st /\ imageCounter again = imageCounter st
      /\ db again = db st /\ exists d', phase again = Reviewing (imageCounter st) d')
  /\ (List.length (capturedImages (confirmButton_click o again))
      = S (List.length (capturedImages st))
      /\ imageCounter (confirmButton_click o again) = S (imageCounter st))
  /\ (Camera.capturedImages (Camera.retakeBtn_click granted p) = []
      /\ Camera.step (Camera.retakeBtn_click granted p) = 0%nat).
Proof.
  intros D P L F back again.
  destruct (retake_frame st) as (A & B & C & _ & E). fold back in A, B, C, E.
  destruct (retake_and_recapture_frame files st d D P F) as (A' & B' & E' & _ & d' & D').
  fold again in A', B', E', D'.
  split; [|split; [|split]].
  - repeat split; try assumption. rewrite <- A. apply phase_idle; [exact C | lia].
  - repeat split; try assumption. exists d'. unfold phase. now rewrite D', A'.
  - destruct (confirm_progress o again d' D') as (I1 & I2 & _).
    rewrite I1, I2, length_app, B', A'. cbn. split; lia.
  - now cbn.
Qed.

(** C2 at the second step: three retakes, then the confirm. *)
Lemma retake_three_times_then_confirm :
  let files := [photo 800 600 3; photo 4000 3000 4; photo 1080 1920 5] in
  let again := retake_and_recapture files reviewing_second in
  (currentDraft reviewing_second <> None /\ Forall decodable files)
  /\ phase (retakeButton_click reviewing_second) = Idle 1
  /\ capturedImages again = capturedImages reviewing_second
  /\ List.length (capturedImages (confirmButton_click Opened again)) = 2%nat.
Proof.
  cbn zeta.
  assert (F : Forall decodable [photo 800 600 3; photo 4000 3000 4; photo 1080 1920 5])
    by (repeat constructor; discriminate).
  split; [split; [discriminate | exact F]|].
  destruct (retake_discards_only_draft Opened reviewing_second
              (toDataURL "image/jpeg" (Qmake 8 10) 1024 576
                 {| img_width := 1920; img_height := 1080; img_content := 2 |})
              [photo 800 600 3; photo 4000 3000 4; photo 1080 1920 5]
              None Camera.initial eq_refl eq_refl (le_n 2) F)
    as ((_ & _ & _ & I) & (K & _) & (N & _) & _).
  split; [exact I|]. split; [exact K | exact N].
Defined.

(** C2 refuted as stated: in the camera script, with both images captured
    and shown for review, the retake button drops them and resets the step. *)
Lemma camera_retake_drops_images :
  List.length (Camera.capturedImages previewing) = 2%nat
  /\ Camera.step previewing = 2%nat
  /\ Camera.previewShown previewing = true
  /\ Camera.capturedImages (Camera.retakeBtn_click (Some full_hd) previewing) = []
  /\ Camera.step (Camera.retakeBtn_click (Some full_hd) previewing) = 0%nat.
Proof. now vm_compute. Qed.

(** C9. Reset, from Done or Error, returns the counter and the confirmed
    images to their initial empty values and the wizard to Idle(0); in the
    database it deletes the session record and nothing else: every other
    session entry and the whole settings store, the credential with it, are as
    before.  The same holds of the reloading click handler that
    [processImages] installs, whether or not the reloaded page can open the
    database. *)
Theorem reset_clears_session_only (o o' : DbOpen) (st : App) :
  phase st = Done \/ phase st = Error ->
  forall st', st' = scanButton_click o st \/ st' = scanButton_onclick o o' st ->
  (imageCounter st' = 0%nat /\ capturedImages st' = [] /\ phase st' = Idle 0)
  /\ (settings (db st') = settings (db st) /\ getKey (db st') = getKey (db st))
  /\ (forall k, k <> SESSION_ID -> session (db st') !! k = session (db st) !! k)
  /\ (o = Opened -> session (db st') !! SESSION_ID = None).
Proof.
  intros Ph st' Hst'. apply phase_settled in Ph as (D & L).
  assert (F : imageCounter st' = 0%nat /\ capturedImages st' = []
              /\ currentDraft st' = None /\ db st' = clearSession o (db st)).
  { destruct Hst' as [-> | ->].
    - unfold scanButton_click. apply Nat.leb_le in L. rewrite L.
      destruct (reset_flow_frame o st) as (-> & -> & -> & _ & ->). now rewrite D.
    - unfold scanButton_onclick.
      destruct (boot_frame o' (clearSession o (db st))) as (-> & -> & -> & _ & ->).
      now repeat split. }
  destruct F as (A & B & C & Db).
  split; [|split; [|split]].
  - split; [exact A|]. split; [exact B|].
    rewrite <- A. apply phase_idle; [exact C | rewrite A; lia].
  - rewrite Db. unfold getKey. destruct o; now cbn.
  - intros k Hk. rewrite Db. destruct o; cbn; [|reflexivity].
    now apply lookup_delete_ne.
  - intros ->. rewrite Db. cbn. apply lookup_delete_eq.
Qed.

(** C9 after a failed analysis of a full session: the saved session goes,
    the key stays. *)
Lemma reset_after_failed_run :
  phase failed_run = Error
  /\ session (db failed_run) !! SESSION_ID <> None
  /\ session (db (scanButton_click Opened failed_run)) !! SESSION_ID = None
  /\ getKey (db (scanButton_click Opened failed_run)) = Some "secret"
  /\ phase (scanButton_click Opened failed_run) = Idle 0.
Proof.
  split; [reflexivity|]. split; [now vm_compute|].
  destruct (reset_clears_session_only Opened Opened failed_run (or_intror eq_refl)
              (scanButton_click Opened failed_run) (or_introl eq_refl))
    as ((_ & _ & P) & (_ & K) & _ & S).
  split; [exact (S eq_refl)|]. split; [|exact P].
  rewrite K. reflexivity.
Defined.

End ScannerFacts.

(** ** Image normalisation *)

Module CaptureFacts.
Import Scanner.

Lemma Math_round_div_bounds (n d : Z) :
  0 < d -> 2 * n - d < 2 * d * Math_round_div n d <= 2 * n + d.
Proof.
  intros Hd. unfold Math_round_div.
  pose proof (Z.mul_div_le (2 * n + d) (2 * d) ltac:(lia)).
  pose proof (Z.mul_succ_div_gt (2 * n + d) (2 * d) ltac:(lia)).
  lia.
Qed.

Lemma Math_round_div_le (n d k : Z) :
  0 < d -> n <= k * d -> Math_round_div n d <= k.
Proof.
  intros Hd Hn. pose proof (Math_round_div_bounds n d Hd). nia.
Qed.

Lemma Math_round_div_pos (n d : Z) : 0 < d -> d <= 2 * n -> 0 < Math_round_div n d.
Proof.
  intros Hd Hn. pose proof (Math_round_div_bounds n d Hd). nia.
Qed.

Lemma scaled_size_cases (w h : Z) :
  (h < w /\ MAX < w /\ scaled_size w h = (MAX, Math_round_div (h * MAX) w))
  \/ (w <= h /\ MAX < h /\ scaled_size w h = (Math_round_div (w * MAX) h, MAX))
  \/ (w <= MAX /\ h <= MAX /\ scaled_size w h = (w, h)).
Proof.
  unfold scaled_size. rewrite !Z.gtb_ltb.
  destruct (Z.ltb_spec h w), (Z.ltb_spec MAX w), (Z.ltb_spec MAX h); cbn [andb];
    first [ left; repeat split; lia
          | right; left; repeat split; lia
          | right; right; repeat split; lia ].
Qed.

(** What [toDataURL] returns, by the size of the canvas. *)
Lemma toDataURL_encoded (type : string) (q : Q) (w h : Z) (drawn : Image) :
  w <> 0 -> h <> 0 ->
  toDataURL type q w h drawn
  = Encoded {| mime := type; quality := q; width := w; height := h;
               content := img_content drawn |}.
Proof.
  intros Hw Hh. unfold toDataURL. apply Z.eqb_neq in Hw, Hh. now rewrite Hw, Hh.
Qed.

Lemma toDataURL_no_pixels (type : string) (q : Q) (w h : Z) (drawn : Image) :
  w = 0 \/ h = 0 -> toDataURL type q w h drawn = NoPixels.
Proof.
  unfold toDataURL. intros [-> | ->]; [reflexivity|]. now rewrite orb_true_r.
Qed.

(** C4, as the code has it.  [compressImage] (the file-input wizard) draws a
    picture whose long edge exceeds 1024 on a canvas whose long edge is 1024
    and whose short edge is round(short * 1024 / long), within half a pixel of
    the exact ratio, and a picture whose long edge is at most 1024 on a canvas
    of its own size.  Its output is that canvas encoded as JPEG at quality 0.8
    when both edges of the canvas are non-zero, as they are for a picture with
    positive edges whose long edge is at most 2048 times the short one; with a
    zero edge the output is the data URL without pixels.  The camera script
    encodes the same way, and always on a canvas of the size of the video
    frame. *)
Theorem normalization_scaling (img : Image) (frame : nat) (p : Camera.Page)
    (s : Camera.Stream) :
  let W := img_width img in
  let H := img_height img in
  (exists w h,
      scaled_size W H = (w, h)
      /\ (w <> 0 -> h <> 0 ->
          compressImage {| decoded := Some img |}
          = Some (Encoded {| mime := "image/jpeg"; quality := Qmake 8 10;
                             width := w; height := h; content := img_content img |}))
      /\ (w = 0 \/ h = 0 -> compressImage {| decoded := Some img |} = Some NoPixels)
      /\ (0 < W -> 0 < H -> long_edge W H <= 2048 * short_edge W H -> 0 < w /\ 0 < h)
      /\ (long_edge W H > 1024 ->
          long_edge w h = 1024
          /\ short_edge w h = Math_round_div (short_edge W H * 1024) (long_edge W H)
          /\ (W > H -> w = 1024)
          /\ (W <= H -> h = 1024)
          /\ 2 * (short_edge W H * 1024) - long_edge W H
               < 2 * long_edge W H * short_edge w h
               <= 2 * (short_edge W H * 1024) + long_edge W H)
      /\ (long_edge W H <= 1024 -> w = W /\ h = H))
  /\ (Camera.currentStream p = Some s ->
      let vw := Camera.videoWidth s in
      let vh := Camera.videoHeight s in
      exists shot,
        Camera.capturedImages (Camera.captureBtn_click frame p)
        = (Camera.capturedImages p ++ [shot])%list
        /\ (vw <> 0 -> vh <> 0 ->
            shot = Encoded {| mime := "image/jpeg"; quality := Qmake 8 10;
                              width := vw; height := vh; content := frame |})
        /\ (vw = 0 \/ vh = 0 -> shot = NoPixels)).
Proof.
  intros W H. split.
  - unfold compressImage. cbn [decoded]. fold W H.
    unfold long_edge, short_edge.
    destruct (scaled_size_cases W H) as [(L & M & E) | [(L & M & E) | (L & M & E)]];
      rewrite E; unfold MAX in *; eexists _, _; (split; [reflexivity|]);
      (split; [intros Nw Nh; f_equal; now apply toDataURL_encoded|]);
      (split; [intros Z0; f_equal; now apply toDataURL_no_pixels|]).
    + pose proof (Math_round_div_bounds (H * 1024) W ltac:(lia)) as B.
      pose proof (Math_round_div_le (H * 1024) W 1024 ltac:(lia) ltac:(lia)) as U.
      split.
      { intros Pw Ph R. split; [lia|]. apply Math_round_div_pos; lia. }
      split; [|lia]. intros _.
      rewrite (Z.max_l 1024 _ U), (Z.min_r 1024 _ U), (Z.max_l W H), (Z.min_r W H) by lia.
      repeat split; lia.
    + pose proof (Math_round_div_bounds (W * 1024) H ltac:(lia)) as B.
      pose proof (Math_round_div_le (W * 1024) H 1024 ltac:(lia) ltac:(lia)) as U.
      split.
      { intros Pw Ph R. split; [|lia]. apply Math_round_div_pos; lia. }
      split; [|lia]. intros _.
      rewrite (Z.max_r _ 1024 U), (Z.min_l _ 1024 U), (Z.max_r W H), (Z.min_l W H) by lia.
      repeat split; lia.
    + split; [intros; lia|]. split; [lia | now split].
  - intros Cs. cbn zeta. unfold Camera.captureBtn_click. rewrite Cs.
    destruct (2 <=? S (Camera.step p))%nat; eexists; (split; [reflexivity|]);
      (split; [intros Nw Nh; now apply toDataURL_encoded
              | intros Z0; now apply toDataURL_no_pixels]).
Qed.

(** C4 at a 1920 x 1080 photo. *)
Lemma normalization_full_hd :
  long_edge 1920 1080 > 1024
  /\ scaled_size 1920 1080 = (1024, 576)
  /\ compressImage (photo 1920 1080 1)
     = Some (Encoded {| mime := "image/jpeg"; quality := Qmake 8 10;
                        width := 1024; height := 576; content := 1 |}).
Proof.
  split; [reflexivity|]. split; [reflexivity|].
  destruct (normalization_scaling
              {| img_width := 1920; img_height := 1080; img_content := 1 |} 1
              (Camera.startScanBtn_click (Some full_hd) Camera.initial) full_hd)
    as ((w & h & E & Jpeg & _) & _).
  cbn zeta in *. injection E as <- <-. apply Jpeg; discriminate.
Defined.

(** C4 refuted as stated.  In the camera script a 1920 x 1080 frame is encoded
    at 1920 x 1080: its long edge is not brought down to 1024.  And
    [compressImage] does not always produce a JPEG: a 5000 x 2 strip is drawn
    on a canvas 1024 wide and 0 high, for which the output is the data URL
    without pixels. *)
Lemma camera_capture_is_not_scaled :
  (exists shot,
      Camera.capturedImages
        (Camera.captureBtn_click 1 (Camera.startScanBtn_click (Some full_hd) Camera.initial))
      = [Encoded shot]
      /\ long_edge (Camera.videoWidth full_hd) (Camera.videoHeight full_hd) > 1024
      /\ long_edge (width shot) (height shot) = 1920
      /\ long_edge (width shot) (height shot) <> 1024)
  /\ (long_edge 5000 2 > 1024
      /\ scaled_size 5000 2 = (1024, 0)
      /\ compressImage (photo 5000 2 1) = Some NoPixels).
Proof.
  split; [eexists; split; [reflexivity|]; now vm_compute|].
  now repeat split.
Qed.

End CaptureFacts.

(** ** Result presentation *)

Module PresentationFacts.
Import Scanner.

Section WithHost.
Context `{Host}.



(** The conversion of an array to text is its [join] with a comma. *)
Lemma ToString_array (items : list JSValue) :
  ToString (JArr items) = Array_join "," items.
Proof.
  unfold Array_join. cbn [ToString]. now f_equal.
Qed.


Lemma gt_num_length (xs : list JSValue) :
  gt_num (field (JArr xs) "length") 0
  = Some (match xs with [] => false | _ :: _ => true end).
Proof.
  unfold field, prop, gt_num. cbn [String.eqb Ascii.eqb Bool.eqb ToNumber arr_length option_map].
  f_equal. destruct xs as [|x xs]; [reflexivity|]. apply negb_true_iff.
  destruct (Qle_bool _ 0) eqn:E; [|reflexivity].
  apply Qle_bool_iff in E. unfold Qle in E. cbn in E. lia.
Qed.


End WithHost.



End PresentationFacts.

(** ** More on the lookup handler *)

Module ApiMore.
Import Api Server Transport.

Lemma digits_only_fixes_digits (s : string) :
  all_chars is_digit s = true -> digits_only s = s.
Proof.
  induction s as [|c s IH]; [reflexivity|]. cbn [all_chars digits_only].
  intros [D A]%andb_prop. rewrite D. now rewrite IH.
Qed.

Lemma digits_only_idempotent (s : string) : digits_only (digits_only s) = digits_only s.
Proof. apply digits_only_fixes_digits, ApiFacts.digits_only_all_digits. Qed.

Lemma product_code_query_base (code : string) :
  String.prefix openfda_base (product_code_query code) = true.
Proof. unfold product_code_query, ndc_endpoint. cbn [String.append]. reflexivity. Qed.

Lemma label_query_base (search : string) :
  String.prefix openfda_base (label_query search) = true.
Proof. unfold label_query, label_endpoint. cbn [String.append]. reflexivity. Qed.

Lemma arr_length_positive `{Host} (x : JSValue) (xs : list JSValue) :
  gt_num (field (JArr (x :: xs)) "length") 0 = Some true.
Proof. apply PresentationFacts.gt_num_length. Qed.

Section WithHost.
Context `{Host}.

Lemma queryUrl_base (identity : JSValue) (barcode url : string) :
  queryUrl identity barcode = Some (Some url) -> String.prefix openfda_base url = true.
Proof.
  intros Q. destruct (ApiFacts.queryUrl_some _ _ _ Q) as [(e & ->) | (s & ->)];
    auto using product_code_query_base, label_query_base.
Qed.

Lemma lookup_fetched (doFetch : string -> FetchOutcome) (q : option string) :
  fetched (lookup doFetch q) = [] \/ exists url, q = Some url /\ fetched (lookup doFetch q) = [url].
Proof.
  destruct q as [url|]; [|now left]. unfold lookup.
  destruct (negb (truthy (JStr url))); [now left | right; exists url; split; [reflexivity|]].
  destruct (doFetch url) as [|status [j|]]; try reflexivity;
    destruct (negb (status =? 200)); try reflexivity.
  destruct (prop j "results") as [r|]; [|reflexivity].
  destruct (truthy (or_else r (JArr []))); [|reflexivity].
  destruct (gt_num _ 0) as [[|]|]; reflexivity.
Qed.

(** Closes the three parts of X1 for a run that fetched nothing. *)
Ltac no_calls :=
  cbn; split; [lia | split; [intros ? [] | intros E; now contradiction E]].

(** X1. The handler makes at most one outbound request per call, only to the
    openFDA drug endpoints, and only for a POST whose body parsed to a value it
    can take apart. *)
Theorem handler_fetches_openfda_only (doFetch : string -> FetchOutcome) (req : Request) :
  (List.length (calls (handler doFetch req)) <= 1)%nat
  /\ (forall url, In url (calls (handler doFetch req)) ->
        String.prefix openfda_base url = true)
  /\ (calls (handler doFetch req) <> [] ->
      method req = "POST"
      /\ exists data, JSON_parse (parsed_text req) = Some data /\ well_shaped data = true).
Proof.
  unfold handler.
  destruct (String.eqb_spec (method req) "POST") as [M | M]; cbn [negb]; [|no_calls].
  destruct (JSON_parse (parsed_text req)) as [data|]; [|no_calls].
  destruct (prop data "identity") as [i|]; [|no_calls].
  destruct (prop data "barcode") as [b|] eqn:B; [|no_calls].
  destruct (or_else b (JStr "")) as [| | | |barcode| |] eqn:O; try no_calls.
  unfold identify.
  destruct (queryUrl (or_else i (JObj [])) barcode) as [q|] eqn:Q; [|no_calls].
  unfold respond. cbn [calls].
  destruct (lookup_fetched doFetch q) as [-> | (url & -> & ->)].
  - no_calls.
  - split; [cbn; lia|]. split.
    + intros u [<- | []]. eapply queryUrl_base, Q.
    + intros _. split; [exact M|]. exists data. split; [reflexivity|].
      unfold well_shaped. now rewrite B, O.
Qed.

(** X2. Only the first returned match is used: for a 200 response whose
    results array is not empty, the reply is OK with the mapping of the first
    result and the single source openFDA at the fetched URL when that result is
    truthy, and Not_Found when it is falsy; the later results play no part. *)
Theorem first_result_decides (doFetch : string -> FetchOutcome) (identity : JSValue)
    (barcode url : string) (j first : JSValue) (later : list JSValue) :
  queryUrl identity barcode = Some (Some url) ->
  doFetch url = FetchResolved 200 (Some j) ->
  prop j "results" = Some (JArr (first :: later)) ->
  identify doFetch identity barcode
  = {| outcome :=
         Sent (json_response 200
                 (if truthy first
                  then ok_body (mapOpenFdaResult first) [openfda_source url]
                  else not_found_body));
       calls := [url]; console := [] |}.
Proof.
  intros Q F R. unfold identify. rewrite Q.
  assert (N : negb (truthy (JStr url)) = false).
  { apply ApiFacts.queryUrl_nonempty in Q. destruct url; [congruence | reflexivity]. }
  unfold lookup. rewrite N, F. cbn [Z.eqb Pos.eqb negb]. rewrite R.
  cbn [or_else truthy]. rewrite arr_length_positive.
  cbn [index0]. unfold respond. cbn [drug sources fetched logged].
  unfold mapOpenFdaResult. destruct (truthy first); reflexivity.
Qed.

(** X3. A 200 response that cannot be used yields Not_Found and never a
    rejection of the handler: when reading its JSON fails or the JSON is null
    the error is logged, and when the results member is absent or falsy nothing
    is even logged. *)
Theorem unusable_body_not_found (doFetch : string -> FetchOutcome) (identity : JSValue)
    (barcode url : string) (json : option JSValue) :
  queryUrl identity barcode = Some (Some url) ->
  doFetch url = FetchResolved 200 json ->
  ((json = None \/ json = Some JNull) ->
     identify doFetch identity barcode = not_found_run [url] [fetch_error])
  /\ (forall j r, json = Some j -> prop j "results" = Some r -> truthy r = false ->
        identify doFetch identity barcode = not_found_run [url] []).
Proof.
  intros Q F. unfold identify. rewrite Q.
  assert (N : negb (truthy (JStr url)) = false).
  { apply ApiFacts.queryUrl_nonempty in Q. destruct url; [congruence | reflexivity]. }
  unfold lookup. rewrite N, F. cbn [Z.eqb Pos.eqb negb]. split.
  - intros [-> | ->]; reflexivity.
  - intros j r -> R T. rewrite R. unfold or_else. rewrite T.
    cbn [truthy]. rewrite PresentationFacts.gt_num_length. reflexivity.
Qed.

(** X4. A scanned code enters the query only through its digits: separators
    change nothing, and the digits need no escaping, so the product-code query
    built from a qualifying code is the endpoint, the bare digits and the
    limit. *)
Theorem scanned_code_separators (identity : JSValue) (barcode : string) :
  queryUrl identity barcode = queryUrl identity (digits_only barcode)
  /\ (truthy (or_else (field identity "ndc") (field identity "product_ndc")) = false ->
      scanned_code_ok (digits_only barcode) = true ->
      queryUrl identity barcode
      = Some (Some (ndc_endpoint +:+ digits_only barcode +:+ limit_one))).
Proof.
  split.
  - unfold queryUrl. now rewrite digits_only_idempotent.
  - intros C S. unfold queryUrl. rewrite C, S, ApiFacts.encode_digits. reflexivity.
Qed.

(** X5. Without a global fetch, [doFetch] answers from [https.get]: a
    connection error is a rejection, which the handler logs and turns into
    Not_Found; a 200 response whose body is not JSON reads as the empty object,
    which gives Not_Found with nothing logged. *)
Theorem https_fallback_not_found (https_get : string -> HttpsGet) (identity : JSValue)
    (barcode url : string) :
  queryUrl identity barcode = Some (Some url) ->
  (https_get url = HttpsError ->
     identify (doFetch None https_get) identity barcode = not_found_run [url] [fetch_error])
  /\ (forall data, https_get url = HttpsEnded 200 data -> JSON_parse data = None ->
        identify (doFetch None https_get) identity barcode = not_found_run [url] []).
Proof.
  intros Q. unfold identify. rewrite Q.
  assert (N : negb (truthy (JStr url)) = false).
  { apply ApiFacts.queryUrl_nonempty in Q. destruct url; [congruence | reflexivity]. }
  unfold lookup, doFetch. rewrite N. split.
  - intros ->. reflexivity.
  - intros data -> P. unfold https_json. rewrite P. reflexivity.
Qed.

End WithHost.

(** X2 at a product-code query answered with two results. *)
Lemma first_result_acme :
  queryUrl ndc_identity "" = Some (Some (product_code_query "12345-678-90"))
  /\ identify two_results ndc_identity ""
     = {| outcome :=
            Sent (json_response 200
                    (ok_body (mapOpenFdaResult acme_result)
                       [openfda_source (product_code_query "12345-678-90")]));
          calls := [product_code_query "12345-678-90"]; console := [] |}.
Proof.
  split; [reflexivity|].
  exact (first_result_decides two_results ndc_identity ""
           (product_code_query "12345-678-90")
           (JObj [("results", JArr [acme_result; JObj [("openfda", JObj [])]])])
           acme_result [JObj [("openfda", JObj [])]] eq_refl eq_refl eq_refl).
Defined.

(** X3 at a 200 answer that is an object without results. *)
Lemma unusable_body_empty_answer :
  queryUrl ndc_identity "" = Some (Some (product_code_query "12345-678-90"))
  /\ identify empty_answer ndc_identity ""
     = not_found_run [product_code_query "12345-678-90"] [].
Proof.
  split; [reflexivity|].
  destruct (unusable_body_not_found empty_answer ndc_identity ""
              (product_code_query "12345-678-90") (Some (JObj [])) eq_refl eq_refl)
    as [_ Quiet].
  exact (Quiet (JObj []) JUndefined eq_refl eq_refl eq_refl).
Defined.

(** X5 at an HTML page served with status 200. *)
Lemma https_fallback_html_page :
  queryUrl ndc_identity "" = Some (Some (product_code_query "12345-678-90"))
  /\ identify (doFetch None html_page) ndc_identity ""
     = not_found_run [product_code_query "12345-678-90"] [].
Proof.
  split; [reflexivity|].
  destruct (https_fallback_not_found html_page ndc_identity ""
              (product_code_query "12345-678-90") eq_refl) as [_ Garbage].
  exact (Garbage "<html>" eq_refl eq_refl).
Defined.

End ApiMore.

(** ** The scanner wizard as a transition system *)

Module WizardFacts.
Import Scanner Wizard.

Lemma showCurrentStep_not_analysing (st : App) : analysing (showCurrentStep st) = false.
Proof. unfold analysing. now rewrite ScannerFacts.showCurrentStep_loading. Qed.

Lemma coherent_showCurrentStep (st : App) :
  List.length (capturedImages st) = imageCounter st ->
  (imageCounter st <= 2)%nat ->
  (currentDraft st <> None -> (imageCounter st < 2)%nat) ->
  coherent_progress (showCurrentStep st).
Proof.
  intros L B D. unfold coherent_progress.
  destruct (ScannerFacts.showCurrentStep_frame st) as (-> & -> & -> & _ & _).
  rewrite showCurrentStep_not_analysing. repeat split; auto. discriminate.
Qed.

Lemma boot_not_analysing (o : DbOpen) (d : IndexedDB) : analysing (boot o d) = false.
Proof. destruct o; [apply showCurrentStep_not_analysing | reflexivity]. Qed.

Lemma coherent_boot (o : DbOpen) (d : IndexedDB) : coherent_progress (boot o d).
Proof.
  unfold coherent_progress. rewrite boot_not_analysing.
  destruct (ScannerFacts.boot_frame o d) as (-> & -> & -> & _ & _).
  cbn. repeat split; [lia | congruence | discriminate].
Qed.

Lemma coherent_retake (st : App) :
  coherent_progress st -> coherent_progress (retakeButton_click st).
Proof.
  intros (L & B & _ & _). unfold retakeButton_click.
  apply coherent_showCurrentStep; cbn; [exact L | exact B | congruence].
Qed.

Lemma coherent_pick (picked : option File) (st : App) :
  coherent_progress st -> (imageCounter st < 2)%nat ->
  coherent_progress (fileInput_change picked st).
Proof.
  intros I C. unfold fileInput_change.
  destruct (isProcessingFile st); [exact I|].
  destruct picked as [f|]; [|exact I].
  destruct I as (L & B & D & A).
  destruct (compressImage f) as [dataUri|].
  - unfold coherent_progress, analysing. cbn. repeat split; auto. discriminate.
  - unfold coherent_progress, analysing. cbn. repeat split; auto. discriminate.
Qed.

Lemma coherent_reset (o : DbOpen) (st : App) :
  coherent_progress st -> coherent_progress (scanButton_click o st).
Proof.
  intros I. unfold scanButton_click.
  destruct (2 <=? imageCounter st)%nat; [|exact I].
  apply coherent_showCurrentStep; cbn; [reflexivity | lia | lia].
Qed.

Lemma coherent_scan_click (o1 o2 o3 : DbOpen) (picked : option File) (st : App) :
  coherent_progress st -> coherent_progress (scan_click o1 o2 o3 picked st).
Proof.
  intros I. unfold scan_click.
  destruct (scanReloads (ui st)); [apply coherent_boot|].
  destruct (Nat.leb_spec 2 (imageCounter st)) as [G | G].
  - now apply coherent_reset.
  - destruct (isProcessingFile st) eqn:P; [exact I|]. now apply coherent_pick.
Qed.

Lemma dispatch_analysing (st : App) :
  analysing (dispatch st) = (2 <=? imageCounter st)%nat.
Proof.
  unfold dispatch. destruct (2 <=? imageCounter st)%nat; [reflexivity|].
  apply showCurrentStep_not_analysing.
Qed.

Lemma coherent_confirm (o : DbOpen) (st : App) :
  coherent_progress st -> coherent_progress (confirmButton_click o st).
Proof.
  intros I. destruct (currentDraft st) as [d|] eqn:D.
  2:{ unfold confirmButton_click. now rewrite D. }
  destruct I as (L & B & Dr & _).
  assert (C : (imageCounter st < 2)%nat) by (apply Dr; congruence).
  destruct (ScannerFacts.confirm_progress o st d D) as (E1 & E2 & E3).
  unfold coherent_progress. rewrite E1, E2, E3, length_app. cbn [List.length].
  repeat split; [lia | lia | congruence |]. intros A.
  rewrite (ScannerFacts.confirm_run o st d D), dispatch_analysing in A.
  apply Nat.leb_le in A.
  destruct (ScannerFacts.dispatch_frame
              (clear_draft (saveSession o (increment_counter (push_draft st))))) as (F & _).
  rewrite <- (ScannerFacts.confirm_run o st d D), E2 in F. lia.
Qed.

Lemma coherent_settle `{Host} (o : DbOpen) (e : Extraction) (st : App) :
  coherent_progress st -> analysing st = true ->
  coherent_progress (processImages_settle o e st).
Proof.
  intros (L & B & D & A) An. specialize (A An).
  unfold coherent_progress, analysing. cbn.
  split; [lia|]. split; [lia|]. split; [intros Dr; apply D in Dr; lia | reflexivity].
Qed.

(** Every state of a sequential run keeps its progress coherent. *)
Lemma sequential_coherent `{Host} (d0 : IndexedDB) (st : App) :
  Sequential d0 st -> coherent_progress st.
Proof.
  induction 1 as [o|ev st R IH E]; [apply coherent_boot|].
  destruct ev as [o1 o2 o3 picked | | o | o e]; cbn [apply_event].
  - now apply coherent_scan_click.
  - now apply coherent_retake.
  - now apply coherent_confirm.
  - now apply coherent_settle.
Qed.

(** *** The database *)

Lemma footprint_refl (d0 : IndexedDB) : wizard_footprint d0 d0.
Proof.
  split; [reflexivity|]. split; [reflexivity|]. intros N r E. congruence.
Qed.

Lemma footprint_clear (o : DbOpen) (d0 d : IndexedDB) :
  wizard_footprint d0 d -> wizard_footprint d0 (clearSession o d).
Proof.
  intros (S & K & R). destruct o; [|now split].
  split; [exact S|]. split; cbn [clearSession settings session].
  - intros k Hk. rewrite lookup_delete_ne by congruence. now apply K.
  - intros _ r E. rewrite lookup_delete_eq in E. discriminate E.
Qed.

Lemma footprint_save (o : DbOpen) (d0 : IndexedDB) (st : App) :
  wizard_footprint d0 (db st) ->
  List.length (capturedImages st) = imageCounter st ->
  (1 <= imageCounter st <= 2)%nat ->
  wizard_footprint d0 (db (saveSession o st)).
Proof.
  intros (S & K & R) L B. destruct o; [|now split].
  split; [exact S|]. split; cbn [saveSession with_db db settings session].
  - intros k Hk. rewrite lookup_insert_ne by congruence. now apply K.
  - intros _ r E. rewrite lookup_insert_eq in E. injection E as <-.
    unfold coherent_record. cbn. lia.
Qed.

Lemma footprint_confirm (o : DbOpen) (d0 : IndexedDB) (st : App) :
  coherent_progress st -> wizard_footprint d0 (db st) ->
  wizard_footprint d0 (db (confirmButton_click o st)).
Proof.
  intros (L & B & Dr & _) F. destruct (currentDraft st) as [d|] eqn:D.
  2:{ unfold confirmButton_click. now rewrite D. }
  assert (C : (imageCounter st < 2)%nat) by (apply Dr; congruence).
  rewrite (ScannerFacts.confirm_run o st d D).
  destruct (ScannerFacts.dispatch_frame
              (clear_draft (saveSession o (increment_counter (push_draft st)))))
    as (_ & _ & _ & ->).
  destruct (ScannerFacts.clear_draft_frame
              (saveSession o (increment_counter (push_draft st)))) as (_ & _ & _ & ->).
  unfold push_draft. rewrite D.
  apply footprint_save; cbn; [exact F | rewrite length_app; cbn; lia | lia].
Qed.

Lemma fileInput_change_db (picked : option File) (st : App) :
  db (fileInput_change picked st) = db st.
Proof.
  unfold fileInput_change. destruct (isProcessingFile st); [reflexivity|].
  destruct picked as [f|]; [|reflexivity]. now destruct (compressImage f).
Qed.

Lemma footprint_scan_click (o1 o2 o3 : DbOpen) (picked : option File) (d0 : IndexedDB)
    (st : App) :
  wizard_footprint d0 (db st) -> wizard_footprint d0 (db (scan_click o1 o2 o3 picked st)).
Proof.
  intros F.
  assert (Reset : forall o, wizard_footprint d0 (db (scanButton_click o st))).
  { intros o. unfold scanButton_click. destruct (2 <=? imageCounter st)%nat; [|exact F].
    destruct (ScannerFacts.reset_flow_frame o st) as (_ & _ & _ & _ & ->).
    now apply footprint_clear. }
  unfold scan_click. destruct (scanReloads (ui st)).
  - unfold scanButton_onclick.
    destruct (ScannerFacts.boot_frame o3 (clearSession o2 (db (scanButton_click o1 st))))
      as (_ & _ & _ & _ & ->).
    apply footprint_clear, Reset.
  - destruct (2 <=? imageCounter st)%nat eqn:G; [apply Reset|].
    destruct (isProcessingFile st) eqn:P; [exact F|].
    now rewrite fileInput_change_db.
Qed.

(** Every state of a sequential run has a database that differs from the
    initial one at most in a coherent session record. *)
Lemma sequential_footprint `{Host} (d0 : IndexedDB) (st : App) :
  Sequential d0 st -> wizard_footprint d0 (db st).
Proof.
  induction 1 as [o|ev st R IH E].
  - destruct (ScannerFacts.boot_frame o d0) as (_ & _ & _ & _ & ->). apply footprint_refl.
  - pose proof (sequential_coherent d0 st R) as I.
    destruct ev as [o1 o2 o3 picked | | o | o e]; cbn [apply_event].
    + now apply footprint_scan_click.
    + destruct (ScannerFacts.retake_frame st) as (_ & _ & _ & _ & ->). exact IH.
    + now apply footprint_confirm.
    + exact IH.
Qed.

Lemma seq_to `{Host} (d0 : IndexedDB) (ev : Event) (st st' : App) :
  Sequential d0 st -> enabled ev st = true -> apply_event ev st = st' -> Sequential d0 st'.
Proof. intros R E <-. now apply seq_step. Qed.

Lemma finalizing_sequential : Sequential keyed_db finalizing.
Proof.
  apply (seq_to keyed_db (ConfirmClick Opened) reviewing_second);
    [|now vm_compute | now vm_compute].
  apply (seq_to keyed_db (ScanClick Opened Opened Opened (Some (photo 1920 1080 2)))
           (confirmButton_click Opened reviewing_first));
    [|now vm_compute | now vm_compute].
  apply (seq_to keyed_db (ConfirmClick Opened) reviewing_first);
    [|now vm_compute | now vm_compute].
  apply (seq_to keyed_db (ScanClick Opened Opened Opened (Some (photo 1920 1080 1)))
           (boot Opened keyed_db));
    [apply seq_boot | now vm_compute | now vm_compute].
Qed.

(** *** Runs with suspended handlers *)

Section Interleaved.
Context `{Host}.

Lemma nth_error_middle (ts later : list Interleaving.Task) (t : Interleaving.Task) :
  nth_error (ts ++ t :: later) (List.length ts) = Some t.
Proof. induction ts as [|a ts IH]; [reflexivity | exact IH]. Qed.

Lemma remove_nth_middle (ts later : list Interleaving.Task) (t : Interleaving.Task) :
  Interleaving.remove_nth (List.length ts) (ts ++ t :: later) = (ts ++ later)%list.
Proof.
  induction ts as [|a ts IH]; [reflexivity|]. cbn [List.length app Interleaving.remove_nth].
  now rewrite IH.
Qed.

(** Resuming the task that stands after [ts] in the list of suspended
    handlers. *)
Lemma fire_resume (ts later : list Interleaving.Task) (t : Interleaving.Task)
    (o : DbOpen) (e : Extraction) (st : App) (pk : bool) :
  let p := {| Interleaving.app := st; Interleaving.pending := (ts ++ t :: later)%list;
              Interleaving.picker := pk |} in
  Interleaving.enabled (Interleaving.Resume (List.length ts) o e) p
  = Interleaving.can_resume t
  /\ Interleaving.fire (Interleaving.Resume (List.length ts) o e) p
     = Interleaving.resume t o e (ts ++ later)%list p.
Proof.
  cbn zeta. unfold Interleaving.enabled, Interleaving.fire. cbn [Interleaving.pending].
  now rewrite nth_error_middle, remove_nth_middle.
Qed.

Lemma remove_nth_In (n : nat) (ts : list Interleaving.Task) (t : Interleaving.Task) :
  In t (Interleaving.remove_nth n ts) -> In t ts.
Proof.
  revert n. induction ts as [|a ts IH]; intros n; [now destruct n|].
  destruct n as [|n]; cbn [Interleaving.remove_nth]; [now right|].
  intros [<- | I]; [now left | right; eauto].
Qed.

Lemma reached (d0 : IndexedDB) (ev : Interleaving.Event) (p p' : Interleaving.Page) :
  Interleaving.Reachable d0 p -> Interleaving.enabled ev p = true ->
  Interleaving.fire ev p = p' -> Interleaving.Reachable d0 p'.
Proof. intros R E <-. now apply Interleaving.reach_step. Qed.

Lemma resume_reached (d0 : IndexedDB) (ts later : list Interleaving.Task)
    (t : Interleaving.Task) (o : DbOpen) (e : Extraction) (st : App) (pk : bool)
    (p' : Interleaving.Page) :
  let p := {| Interleaving.app := st; Interleaving.pending := (ts ++ t :: later)%list;
              Interleaving.picker := pk |} in
  Interleaving.Reachable d0 p ->
  Interleaving.can_resume t = true ->
  Interleaving.resume t o e (ts ++ later)%list p = p' ->
  Interleaving.Reachable d0 p'.
Proof.
  cbn zeta. intros R C <-.
  destruct (fire_resume ts later t o e st pk) as (E & F). cbn zeta in E, F.
  rewrite <- F. apply Interleaving.reach_step; [exact R | now rewrite E].
Qed.

Lemma resume_last_reached (d0 : IndexedDB) (ts : list Interleaving.Task)
    (t : Interleaving.Task) (o : DbOpen) (e : Extraction) (st : App) (pk : bool)
    (p' : Interleaving.Page) :
  let p := {| Interleaving.app := st; Interleaving.pending := (ts ++ [t])%list;
              Interleaving.picker := pk |} in
  Interleaving.Reachable d0 p ->
  Interleaving.can_resume t = true ->
  Interleaving.resume t o e ts p = p' ->
  Interleaving.Reachable d0 p'.
Proof.
  cbn zeta. intros R C E. apply (resume_reached d0 ts [] t o e st pk p' R C).
  now rewrite app_nil_r.
Qed.

Lemma play_reachable (d0 : IndexedDB) (events : list Interleaving.Event) :
  forall p, Interleaving.Reachable d0 p -> playable events p = true ->
            Interleaving.Reachable d0 (play events p).
Proof.
  induction events as [|ev events IH]; intros p R P; [exact R|].
  cbn [playable] in P. apply andb_prop in P as [E P].
  apply (IH (Interleaving.fire ev p)); [now apply Interleaving.reach_step | exact P].
Qed.

(** **** What no run touches *)

Lemma kept_refl (d : IndexedDB) : database_kept d d.
Proof. now split. Qed.

Lemma kept_clear (o : DbOpen) (d0 d : IndexedDB) :
  database_kept d0 d -> database_kept d0 (clearSession o d).
Proof.
  intros (S & K). destruct o; [|now split]. split; [exact S|].
  intros k Hk. cbn [clearSession session]. rewrite lookup_delete_ne by congruence.
  now apply K.
Qed.

Lemma kept_save (o : DbOpen) (d0 : IndexedDB) (st : App) :
  database_kept d0 (db st) -> database_kept d0 (db (saveSession o st)).
Proof.
  intros (S & K). destruct o; [|now split]. split; [exact S|].
  intros k Hk. cbn [saveSession with_db db session].
  rewrite lookup_insert_ne by congruence. now apply K.
Qed.

Lemma confirm_resume_db (o : DbOpen) (st : App) :
  db (confirm_resume o st) = db (saveSession o st).
Proof.
  unfold confirm_resume.
  destruct (ScannerFacts.dispatch_frame (clear_draft (saveSession o st))) as (_ & _ & _ & ->).
  reflexivity.
Qed.

Lemma kept_resume (d0 : IndexedDB) (t : Interleaving.Task) (o : DbOpen) (e : Extraction)
    (rest : list Interleaving.Task) (p : Interleaving.Page) :
  database_kept d0 (db (Interleaving.app p)) ->
  database_kept d0 (db (Interleaving.app (Interleaving.resume t o e rest p))).
Proof.
  intros K. destruct t as [|f| | | |]; cbn [Interleaving.resume Interleaving.app].
  - destruct o; [|exact K]. cbn [DOMContentLoaded].
    now destruct (ScannerFacts.showCurrentStep_frame (Interleaving.app p))
      as (_ & _ & _ & _ & ->).
  - destruct (compressImage f); exact K.
  - rewrite confirm_resume_db. now apply kept_save.
  - exact K.
  - destruct (ScannerFacts.reset_flow_frame o (Interleaving.app p)) as (_ & _ & _ & _ & ->).
    now apply kept_clear.
  - now apply kept_clear.
Qed.

Lemma kept_fire (d0 : IndexedDB) (ev : Interleaving.Event) (p : Interleaving.Page) :
  database_kept d0 (db (Interleaving.app p)) ->
  database_kept d0 (db (Interleaving.app (Interleaving.fire ev p))).
Proof.
  intros K. destruct ev as [|picked| | |n o e]; cbn [Interleaving.fire].
  - exact K.
  - unfold Interleaving.choose. destruct (isProcessingFile _); [exact K|].
    destruct picked; exact K.
  - cbn [Interleaving.app].
    now destruct (ScannerFacts.retake_frame (Interleaving.app p)) as (_ & _ & _ & _ & ->).
  - unfold Interleaving.confirm_click. destruct (currentDraft _) as [d|] eqn:D; [|exact K].
    cbn [Interleaving.app]. unfold confirm_begin, push_draft. rewrite D. exact K.
  - destruct (nth_error _ n); [now apply kept_resume | exact K].
Qed.

Lemma reachable_kept (d0 : IndexedDB) (p : Interleaving.Page) :
  Interleaving.Reachable d0 p -> database_kept d0 (db (Interleaving.app p)).
Proof.
  induction 1 as [|ev p R IH E]; [apply kept_refl | now apply kept_fire].
Qed.

(** **** Sequential runs are runs *)

(** A state of a sequential run, as a state of the page: nothing relevant is
    suspended but the analysis, when it is running. *)
Definition settled_as (st : App) (p : Interleaving.Page) : Prop :=
  Interleaving.app p = st
  /\ Interleaving.picker p = false
  /\ (analysing st = true -> In Interleaving.Analysing (Interleaving.pending p)).

Lemma settled_page (st : App) (ts : list Interleaving.Task) :
  analysing st = false ->
  settled_as st {| Interleaving.app := st; Interleaving.pending := ts;
                   Interleaving.picker := false |}.
Proof. intros A. split; [reflexivity|]. split; [reflexivity|]. congruence. Qed.

Lemma loaded_not_analysing (d : IndexedDB) : analysing (loaded d) = false.
Proof. reflexivity. Qed.

Lemma change_not_analysing (st : App) (dataUri : DataURL) :
  analysing (change_begin st) = false
  /\ analysing (change_resume dataUri (change_begin st)) = false.
Proof. split; reflexivity. Qed.

Lemma reset_not_analysing (o : DbOpen) (st : App) : analysing (reset_flow o st) = false.
Proof. unfold reset_flow. apply showCurrentStep_not_analysing. Qed.

Lemma retake_not_analysing (st : App) : analysing (retakeButton_click st) = false.
Proof. unfold retakeButton_click. apply showCurrentStep_not_analysing. Qed.

Lemma settle_not_analysing (o : DbOpen) (e : Extraction) (st : App) :
  analysing (processImages_settle o e st) = false.
Proof. reflexivity. Qed.

(** The page loads: the DOMContentLoaded handler resumes. *)
Lemma boot_reachable (d0 : IndexedDB) (o : DbOpen) :
  exists p, Interleaving.Reachable d0 p /\ settled_as (boot o d0) p.
Proof.
  exists {| Interleaving.app := boot o d0; Interleaving.pending := [];
            Interleaving.picker := false |}.
  split; [|apply settled_page, boot_not_analysing].
  apply (reached d0 (Interleaving.Resume 0 o (ExtractionFailed "")) (Interleaving.start d0));
    [apply Interleaving.reach_start | reflexivity | reflexivity].
Qed.

(** The reload: the installed [onclick] resumes, then the DOMContentLoaded
    handler of the new page. *)
Lemma reload_reachable (d0 : IndexedDB) (o2 o3 : DbOpen) (st : App)
    (ts : list Interleaving.Task) (pk : bool) :
  Interleaving.Reachable d0
    {| Interleaving.app := st; Interleaving.pending := (ts ++ [Interleaving.Reloading])%list;
       Interleaving.picker := pk |} ->
  exists p, Interleaving.Reachable d0 p /\ settled_as (boot o3 (clearSession o2 (db st))) p.
Proof.
  intros R.
  exists {| Interleaving.app := boot o3 (clearSession o2 (db st)); Interleaving.pending := [];
            Interleaving.picker := false |}.
  split; [|apply settled_page, boot_not_analysing].
  apply (reached d0 (Interleaving.Resume 0 o3 (ExtractionFailed ""))
           {| Interleaving.app := loaded (clearSession o2 (db st));
              Interleaving.pending := [Interleaving.Loading];
              Interleaving.picker := false |}); [|reflexivity | reflexivity].
  apply (resume_last_reached d0 ts Interleaving.Reloading o2 (ExtractionFailed "") st pk _ R);
    reflexivity.
Qed.

Lemma scan_click_reachable (d0 : IndexedDB) (o1 o2 o3 : DbOpen) (picked : option File)
    (st : App) (p : Interleaving.Page) :
  Interleaving.Reachable d0 p -> settled_as st p -> scanShown (ui st) = true ->
  exists p', Interleaving.Reachable d0 p' /\ settled_as (scan_click o1 o2 o3 picked st) p'.
Proof.
  intros R (A & Pk & An) Sh. destruct p as [st' ts pk]. cbn in A, Pk, An. subst st' pk.
  assert (Click : Interleaving.Reachable d0
                    (Interleaving.scan_click
                       {| Interleaving.app := st; Interleaving.pending := ts;
                          Interleaving.picker := false |})).
  { apply (reached d0 Interleaving.ScanClick _ _ R); [exact Sh | reflexivity]. }
  unfold Interleaving.scan_click in Click. cbn [Interleaving.app Interleaving.pending
    Interleaving.picker] in Click.
  unfold scan_click, scanButton_click.
  destruct (scanReloads (ui st)) eqn:Rl.
  - unfold scanButton_onclick.
    destruct (2 <=? imageCounter st)%nat eqn:G.
    + destruct (ScannerFacts.reset_flow_frame o1 st) as (_ & _ & _ & _ & Db).
      rewrite Db, <- Db.
      apply (reload_reachable d0 o2 o3 (reset_flow o1 st) ts false).
      apply (resume_reached d0 ts [Interleaving.Reloading] Interleaving.Resetting o1
               (ExtractionFailed "") st false _ Click); reflexivity.
    + apply (reload_reachable d0 o2 o3 st ts
               (if isProcessingFile st then false else true)).
      rewrite app_nil_l in Click. exact Click.
  - rewrite app_nil_r in Click. destruct (2 <=? imageCounter st)%nat eqn:G.
    + exists {| Interleaving.app := reset_flow o1 st; Interleaving.pending := ts;
                Interleaving.picker := false |}.
      split; [|apply settled_page, reset_not_analysing].
      apply (resume_last_reached d0 ts Interleaving.Resetting o1 (ExtractionFailed "") st
               false _ Click); reflexivity.
    + rewrite app_nil_r in Click. destruct (isProcessingFile st) eqn:Pr.
      * exists {| Interleaving.app := st; Interleaving.pending := ts;
                  Interleaving.picker := false |}.
        split; [exact Click | now split].
      * assert (Chosen : Interleaving.Reachable d0
                           (Interleaving.choose picked
                              {| Interleaving.app := st; Interleaving.pending := ts;
                                 Interleaving.picker := true |})).
        { apply (reached d0 (Interleaving.Choose picked) _ _ Click); reflexivity. }
        unfold Interleaving.choose in Chosen. cbn [Interleaving.app Interleaving.pending] in Chosen.
        rewrite Pr in Chosen. unfold fileInput_change. rewrite Pr.
        destruct picked as [f|].
        2:{ exists {| Interleaving.app := st; Interleaving.pending := ts;
                      Interleaving.picker := false |}. split; [exact Chosen | now split]. }
        destruct (compressImage f) as [dataUri|] eqn:C.
        -- exists {| Interleaving.app := change_resume dataUri (change_begin st);
                     Interleaving.pending := ts; Interleaving.picker := false |}.
           split; [|apply settled_page, change_not_analysing].
           apply (resume_last_reached d0 ts (Interleaving.Compressing f) Opened
                    (ExtractionFailed "") (change_begin st) false _ Chosen).
           ++ cbn [Interleaving.can_resume]. now rewrite C.
           ++ cbn [Interleaving.resume Interleaving.app Interleaving.picker].
              now rewrite C.
        -- exists {| Interleaving.app := change_begin st;
                     Interleaving.pending := (ts ++ [Interleaving.Compressing f])%list;
                     Interleaving.picker := false |}.
           split; [exact Chosen|]. apply settled_page, (change_not_analysing st NoPixels).
Qed.

Lemma confirm_reachable (d0 : IndexedDB) (o : DbOpen) (st : App) (p : Interleaving.Page) :
  Interleaving.Reachable d0 p -> settled_as st p -> reviewHidden (ui st) = false ->
  exists p', Interleaving.Reachable d0 p' /\ settled_as (confirmButton_click o st) p'.
Proof.
  intros R (A & Pk & An) Sh. destruct p as [st' ts pk]. cbn in A, Pk, An. subst st' pk.
  destruct (currentDraft st) as [d|] eqn:D.
  2:{ exists {| Interleaving.app := st; Interleaving.pending := ts;
                Interleaving.picker := false |}.
      unfold confirmButton_click. rewrite D. split; [exact R | now split]. }
  assert (Click : Interleaving.Reachable d0
                    {| Interleaving.app := confirm_begin st;
                       Interleaving.pending := (ts ++ [Interleaving.Saving])%list;
                       Interleaving.picker := false |}).
  { apply (reached d0 Interleaving.ConfirmClick _ _ R).
    - cbn. now rewrite Sh.
    - cbn [Interleaving.fire]. unfold Interleaving.confirm_click. cbn [Interleaving.app].
      now rewrite D. }
  assert (E : confirmButton_click o st = confirm_resume o (confirm_begin st))
    by (now rewrite (ScannerFacts.confirm_run o st d D)).
  rewrite E.
  exists {| Interleaving.app := confirm_resume o (confirm_begin st);
            Interleaving.pending :=
              (ts ++ (if (2 <=? imageCounter (confirm_resume o (confirm_begin st)))%nat
                      then [Interleaving.Analysing] else []))%list;
            Interleaving.picker := false |}.
  split.
  - apply (resume_last_reached d0 ts Interleaving.Saving o (ExtractionFailed "")
             (confirm_begin st) false _ Click); reflexivity.
  - split; [reflexivity|]. split; [reflexivity|]. cbn [Interleaving.pending].
    unfold confirm_resume at 1. rewrite dispatch_analysing.
    destruct (ScannerFacts.dispatch_frame (clear_draft (saveSession o (confirm_begin st))))
      as (Ic & _). unfold confirm_resume. rewrite Ic. intros ->.
    apply in_or_app. right. now left.
Qed.

Lemma settle_reachable (d0 : IndexedDB) (o : DbOpen) (e : Extraction) (st : App)
    (p : Interleaving.Page) :
  Interleaving.Reachable d0 p -> settled_as st p -> analysing st = true ->
  exists p', Interleaving.Reachable d0 p' /\ settled_as (processImages_settle o e st) p'.
Proof.
  intros R (A & Pk & An) Ing. destruct p as [st' ts pk]. cbn in A, Pk, An. subst st' pk.
  destruct (In_nth_error _ _ (An Ing)) as [n N].
  exists {| Interleaving.app := processImages_settle o e st;
            Interleaving.pending := Interleaving.remove_nth n ts;
            Interleaving.picker := false |}.
  split; [|apply settled_page, settle_not_analysing].
  apply (reached d0 (Interleaving.Resume n o e) _ _ R).
  - cbn [Interleaving.enabled Interleaving.pending]. now rewrite N.
  - cbn [Interleaving.fire Interleaving.pending]. now rewrite N.
Qed.

(** Every state of a sequential run is the state of the page in a run. *)
Lemma sequential_reachable (d0 : IndexedDB) (st : App) :
  Sequential d0 st ->
  exists p, Interleaving.Reachable d0 p /\ settled_as st p.
Proof.
  induction 1 as [o|ev st S (p & R & Sa) E]; [apply boot_reachable|].
  destruct ev as [o1 o2 o3 picked | | o | o e]; cbn [apply_event enabled] in *.
  - now apply (scan_click_reachable d0 o1 o2 o3 picked st p).
  - destruct Sa as (A & Pk & An). destruct p as [st' ts pk]. cbn in A, Pk, An. subst st' pk.
    exists {| Interleaving.app := retakeButton_click st; Interleaving.pending := ts;
              Interleaving.picker := false |}.
    split; [|apply settled_page, retake_not_analysing].
    apply (reached d0 Interleaving.RetakeClick _ _ R); [exact E | reflexivity].
  - apply negb_true_iff in E. now apply (confirm_reachable d0 o st p).
  - now apply (settle_reachable d0 o e st p).
Qed.

(** **** Clicks that arrive while a handler is suspended *)

(** Three clicks on confirm while the first photo is under review: each
    click finds the draft still there and the review panel still shown, so the
    same photo is appended three times and the counter reaches 3. *)
Lemma hasty_confirms_outrun :
  let p := play hasty_confirms (Interleaving.start keyed_db) in
  Interleaving.Reachable keyed_db p
  /\ imageCounter (Interleaving.app p) = 3%nat
  /\ capturedImages (Interleaving.app p) = [first_shot; first_shot; first_shot]
  /\ Interleaving.pending p
     = [Interleaving.Saving; Interleaving.Saving; Interleaving.Saving].
Proof.
  cbn zeta. split; [|now vm_compute].
  apply play_reachable; [apply Interleaving.reach_start | now vm_compute].
Qed.

(** When the first of them resumes and the database opens, the record it
    saves holds the counter 3 and the three copies. *)
Lemma hasty_confirms_saved :
  exists p,
    Interleaving.Reachable keyed_db p
    /\ session (db (Interleaving.app p)) !! SESSION_ID
       = Some {| saved_imageCounter := 3;
                 saved_capturedImages := [first_shot; first_shot; first_shot] |}.
Proof.
  pose proof hasty_confirms_outrun as O. cbn zeta in O. revert O.
  generalize (play hasty_confirms (Interleaving.start keyed_db)).
  intros p (R & C & I & P).
  exists (Interleaving.fire (Interleaving.Resume 0 Opened (ExtractionFailed "")) p). split.
  - apply Interleaving.reach_step; [exact R|]. cbn [Interleaving.enabled]. now rewrite P.
  - cbn [Interleaving.fire]. rewrite P.
    cbn [nth_error Interleaving.resume Interleaving.app]. rewrite confirm_resume_db.
    cbn [saveSession with_db db session]. rewrite lookup_insert_eq, C, I. reflexivity.
Qed.

End Interleaved.

(** X6. As long as every handler has run to its end before the next click or
    choice arrives, the confirmed images number exactly the step counter and at
    most two, a draft is under review only at step 0 or 1, with as many
    confirmed images as the step says, and the analysis starts with exactly two
    confirmed images; every such state is one the page can really be in.  The
    proviso matters: three clicks on confirm, before the first handler is back
    from saving, append the draft three times and bring the counter to 3. *)
Theorem wizard_progress_coherent `{Host} (d0 : IndexedDB) (st : App) :
  Sequential d0 st ->
  ((List.length (capturedImages st) = imageCounter st /\ (imageCounter st <= 2)%nat)
   /\ (forall i d, phase st = Reviewing i d ->
         (i < 2)%nat /\ List.length (capturedImages st) = i)
   /\ (phase st = Finalizing -> List.length (capturedImages st) = 2%nat))
  /\ (exists p, Interleaving.Reachable d0 p /\ Interleaving.app p = st)
  /\ (exists p, Interleaving.Reachable keyed_db p
                /\ imageCounter (Interleaving.app p) = 3%nat
                /\ List.length (capturedImages (Interleaving.app p)) = 3%nat).
Proof.
  intros R. destruct (sequential_coherent d0 st R) as (L & B & D & A).
  split; [|split].
  - split; [now split|]. split.
    + intros i d. unfold phase. destruct (currentDraft st) as [d'|] eqn:E.
      * intros [= <- <-]. split; [apply D; congruence | exact L].
      * destruct (imageCounter st <? 2)%nat; [discriminate|].
        destruct (negb (loadingHidden (ui st))); [discriminate|].
        destruct (results (ui st)); discriminate.
    + unfold phase. destruct (currentDraft st); [discriminate|].
      destruct (Nat.ltb_spec (imageCounter st) 2); [discriminate|]. intros _. lia.
  - destruct (sequential_reachable d0 st R) as (p & Rp & Ep & _). now exists p.
  - destruct hasty_confirms_outrun as (Rp & C & I & _).
    eexists. split; [exact Rp|]. split; [exact C|]. now rewrite I.
Qed.

(** X6 at the state in which the analysis of two photos has started. *)
Lemma wizard_progress_finalizing :
  phase finalizing = Finalizing /\ List.length (capturedImages finalizing) = 2%nat.
Proof.
  split; [reflexivity|].
  destruct (wizard_progress_coherent keyed_db finalizing finalizing_sequential)
    as ((_ & _ & F) & _).
  exact (F eq_refl).
Defined.

(** X7. Whatever the user does in the wizard, and in whatever order clicks,
    choices and the continuations of suspended handlers arrive, the settings
    store, and with it the stored API key, stays as it was when the page
    loaded, and so does every entry of the session store other than the
    wizard's own record.  This covers the states of the sequential runs. *)
Theorem wizard_leaves_settings_alone `{Host} (d0 : IndexedDB) :
  (forall p, Interleaving.Reachable d0 p ->
     settings (db (Interleaving.app p)) = settings d0
     /\ getKey (db (Interleaving.app p)) = getKey d0
     /\ (forall k, k <> SESSION_ID ->
           session (db (Interleaving.app p)) !! k = session d0 !! k))
  /\ (forall st, Sequential d0 st ->
        settings (db st) = settings d0
        /\ getKey (db st) = getKey d0
        /\ (forall k, k <> SESSION_ID -> session (db st) !! k = session d0 !! k)).
Proof.
  assert (All : forall p, Interleaving.Reachable d0 p ->
            settings (db (Interleaving.app p)) = settings d0
            /\ getKey (db (Interleaving.app p)) = getKey d0
            /\ (forall k, k <> SESSION_ID ->
                  session (db (Interleaving.app p)) !! k = session d0 !! k)).
  { intros p R. destruct (reachable_kept d0 p R) as (S & K).
    split; [exact S|]. split; [unfold getKey; now rewrite S | exact K]. }
  split; [exact All|]. intros st S.
  destruct (sequential_reachable d0 st S) as (p & R & <- & _). now apply All.
Qed.

(** X7 at the state in which the analysis has started. *)
Lemma wizard_leaves_key_finalizing : getKey (db finalizing) = Some "secret".
Proof.
  destruct (wizard_leaves_settings_alone keyed_db) as (_ & Seq).
  destruct (Seq finalizing finalizing_sequential) as (_ & K & _).
  rewrite K. reflexivity.
Defined.

(** X8. Starting from a database without a saved session, and as long as
    every handler has run to its end before the next click or choice arrives,
    any session record the wizard has left in the store is coherent: its
    counter is 1 or 2 and equals the number of images saved with it.  The
    proviso matters: after three hasty clicks on confirm the record saved
    holds the counter 3. *)
Theorem saved_session_coherent `{Host} (d0 : IndexedDB) (st : App) (r : SessionData) :
  Sequential d0 st ->
  session d0 !! SESSION_ID = None ->
  session (db st) !! SESSION_ID = Some r ->
  (saved_imageCounter r = List.length (saved_capturedImages r)
   /\ (1 <= saved_imageCounter r <= 2)%nat)
  /\ (exists p r',
         Interleaving.Reachable keyed_db p
         /\ session keyed_db !! SESSION_ID = None
         /\ session (db (Interleaving.app p)) !! SESSION_ID = Some r'
         /\ saved_imageCounter r' = 3%nat).
Proof.
  intros R N E. split.
  - destruct (sequential_footprint d0 st R) as (_ & _ & C). exact (C N r E).
  - destruct hasty_confirms_saved as (p & Rp & Sv).
    exists p. eexists. split; [exact Rp|]. split; [reflexivity|].
    split; [exact Sv | reflexivity].
Qed.

(** X8 at the record saved by the second confirm. *)
Lemma saved_session_finalizing :
  exists r, session (db finalizing) !! SESSION_ID = Some r /\ saved_imageCounter r = 2%nat.
Proof.
  eexists. split; [reflexivity|].
  destruct (saved_session_coherent keyed_db finalizing _ finalizing_sequential
              eq_refl eq_refl) as ((E & _) & _).
  rewrite E. reflexivity.
Defined.

(** X9. A picked file that the browser cannot decode blocks the wizard: the
    compression promise never settles, so the processing flag stays set and
    the overlay stays up, nothing is drafted, and every later click on the scan
    button, whatever file is chosen, changes nothing. *)
Theorem undecodable_file_blocks (o1 o2 o3 : DbOpen) (f : File) (st : App) :
  decoded f = None ->
  isProcessingFile st = false ->
  scanReloads (ui st) = false ->
  (imageCounter st < 2)%nat ->
  let stuck := scan_click o1 o2 o3 (Some f) st in
  (isProcessingFile stuck = true /\ loadingHidden (ui stuck) = false)
  /\ (currentDraft stuck = currentDraft st /\ capturedImages stuck = capturedImages st
      /\ imageCounter stuck = imageCounter st /\ db stuck = db st)
  /\ (forall o1' o2' o3' picked, scan_click o1' o2' o3' picked stuck = stuck)
  /\ (forall picked, fileInput_change picked stuck = stuck).
Proof.
  intros D P S C stuck.
  assert (E : stuck = with_ui (set_loading false ProcessingImage) (with_processing true st)).
  { subst stuck. unfold scan_click. rewrite S.
    destruct (Nat.leb_spec 2 (imageCounter st)); [lia|]. rewrite P.
    unfold fileInput_change, compressImage. now rewrite P, D. }
  rewrite E. split; [now cbn|]. split; [now cbn|]. split.
  - intros o1' o2' o3' picked. unfold scan_click. cbn [with_ui with_processing ui scanReloads
      set_loading imageCounter isProcessingFile]. rewrite S.
    destruct (Nat.leb_spec 2 (imageCounter st)); [lia | reflexivity].
  - intros picked. reflexivity.
Qed.

(** X9 at the first step of a fresh page. *)
Lemma undecodable_file_first_step :
  decoded unreadable_file = None
  /\ isProcessingFile
       (scan_click Opened Opened Opened (Some unreadable_file) (boot Opened keyed_db)) = true
  /\ scan_click Opened Opened Opened (Some (photo 800 600 1))
       (scan_click Opened Opened Opened (Some unreadable_file) (boot Opened keyed_db))
     = scan_click Opened Opened Opened (Some unreadable_file) (boot Opened keyed_db).
Proof.
  split; [reflexivity|].
  assert (C : (imageCounter (boot Opened keyed_db) < 2)%nat) by (vm_compute; lia).
  destruct (undecodable_file_blocks Opened Opened Opened unreadable_file
              (boot Opened keyed_db) eq_refl eq_refl eq_refl C) as ((P & _) & _ & Again & _).
  split; [exact P | apply Again].
Defined.

(** X10. What [saveSession] writes, [loadSession] reads back: after a reload
    the saved counter and images would be restored exactly.  The page itself
    never calls it and starts from step 0 with no image. *)
Theorem session_round_trip (o' : DbOpen) (st : App) :
  let reloaded := boot o' (db (saveSession Opened st)) in
  (imageCounter reloaded = 0%nat /\ capturedImages reloaded = [])
  /\ snd (loadSession Opened reloaded) = true
  /\ imageCounter (fst (loadSession Opened reloaded)) = imageCounter st
  /\ capturedImages (fst (loadSession Opened reloaded)) = capturedImages st
  /\ (forall o, snd (loadSession o (boot o' (clearSession Opened (db reloaded)))) = false).
Proof.
  cbn zeta.
  assert (D : forall d, db (boot o' d) = d).
  { intros d. now destruct (ScannerFacts.boot_frame o' d) as (_ & _ & _ & _ & ->). }
  split; [destruct (ScannerFacts.boot_frame o' (db (saveSession Opened st)))
            as (-> & -> & _); now split|].
  unfold loadSession. rewrite !D. cbn [saveSession with_db db session].
  rewrite lookup_insert_eq. cbn [fst snd with_progress imageCounter capturedImages
    saved_imageCounter saved_capturedImages].
  repeat split. intros o. destruct o; [|reflexivity].
  cbn [clearSession session]. now rewrite lookup_delete_eq.
Qed.

(** X11. The API key round trip: a saved key is read back, a deleted key is
    absent, neither touches the session store, and saving or clearing the
    session never changes the key. *)
Theorem key_round_trip (key : string) (d : IndexedDB) (o : DbOpen) (st : App) :
  getKey (saveKey key d) = Some key
  /\ getKey (deleteKey (saveKey key d)) = None
  /\ (session (saveKey key d) = session d /\ session (deleteKey d) = session d)
  /\ getKey (db (saveSession o st)) = getKey (db st)
  /\ getKey (clearSession o d) = getKey d.
Proof.
  unfold getKey, saveKey, deleteKey. cbn [settings session].
  split; [apply lookup_insert_eq|]. split; [apply lookup_delete_eq|].
  split; [now split|]. split; destruct o; reflexivity.
Qed.

(** X12. With no API key stored, or an empty one, the analysis never shows a
    result: whatever the model would have answered, the results pane holds the
    missing-key error, and the wizard ends in Error. *)
Theorem missing_key_blocks_analysis `{Host} (e : Extraction) (st : App) :
  getKey (db st) = None \/ getKey (db st) = Some "" ->
  currentDraft st = None ->
  results (ui (processImages_settle Opened e st)) = ErrorMessage MissingKey
  /\ resultsHidden (ui (processImages_settle Opened e st)) = false
  /\ phase (processImages_settle Opened e st) = Error.
Proof.
  intros K D.
  assert (A : attempt Opened e st = ErrorMessage MissingKey).
  { unfold attempt. destruct K as [-> | ->]; reflexivity. }
  unfold phase, processImages_settle.
  cbn [ui results resultsHidden currentDraft imageCounter loadingHidden negb Nat.ltb Nat.leb].
  rewrite D, A. now repeat split.
Qed.

(** X12 at a session of two photos taken without a key. *)
Lemma missing_key_two_photos :
  getKey (db finalizing_without_key) = None
  /\ phase (processImages_settle Opened (Extracted confident_record) finalizing_without_key)
     = Error.
Proof.
  split; [reflexivity|].
  destruct (missing_key_blocks_analysis (Extracted confident_record) finalizing_without_key
              (or_introl eq_refl) eq_refl) as (_ & _ & P).
  exact P.
Defined.

(** X13. However the analysis ends, the scan button is shown again and a
    click on it, whatever is picked, leaves a freshly loaded page: step 0, no
    image, no draft, the session record cleared by each handler whose database
    opens, the settings untouched. *)
Theorem settle_then_click_restarts `{Host} (o o1 o2 o3 : DbOpen) (e : Extraction)
    (picked : option File) (st : App) :
  let settled := processImages_settle o e st in
  enabled (ScanClick o1 o2 o3 picked) settled = true
  /\ scan_click o1 o2 o3 picked settled
     = boot o3 (clearSession o2 (clearSession o1 (db st)))
  /\ phase (scan_click o1 o2 o3 picked settled) = Idle 0
  /\ getKey (db (scan_click o1 o2 o3 picked settled)) = getKey (db st).
Proof.
  cbn zeta.
  assert (E : scan_click o1 o2 o3 picked (processImages_settle o e st)
              = boot o3 (clearSession o2 (clearSession o1 (db st)))).
  { unfold scan_click. cbn [processImages_settle ui scanReloads].
    unfold scanButton_onclick, scanButton_click.
    change (imageCounter (processImages_settle o e st)) with 2%nat. cbn [Nat.leb].
    now destruct (ScannerFacts.reset_flow_frame o1 (processImages_settle o e st))
      as (_ & _ & _ & _ & ->). }
  split; [reflexivity|]. split; [exact E|]. rewrite E.
  destruct (ScannerFacts.boot_frame o3 (clearSession o2 (clearSession o1 (db st))))
    as (C & _ & D & _ & Db).
  split.
  - rewrite <- C. apply ScannerFacts.phase_idle; [exact D | rewrite C; lia].
  - rewrite Db. unfold getKey. destruct o1, o2; reflexivity.
Qed.

(** X27. The whole capture flow: on a freshly loaded page, picking a
    decodable file, confirming, picking a second one and confirming leads
    through Reviewing(0), Idle(1) and Reviewing(1) to Finalizing, with exactly
    the two compressed images as confirmed images, in order; when the database
    opens at the second confirm, the record saved is the counter 2 with those
    two images. *)
Theorem two_confirms_start_analysis (d0 : IndexedDB) (f1 f2 : File) (c1 c2 : DataURL)
    (o0 a b c a' b' c' o1 o2 : DbOpen) :
  compressImage f1 = Some c1 ->
  compressImage f2 = Some c2 ->
  let st1 := scan_click a b c (Some f1) (boot o0 d0) in
  let st2 := confirmButton_click o1 st1 in
  let st3 := scan_click a' b' c' (Some f2) st2 in
  let st4 := confirmButton_click o2 st3 in
  (phase st1 = Reviewing 0 c1 /\ phase st2 = Idle 1
   /\ phase st3 = Reviewing 1 c2 /\ phase st4 = Finalizing)
  /\ capturedImages st4 = [c1; c2]
  /\ (o2 = Opened ->
      session (db st4) !! SESSION_ID
      = Some {| saved_imageCounter := 2; saved_capturedImages := [c1; c2] |}).
Proof.
  intros C1 C2. cbn zeta.
  assert (E1 : scan_click a b c (Some f1) (boot o0 d0)
               = change_resume c1 (change_begin (boot o0 d0))).
  { unfold scan_click, fileInput_change. destruct o0; cbn; now rewrite C1. }
  rewrite E1. clear E1.
  set (st1 := change_resume c1 _).
  assert (D1 : currentDraft st1 = Some c1) by reflexivity.
  assert (P1 : phase st1 = Reviewing 0 c1) by (subst st1; now destruct o0).
  assert (I0 : capturedImages st1 = [] /\ imageCounter st1 = 0%nat)
    by (subst st1; now destruct o0).
  destruct I0 as (I0 & N0).
  destruct (ScannerFacts.confirm_progress o1 st1 c1 D1) as (I1 & N1 & Dr1).
  rewrite I0 in I1. rewrite N0 in N1. cbn [app] in I1.
  set (st2 := confirmButton_click o1 st1) in *.
  assert (P2 : phase st2 = Idle 1).
  { replace 1%nat with (imageCounter st2) by exact N1.
    apply ScannerFacts.phase_idle; [exact Dr1 | rewrite N1; cbn; lia]. }
  assert (S2 : scanReloads (ui st2) = false /\ isProcessingFile st2 = false).
  { subst st2. rewrite (ScannerFacts.confirm_run o1 st1 c1 D1).
    subst st1. destruct o0, o1; now cbn. }
  destruct S2 as (R2 & Pr2).
  assert (E3 : scan_click a' b' c' (Some f2) st2 = change_resume c2 (change_begin st2)).
  { unfold scan_click, fileInput_change. rewrite R2, N1, Pr2. cbn [Nat.leb]. now rewrite C2. }
  rewrite E3. clear E3.
  set (st3 := change_resume c2 _).
  assert (D3 : currentDraft st3 = Some c2) by reflexivity.
  assert (N3 : imageCounter st3 = 1%nat) by exact N1.
  assert (I3 : capturedImages st3 = [c1]) by exact I1.
  assert (P3 : phase st3 = Reviewing 1 c2) by (unfold phase; now rewrite D3, N3).
  destruct (ScannerFacts.confirm_progress o2 st3 c2 D3) as (I4 & N4 & Dr4).
  rewrite I3 in I4. rewrite N3 in N4.
  split; [|split; [exact I4|]].
  - repeat split; try assumption.
    rewrite (ScannerFacts.confirm_run o2 st3 c2 D3), ScannerFacts.dispatch_phase by reflexivity.
    destruct (ScannerFacts.clear_draft_frame
                (saveSession o2 (increment_counter (push_draft st3)))) as (-> & _).
    destruct (ScannerFacts.saveSession_frame o2 (increment_counter (push_draft st3)))
      as (-> & _).
    unfold push_draft. rewrite D3. cbn [increment_counter with_progress imageCounter].
    now rewrite N3.
  - intros ->. rewrite (ScannerFacts.confirm_run Opened st3 c2 D3).
    destruct (ScannerFacts.dispatch_frame
                (clear_draft (saveSession Opened (increment_counter (push_draft st3)))))
      as (_ & _ & _ & ->).
    destruct (ScannerFacts.clear_draft_frame
                (saveSession Opened (increment_counter (push_draft st3)))) as (_ & _ & _ & ->).
    unfold push_draft. rewrite D3.
    cbn [saveSession increment_counter with_progress with_db db session imageCounter
         capturedImages].
    rewrite lookup_insert_eq, N3, I3. reflexivity.
Qed.

(** X27 with two photos on a page that has a key stored. *)
Lemma two_photos_start_analysis :
  (compressImage (photo 1920 1080 1) = Some first_shot
   /\ compressImage (photo 1920 1080 2) = Some second_shot)
  /\ capturedImages
       (confirmButton_click Opened
          (scan_click Opened Opened Opened (Some (photo 1920 1080 2))
             (confirmButton_click Opened
                (scan_click Opened Opened Opened (Some (photo 1920 1080 1))
                   (boot Opened keyed_db)))))
     = [first_shot; second_shot].
Proof.
  split; [now split|].
  exact (proj1 (proj2 (two_confirms_start_analysis keyed_db
                         (photo 1920 1080 1) (photo 1920 1080 2) first_shot second_shot
                         Opened Opened Opened Opened Opened Opened Opened Opened Opened
                         eq_refl eq_refl))).
Defined.

End WizardFacts.

(** ** More on normalisation and presentation *)

Module CaptureMore.
Import Scanner.

Lemma Math_round_div_nonneg (n d : Z) : 0 <= n -> 0 < d -> 0 <= Math_round_div n d.
Proof. intros Hn Hd. unfold Math_round_div. apply Z.div_pos; lia. Qed.

Lemma Math_round_div_small (n d : Z) : 0 <= n -> 2 * n < d -> Math_round_div n d = 0.
Proof. intros Hn Hd. unfold Math_round_div. apply Z.div_small. lia. Qed.

(** X14. [compressImage] never enlarges a picture: for non-negative source
    dimensions each edge of the canvas it encodes is between 0 and the smaller
    of the source edge and 1024, and compressing a picture of the size of that
    canvas keeps the size. *)
Theorem compression_never_enlarges (img : Image) :
  0 <= img_width img -> 0 <= img_height img ->
  exists w h,
    scaled_size (img_width img) (img_height img) = (w, h)
    /\ compressImage (file_of img) = Some (toDataURL "image/jpeg" (Qmake 8 10) w h img)
    /\ 0 <= w <= Z.min (img_width img) 1024
    /\ 0 <= h <= Z.min (img_height img) 1024
    /\ forall n,
         let again := {| img_width := w; img_height := h; img_content := n |} in
         scaled_size w h = (w, h)
         /\ compressImage (file_of again)
            = Some (toDataURL "image/jpeg" (Qmake 8 10) w h again).
Proof.
  intros Hw Hh. unfold compressImage, file_of. cbn [decoded].
  set (W := img_width img) in *. set (H := img_height img) in *.
  assert (Again : forall w h, 0 <= w <= 1024 -> 0 <= h <= 1024 -> scaled_size w h = (w, h)).
  { intros w h Bw Bh.
    destruct (CaptureFacts.scaled_size_cases w h) as [(_ & M & _) | [(_ & M & _) | (_ & _ & E)]];
      unfold MAX in *; [lia | lia | exact E]. }
  destruct (CaptureFacts.scaled_size_cases W H) as [(L & M & E) | [(L & M & E) | (L & M & E)]];
    rewrite E; unfold MAX in *; eexists _, _; (split; [reflexivity|]);
    (split; [reflexivity|]).
  - pose proof (CaptureFacts.Math_round_div_le (H * 1024) W H ltac:(lia) ltac:(nia)).
    pose proof (CaptureFacts.Math_round_div_le (H * 1024) W 1024 ltac:(lia) ltac:(nia)).
    pose proof (Math_round_div_nonneg (H * 1024) W ltac:(lia) ltac:(lia)).
    split; [lia|]. split; [lia|]. intros n. cbn [img_width img_height].
    rewrite Again by lia. now split.
  - pose proof (CaptureFacts.Math_round_div_le (W * 1024) H W ltac:(lia) ltac:(nia)).
    pose proof (CaptureFacts.Math_round_div_le (W * 1024) H 1024 ltac:(lia) ltac:(nia)).
    pose proof (Math_round_div_nonneg (W * 1024) H ltac:(lia) ltac:(lia)).
    split; [lia|]. split; [lia|]. intros n. cbn [img_width img_height].
    rewrite Again by lia. now split.
  - split; [lia|]. split; [lia|]. intros n. cbn [img_width img_height].
    rewrite Again by lia. now split.
Qed.

(** X14 at a 4000 x 3000 photo. *)
Lemma compression_of_large_photo :
  exists w h,
    scaled_size 4000 3000 = (w, h)
    /\ compressImage (file_of (image 4000 3000))
       = Some (Encoded {| mime := "image/jpeg"; quality := Qmake 8 10;
                          width := 1024; height := 768; content := 0 |})
    /\ w = 1024 /\ h = 768.
Proof.
  destruct (compression_never_enlarges (image 4000 3000)) as (w & h & S & E & _);
    [cbn; lia | cbn; lia |].
  exists w, h. split; [exact S|]. cbn in S. injection S as <- <-.
  split; [exact E | now split].
Defined.

(** X15. The rounding can collapse the short edge: a picture more than 2048
    times as wide as it is high is drawn on a canvas 1024 wide and 0 high, and
    one more than 2048 times as high as wide on a canvas 0 wide and 1024
    high. *)
Theorem elongated_picture_collapses (w h : Z) :
  1 <= h -> 2048 * h < w ->
  scaled_size w h = (1024, 0) /\ scaled_size h w = (0, 1024).
Proof.
  intros Hh Hw. split.
  - destruct (CaptureFacts.scaled_size_cases w h) as [(L & M & E) | [(L & M & E) | (L & M & E)]];
      unfold MAX in *; try lia.
    rewrite E, Math_round_div_small by lia. reflexivity.
  - destruct (CaptureFacts.scaled_size_cases h w) as [(L & M & E) | [(L & M & E) | (L & M & E)]];
      unfold MAX in *; try lia.
    rewrite E, Math_round_div_small by lia. reflexivity.
Qed.

(** X15 at a 5000 x 2 strip. *)
Lemma strip_collapses : scaled_size 5000 2 = (1024, 0) /\ scaled_size 2 5000 = (0, 1024).
Proof. apply (elongated_picture_collapses 5000 2); lia. Defined.

Section WithHost.
Context `{Host}.

Lemma str_length_positive (c : ascii) (s : string) :
  gt_num (field (JStr (String c s)) "length") 0 = Some true.
Proof.
  unfold field, prop, gt_num.
  cbn [String.eqb Ascii.eqb Bool.eqb ToNumber str_length option_map].
  f_equal. apply negb_true_iff. destruct (Qle_bool _ 0) eqn:E; [|reflexivity].
  apply Qle_bool_iff in E. unfold Qle in E. cbn [Qnum Qden inject_Z] in E.
  unfold utf16_length in E. cbn [count_code_points] in E.
  assert (1 <= units_of_lead c)%nat by (unfold units_of_lead; destruct (_ <? _)%nat; lia).
  lia.
Qed.

Lemma text_warnings_raise (c : ascii) (s : string) :
  warnings_markup (JStr (String c s)) = None.
Proof. unfold warnings_markup. cbn [truthy String.eqb negb]. now rewrite str_length_positive. Qed.

(** X16. Warnings given as a non-empty text instead of a list break the
    presentation of an otherwise complete, confident record: building the
    markup raises, and with a key stored the page shows the error pane instead
    of the drug. *)
Theorem text_warnings_break_rendering (data : JSValue) (c : ascii) (s : string) :
  not_identified data = Some false ->
  prop (field data "details") "usage" <> None ->
  field data "warnings" = JStr (String c s) ->
  displayResult data = None
  /\ (forall st key, getKey (db st) = Some key -> key <> "" ->
        attempt Opened (Extracted data) st = ErrorMessage RenderError).
Proof.
  intros N U W.
  assert (D : displayResult data = None).
  { unfold displayResult. rewrite N, W, text_warnings_raise.
    repeat match goal with
           | |- match ?x with Some _ => _ | None => None end = None =>
               destruct x; [|reflexivity]
           end.
    reflexivity. }
  split; [exact D|]. intros st key K Ne. unfold attempt. rewrite K, D.
  destruct (String.eqb_spec key ""); [contradiction | reflexivity].
Qed.

End WithHost.

(** X16 at a record whose warnings are the text liver. *)
Lemma text_warnings_example :
  not_identified text_warnings_record = Some false
  /\ displayResult text_warnings_record = None.
Proof.
  split; [now vm_compute|].
  destruct (text_warnings_break_rendering text_warnings_record "l" "iver") as [D _];
    [now vm_compute | discriminate | reflexivity | exact D].
Defined.

End CaptureMore.

(** ** Cleaning the model's reply *)

Module ReplyFacts.
Import Reply.

Lemma drop_prefix_app (p s : list ascii) : drop_prefix p (p ++ s) = Some s.
Proof.
  induction p as [|a p IH]; [now destruct s|]. cbn [drop_prefix app].
  now rewrite Ascii.eqb_refl.
Qed.

Lemma drop_prefix_some (p s r : list ascii) : drop_prefix p s = Some r -> s = (p ++ r)%list.
Proof.
  revert s. induction p as [|a p IH]; intros s.
  - destruct s; intros [= <-]; reflexivity.
  - destruct s as [|b s]; [discriminate|]. cbn [drop_prefix].
    destruct (Ascii.eqb_spec a b) as [<- | _]; [|discriminate].
    intros E. cbn. f_equal. now apply IH.
Qed.

Lemma drop_suffix_app (p s : list ascii) : drop_suffix p (s ++ p) = Some s.
Proof.
  unfold drop_suffix. rewrite rev_app_distr, drop_prefix_app. cbn.
  now rewrite rev_involutive.
Qed.

Lemma drop_suffix_some (p s r : list ascii) : drop_suffix p s = Some r -> s = (r ++ p)%list.
Proof.
  unfold drop_suffix. destruct (drop_prefix (List.rev p) (List.rev s)) as [t|] eqn:E;
    [|discriminate].
  intros [= <-]. apply drop_prefix_some in E.
  rewrite <- (rev_involutive s), E, rev_app_distr, rev_involutive. reflexivity.
Qed.

Lemma list_ascii_app (a b : string) :
  list_ascii_of_string (a +:+ b) = (list_ascii_of_string a ++ list_ascii_of_string b)%list.
Proof.
  induction a as [|c a IH]; [reflexivity|].
  change (String c a +:+ b) with (String c (a +:+ b)). cbn. now rewrite IH.
Qed.

(** X17. The cleaning of the model's reply undoes a json code fence: whatever
    [body] is, the fenced text is handed to [JSON.parse] as the trimmed body;
    and a text that neither starts with the opening fence nor ends with the
    closing one is only trimmed. *)
Theorem fence_is_removed (trim : string -> string) (body text : string) :
  clean_reply trim (fenced body) = trim body
  /\ ((forall rest, text <> "```json" +:+ rest) ->
      (forall front, text <> front +:+ "```") ->
      clean_reply trim text = trim text).
Proof.
  split.
  - unfold clean_reply, fenced. rewrite list_ascii_app.
    change (list_ascii_of_string "```json") with opening_fence.
    cbn [list_ascii_of_string]. rewrite list_ascii_app. cbn [list_ascii_of_string].
    change (list_ascii_of_string "```") with closing_fence.
    unfold strip_opening_fence. rewrite drop_prefix_app.
    cbn [drop_prefix]. rewrite Ascii.eqb_refl.
    unfold strip_closing_fence.
    change [newline; "`"%char; "`"%char; "`"%char] with ([newline] ++ closing_fence)%list.
    rewrite app_assoc, drop_suffix_app, drop_suffix_app.
    now rewrite string_of_list_ascii_of_string.
  - intros NoOpen NoClose. unfold clean_reply, strip_opening_fence.
    destruct (drop_prefix opening_fence (list_ascii_of_string text)) as [rest|] eqn:O.
    { exfalso. apply drop_prefix_some in O.
      apply (NoOpen (string_of_list_ascii rest)).
      rewrite <- (string_of_list_ascii_of_string text), O.
      rewrite <- (list_ascii_of_string_of_list_ascii rest) at 1.
      change opening_fence with (list_ascii_of_string "```json").
      now rewrite <- list_ascii_app, string_of_list_ascii_of_string. }
    unfold strip_closing_fence.
    destruct (drop_suffix closing_fence (list_ascii_of_string text)) as [front|] eqn:C.
    { exfalso. apply drop_suffix_some in C.
      apply (NoClose (string_of_list_ascii front)).
      rewrite <- (string_of_list_ascii_of_string text), C.
      rewrite <- (list_ascii_of_string_of_list_ascii front) at 1.
      change closing_fence with (list_ascii_of_string "```").
      now rewrite <- list_ascii_app, string_of_list_ascii_of_string. }
    now rewrite string_of_list_ascii_of_string.
Qed.

End ReplyFacts.

(** ** The service worker *)

Module ServiceWorkerFacts.
Import ServiceWorker Install.

Lemma activate_fold (keys : list string) :
  forall acc : CacheStorage,
    fold_left
      (fun acc key => if negb (String.eqb key CACHE_NAME) then caches_delete key acc else acc)
      keys acc
    = List.filter
        (fun e => String.eqb (fst e) CACHE_NAME || negb (existsb (String.eqb (fst e)) keys))
        acc.
Proof.
  induction keys as [|k keys IH]; intros acc; cbn [fold_left existsb].
  - induction acc as [|e acc IHa]; [reflexivity|]. cbn [List.filter].
    rewrite orb_true_r. now f_equal.
  - rewrite IH. clear IH. destruct (String.eqb_spec k CACHE_NAME) as [-> | Hk]; cbn [negb].
    + apply List.filter_ext. intros e.
      destruct (String.eqb_spec (fst e) CACHE_NAME); [reflexivity|]. reflexivity.
    + unfold caches_delete. induction acc as [|e acc IHa]; [reflexivity|]. cbn [List.filter].
      destruct (String.eqb_spec (fst e) k) as [E | E]; cbn [negb orb].
      * rewrite IHa. destruct (String.eqb_spec (fst e) CACHE_NAME); [congruence|].
        reflexivity.
      * cbn [List.filter]. now rewrite IHa.
Qed.

(** X18. Activation deletes every cache but the current one: what is left of
    the cache storage is exactly its entries named [CACHE_NAME], untouched and
    in place, so the only key that can remain is [CACHE_NAME]. *)
Theorem activate_keeps_current_cache (cs : CacheStorage) :
  on_activate cs = List.filter (fun e => String.eqb (fst e) CACHE_NAME) cs
  /\ (forall key, In key (caches_keys (on_activate cs)) -> key = CACHE_NAME).
Proof.
  assert (E : on_activate cs = List.filter (fun e => String.eqb (fst e) CACHE_NAME) cs).
  { unfold on_activate. rewrite activate_fold. apply List.filter_ext_in.
    intros e In_e. destruct (String.eqb (fst e) CACHE_NAME); [reflexivity|]. cbn [orb].
    apply negb_false_iff, existsb_exists. exists (fst e). split.
    - unfold caches_keys. now apply in_map.
    - apply String.eqb_refl. }
  split; [exact E|]. intros key K. rewrite E in K. unfold caches_keys in K.
  apply in_map_iff in K as (e & <- & F). apply List.filter_In in F as [_ F].
  now apply String.eqb_eq.
Qed.

(** Activation with a previous version's cache still present. *)
Example activate_drops_previous_version :
  on_activate old_caches = [(CACHE_NAME, {["/" := page 2]})].
Proof. reflexivity. Qed.

Lemma match_after_put (name url : string) (r : Reply) (cs : CacheStorage) :
  caches_match url cs = None -> caches_match url (cache_put name url r cs) = Some r.
Proof.
  induction cs as [|[n c] cs IH]; cbn [caches_match cache_put].
  - intros _. now rewrite lookup_singleton_eq.
  - destruct (c !! url) eqn:L; [discriminate|]. intros M.
    destruct (String.eqb n name); cbn [caches_match].
    + now rewrite lookup_insert_eq.
    + rewrite L. now apply IH.
Qed.

Lemma match_survives_put (name url url' : string) (r : Reply) (cs : CacheStorage) :
  is_Some (caches_match url cs) -> is_Some (caches_match url (cache_put name url' r cs)).
Proof.
  induction cs as [|[n c] cs IH]; cbn [caches_match cache_put].
  - intros [x [=]].
  - destruct (c !! url) eqn:L.
    + intros _. destruct (String.eqb n name); cbn [caches_match].
      * destruct (String.eqb_spec url' url) as [-> | Ne].
        -- rewrite lookup_insert_eq. eauto.
        -- rewrite lookup_insert_ne by exact Ne. rewrite L. eauto.
      * rewrite L. eauto.
    + intros S. destruct (String.eqb n name); cbn [caches_match].
      * destruct (String.eqb_spec url' url) as [-> | Ne].
        -- rewrite lookup_insert_eq. eauto.
        -- rewrite lookup_insert_ne by exact Ne. now rewrite L.
      * rewrite L. now apply IH.
Qed.

Lemma match_exists_after_put (name url : string) (r : Reply) (cs : CacheStorage) :
  is_Some (caches_match url (cache_put name url r cs)).
Proof.
  destruct (caches_match url cs) eqn:M.
  - apply match_survives_put. rewrite M. eauto.
  - rewrite match_after_put by exact M. eauto.
Qed.

(** X19. The listener is cache-first and leaves other methods alone: a
    request that is not a GET is not handled at all, and a GET found in some
    cache is answered from it; in both cases nothing is fetched and the cache
    storage is unchanged.  The network is asked at most once, for the request's
    own URL, and the storage changes only by storing a 200 response of type
    basic, which is also the answer. *)
Theorem fetch_is_cache_first (network : string -> option Reply) (ev : FetchEvent)
    (cs : CacheStorage) :
  let served := on_fetch network ev cs in
  (req_method ev <> "GET" ->
     handling served = NotHandled /\ storage served = cs /\ requested served = [])
  /\ (forall r, req_method ev = "GET" -> caches_match (req_url ev) cs = Some r ->
        handling served = RespondWith (Some r) /\ storage served = cs
        /\ requested served = [])
  /\ (requested served = [] \/ requested served = [req_url ev])
  /\ (storage served <> cs ->
      exists res, network (req_url ev) = Some res /\ status res = 200
                  /\ type res = "basic" /\ handling served = RespondWith (Some res)).
Proof.
  cbn zeta. unfold on_fetch.
  destruct (String.eqb_spec (req_method ev) "GET") as [G | G]; cbn [negb].
  2:{ split; [intros _; now repeat split|]. split; [intros r E; congruence|].
      split; [now left|]. intros X. now contradiction X. }
  destruct (caches_match (req_url ev) cs) as [cached|] eqn:M.
  { split; [congruence|]. split; [intros r _ [= <-]; now repeat split|].
    split; [now left|]. intros X. now contradiction X. }
  destruct (network (req_url ev)) as [res|] eqn:N.
  2:{ split; [congruence|]. split; [intros r _ [=]|]. split; [now right|].
      intros X. now contradiction X. }
  split; [congruence|]. split; [intros r _ [=]|]. split; [now right|].
  cbn [storage handling]. unfold cacheable.
  destruct (Z.eqb_spec (status res) 200) as [S | S]; cbn [andb]; [|congruence].
  destruct (String.eqb_spec (type res) "basic") as [T | T]; [|congruence].
  intros _. now exists res.
Qed.

(** X20. A fetched page is available afterwards: when a GET that no cache
    holds is answered by the network with a 200 response of type basic, that
    response is returned and stored, and the same request is from then on
    answered with it from the cache, without any fetch, whatever the network
    does. *)
Theorem fetched_page_is_served_from_cache (network later : string -> option Reply)
    (url : string) (res : Reply) (cs : CacheStorage) :
  caches_match url cs = None ->
  network url = Some res ->
  status res = 200 -> type res = "basic" ->
  let first := on_fetch network (get url) cs in
  handling first = RespondWith (Some res)
  /\ requested first = [url]
  /\ on_fetch later (get url) (storage first)
     = {| handling := RespondWith (Some res); storage := storage first; requested := [] |}.
Proof.
  intros M N S T first.
  assert (E : first = {| handling := RespondWith (Some res);
                         storage := cache_put CACHE_NAME url res cs;
                         requested := [url] |}).
  { subst first. unfold on_fetch, get, cacheable. cbn [req_method req_url String.eqb
      Ascii.eqb Bool.eqb negb]. rewrite M, N, S, T. reflexivity. }
  rewrite E. cbn [handling requested storage]. split; [reflexivity|]. split; [reflexivity|].
  unfold on_fetch, get. cbn [req_method req_url String.eqb Ascii.eqb Bool.eqb negb].
  now rewrite match_after_put.
Qed.

(** X20 at a page fetched with an empty cache storage and requested again
    offline. *)
Lemma fetched_page_offline :
  handling (on_fetch offline (get "/about")
              (storage (on_fetch origin_server (get "/about") [])))
  = RespondWith (Some (page 6)).
Proof.
  destruct (fetched_page_is_served_from_cache origin_server offline "/about" (page 6) []
              eq_refl eq_refl eq_refl eq_refl) as (_ & _ & E).
  now rewrite E.
Defined.

Lemma offline_miss (url : string) (cs : CacheStorage) (network : string -> option Reply) :
  caches_match url cs = None ->
  network url = None ->
  on_fetch network (get url) cs
  = {| handling := RespondWith (caches_match "/" cs); storage := cs; requested := [url] |}.
Proof.
  intros M N. unfold on_fetch, get.
  cbn [req_method req_url String.eqb Ascii.eqb Bool.eqb negb]. now rewrite M, N.
Qed.

Lemma put_all_keeps_matches (entries : list (string * Reply)) :
  forall (cs : CacheStorage) (url : string),
    is_Some (caches_match url cs) ->
    is_Some (caches_match url (put_all CACHE_NAME entries cs)).
Proof.
  induction entries as [|[u r] entries IH]; intros cs url S; [exact S|].
  cbn [put_all fold_left fst snd]. apply IH. now apply match_survives_put.
Qed.

Lemma put_all_matches (entries : list (string * Reply)) :
  forall (cs : CacheStorage) (url : string),
    In url (map fst entries) ->
    is_Some (caches_match url (put_all CACHE_NAME entries cs)).
Proof.
  induction entries as [|[u r] entries IH]; intros cs url I; [destruct I|].
  cbn [put_all fold_left fst snd]. destruct I as [<- | I].
  - apply put_all_keeps_matches, match_exists_after_put.
  - now apply IH.
Qed.

Lemma fetch_all_urls (network : string -> option Reply) (urls : list string) :
  forall entries, fetch_all network urls = Some entries -> map fst entries = urls.
Proof.
  induction urls as [|u urls IH]; intros entries; cbn [fetch_all].
  - now intros [= <-].
  - destruct (network u) as [r|]; [|discriminate].
    destruct (fetch_all network urls) as [fetched|]; [|discriminate].
    destruct (ok r); [|discriminate]. intros [= <-]. cbn. f_equal. now apply IH.
Qed.

(** X22. After a successful install the application shell works offline:
    every asset of the list is answered from the cache, with some response and
    without any fetch, whatever the network does. *)
Theorem installed_assets_are_served_offline (network later : string -> option Reply)
    (cs installed : CacheStorage) (asset : string) :
  on_install network cs = (true, installed) ->
  In asset ASSETS ->
  exists r,
    on_fetch later (get asset) installed
    = {| handling := RespondWith (Some r); storage := installed; requested := [] |}.
Proof.
  unfold on_install. destruct (fetch_all network ASSETS) as [entries|] eqn:F; [|discriminate].
  intros [= <-] A.
  destruct (put_all_matches entries (caches_open CACHE_NAME cs) asset) as [r M].
  { now rewrite (fetch_all_urls network ASSETS entries F). }
  exists r. unfold on_fetch, get.
  cbn [req_method req_url String.eqb Ascii.eqb Bool.eqb negb]. now rewrite M.
Qed.

(** X22 at a first install from a server that has every asset. *)
Lemma installed_start_page_offline :
  exists r,
    handling (on_fetch offline (get "/index.html") (snd (on_install origin_server [])))
    = RespondWith (Some r).
Proof.
  destruct (installed_assets_are_served_offline origin_server offline []
              (snd (on_install origin_server [])) "/index.html") as [r E].
  - now vm_compute.
  - cbn. tauto.
  - exists r. now rewrite E.
Defined.

(** X21. After a successful install, an offline GET for something no cache
    holds is still answered: the fetch fails and the listener falls back to the
    cached start page, leaving the cache storage unchanged. *)
Theorem offline_miss_gets_start_page (network later : string -> option Reply)
    (cs installed : CacheStorage) (url : string) :
  on_install network cs = (true, installed) ->
  caches_match url installed = None ->
  later url = None ->
  exists start,
    caches_match "/" installed = Some start
    /\ on_fetch later (get url) installed
       = {| handling := RespondWith (Some start); storage := installed;
            requested := [url] |}.
Proof.
  unfold on_install. destruct (fetch_all network ASSETS) as [entries|] eqn:F; [|discriminate].
  intros [= <-] M N.
  destruct (put_all_matches entries (caches_open CACHE_NAME cs) "/") as [start S].
  { rewrite (fetch_all_urls network ASSETS entries F). now left. }
  exists start. split; [exact S|]. rewrite offline_miss by assumption. now rewrite S.
Qed.

(** X21 at a first install, then an offline request for an unknown page. *)
Lemma offline_unknown_page :
  exists start,
    handling (on_fetch offline (get "/unknown") (snd (on_install origin_server [])))
    = RespondWith (Some start).
Proof.
  destruct (offline_miss_gets_start_page origin_server offline []
              (snd (on_install origin_server [])) "/unknown") as (start & _ & E).
  - now vm_compute.
  - now vm_compute.
  - reflexivity.
  - exists start. now rewrite E.
Defined.

End ServiceWorkerFacts.

(** ** The camera script *)

Module CameraFacts.
Import Camera CameraFlow.

Lemma coherent_restart (granted : option Stream) (p : Page) :
  camera_coherent (restart granted p).
Proof.
  unfold camera_coherent. cbn. split; [reflexivity|]. split; [lia|].
  split; [intros _; repeat split; lia | discriminate].
Qed.

Lemma coherent_capture (frame : nat) (p : Page) :
  camera_coherent p -> scanShown p = true -> camera_coherent (captureBtn_click frame p).
Proof.
  intros I Sc. pose proof I as (L & B & HS & HP). destruct (HS Sc) as (Lt & Pv & Rs).
  unfold captureBtn_click. destruct (currentStream p) as [s|]; [|exact I].
  destruct (Nat.leb_spec 2 (S (step p))) as [G | G]; unfold camera_coherent;
    cbn [step capturedImages scanShown previewShown resultShown preview1 preview2];
    rewrite length_app; cbn [List.length].
  - split; [lia|]. split; [lia|]. split; [discriminate|]. intros _.
    split; [lia|]. now split.
  - split; [lia|]. split; [lia|]. split; [intros _; repeat split; [lia | exact Pv | exact Rs]|].
    rewrite Pv. discriminate.
Qed.

Lemma coherent_newScan (p : Page) :
  camera_coherent p -> resultShown p = true -> camera_coherent (newScanBtn_click p).
Proof.
  intros (L & B & S & P) R. unfold camera_coherent.
  cbn [newScanBtn_click step capturedImages scanShown previewShown resultShown
       preview1 preview2 List.length].
  split; [reflexivity|]. split; [lia|]. split.
  - intros Sc. destruct (S Sc) as (_ & _ & Rs). congruence.
  - intros Pv. destruct (P Pv) as (_ & Rs & _). congruence.
Qed.

Lemma camera_reachable_coherent (p : Page) : Reachable p -> camera_coherent p.
Proof.
  induction 1 as [|ev p R IH E].
  - unfold camera_coherent. cbn. split; [reflexivity|]. split; [lia|].
    split; discriminate.
  - destruct ev as [granted | frame | granted | hasKey |]; cbn [apply_event enabled] in *.
    + apply coherent_restart.
    + now apply coherent_capture.
    + apply coherent_restart.
    + destruct hasKey; [|exact IH]. destruct IH as (L & B & _ & _).
      unfold camera_coherent. cbn. split; [exact L|]. split; [exact B|].
      split; discriminate.
    + now apply coherent_newScan.
Qed.

Lemma previewing_reachable : Reachable previewing.
Proof.
  exact (reach_step (Capture 2) _
           (reach_step (Capture 1) _
              (reach_step (StartScan (Some full_hd)) _ reach_initial eq_refl)
              eq_refl)
           eq_refl).
Qed.

(** X23. In every state the camera script can reach, the step equals the
    number of captured images and is at most 2; the preview is shown only with
    exactly two images, which are the two it displays; and of the scan, preview
    and result panels at most one is shown. *)
Theorem camera_progress_coherent (p : Page) :
  Reachable p ->
  (List.length (capturedImages p) = step p /\ (step p <= 2)%nat)
  /\ (previewShown p = true ->
      exists a b, capturedImages p = [a; b] /\ preview1 p = Some a /\ preview2 p = Some b)
  /\ (scanShown p = true -> previewShown p = false /\ resultShown p = false)
  /\ (previewShown p = true -> resultShown p = false).
Proof.
  intros R. destruct (camera_reachable_coherent p R) as (L & B & S & P).
  split; [now split|]. split; [|split].
  - intros Pv. destruct (P Pv) as (E & _ & P1 & P2). rewrite E in L.
    destruct (capturedImages p) as [|a [|b [|c rest]]]; try discriminate L.
    exists a, b. now repeat split.
  - intros Sc. now destruct (S Sc) as (_ & Pv & Rs).
  - intros Pv. now destruct (P Pv) as (_ & Rs & _).
Qed.

(** X23 at the preview of two frames of a 1920 x 1080 stream. *)
Lemma camera_progress_previewing :
  previewShown previewing = true
  /\ exists a b, capturedImages previewing = [a; b] /\ preview1 previewing = Some a.
Proof.
  split; [reflexivity|].
  destruct (camera_progress_coherent previewing previewing_reachable) as (_ & P & _).
  destruct (P eq_refl) as (a & b & E & P1 & _). now exists a, b.
Defined.


(** X25. When camera access is denied and no earlier stream exists, the
    capture button is dead: any number of clicks leaves the page as the start
    button left it, with no image captured. *)
Theorem denied_camera_captures_nothing (p : Page) (frames : list nat) :
  currentStream p = None ->
  captures frames (startScanBtn_click None p) = startScanBtn_click None p
  /\ capturedImages (captures frames (startScanBtn_click None p)) = [].
Proof.
  intros N.
  assert (E : captures frames (startScanBtn_click None p) = startScanBtn_click None p).
  { induction frames as [|f frames IH]; [reflexivity|].
    unfold captures in *. cbn [fold_left].
    replace (captureBtn_click f (startScanBtn_click None p))
      with (startScanBtn_click None p); [exact IH|].
    unfold captureBtn_click, startScanBtn_click, restart, startCamera.
    cbn [currentStream]. now rewrite N. }
  rewrite E. now split.
Qed.

(** X25 on the freshly loaded page. *)
Lemma denied_camera_on_first_start :
  currentStream initial = None
  /\ capturedImages (captures [1; 2; 3]%nat (startScanBtn_click None initial)) = [].
Proof.
  split; [reflexivity|].
  now destruct (denied_camera_captures_nothing initial [1; 2; 3]%nat eq_refl) as [_ E].
Defined.

End CameraFacts.

(** ** From the handler's reply to the page *)

Module DisplayFacts.
Import Api Server CameraResult.

Section WithHost.
Context `{Host}.







(** An OK reply whose brand name cannot be converted to text: [showResult]
    raises and the page shows the not-found message. *)
Example unprintable_brand_is_not_shown :
  let result := JObj [("status", JStr "OK"); ("drug", JObj [("brand_name", unprintable)]);
                      ("sources", JArr [openfda_source "https://api.fda.gov/drug/"])] in
  showResult result = None /\ shown result = NotFoundMessage.
Proof. now split. Qed.

End WithHost.

End DisplayFacts.
